(** * Scaffold clean-up scripts of the Backstage agent skills

    A shallow embedding of the two executable scripts of the repository,

    - [cleanup-scaffolding.js]          (frontend plugin packages) and
    - [cleanup-scaffolding-backend.js]  (backend plugin packages),

    together with the properties their specification states about them.

    Conventions of the embedding.

    - A JavaScript string is the list of its UTF-16 code units ([jsstring]).
    - The file system is a tree of directories and regular files; files hold
      text, i.e. what [readFileSync (_, 'utf8')] returns and what
      [writeFileSync] is given.  Names and texts are kept as they are given:
      the tree is what the calls leave for names and texts that UTF-8 can
      hold ([well_formed]: no surrogate code unit without its partner), and
      the statements about the text or the name of a file that a script has
      written ask for that.  There are no symbolic links, and the only
      failures are the ones of the path structure (ENOENT, ENOTDIR, EISDIR,
      ENOTEMPTY, EINVAL) and of a new name that the file system does not
      take ([name_ok]); the length of a whole path has no limit.
    - Paths are absolute and normalised: the list of their segments from the
      root.  [path.join] is POSIX [path.join].
    - A script is a computation in a state-and-exception monad over the
      machine state [sys]: the disk, the list of disk snapshots taken after
      each mutation, and the lines printed so far. *)

From Stdlib Require Import NArith ZArith Ascii String List Lia PrimFloat.
From stdpp Require Import base option list gmap.

Local Open Scope N_scope.
Local Open Scope list_scope.

(** ** JavaScript strings *)

Module Js.

(** One UTF-16 code unit. *)
Definition code_unit := N.

Definition jsstring := list code_unit.

(** An ASCII literal of the source text as a [jsstring]. *)
Definition lit (s : string) : jsstring :=
  List.map N_of_ascii (list_ascii_of_string s).

Definition ch (a : ascii) : code_unit := N_of_ascii a.

(** [String.prototype.split] with a separator of one code unit: the result
    always has at least one element. *)
Fixpoint split (sep : code_unit) (s : jsstring) : list jsstring :=
  match s with
  | [] => [[]]
  | c :: s' =>
      if c =? sep then [] :: split sep s'
      else match split sep s' with
           | w :: ws => (c :: w) :: ws
           | [] => [[c]]
           end
  end.

(** [Array.prototype.join('')]. *)
Definition join_empty (ws : list jsstring) : jsstring := concat ws.

Section Upper.

(** [toUpperCase] on a string of one code unit outside ASCII follows the
    Unicode case tables of the runtime, which are not part of the
    repository: they are a parameter. *)
Variable unicode_upper : code_unit -> jsstring.

Definition is_ascii_lower (c : code_unit) : bool :=
  (97 <=? c) && (c <=? 122).

(** [c.toUpperCase()] for a string [c] of one code unit. *)
Definition toUpperCase1 (c : code_unit) : jsstring :=
  if is_ascii_lower c then [c - 32]
  else if c <? 128 then [c]
  else unicode_upper c.

(** [word.charAt(0).toUpperCase() + word.slice(1)] *)
Definition capitalize (word : jsstring) : jsstring :=
  match word with
  | [] => []
  | c :: rest => toUpperCase1 c ++ rest
  end.

(** [toPascalCase] of cleanup-scaffolding.js. *)
Definition toPascalCase (str : jsstring) : jsstring :=
  join_empty (List.map capitalize (split (ch "-") str)).

(** The name the specification derives, read off its words: go through the
    identifier once, drop every separator, and put in upper case each
    code unit that starts a segment. *)
Fixpoint pascal_scan (at_start : bool) (s : jsstring) : jsstring :=
  match s with
  | [] => []
  | c :: s' =>
      if c =? ch "-" then pascal_scan true s'
      else (if at_start then toUpperCase1 c else [c]) ++ pascal_scan false s'
  end.

End Upper.

(** *** Regular expressions

    The scripts use literal text, the class of the two quote characters, the
    class [\s], the greedy
    star of a class and the greedy option of one character: a regular
    expression is a sequence of such atoms.  None has a capture group. *)

Inductive atom :=
| Lit (s : jsstring)
| Cls (p : code_unit -> bool)
| Star (p : code_unit -> bool)
| Opt (c : code_unit).

Definition regex := list atom.

(** [\s]: WhiteSpace and LineTerminator of ECMAScript. *)
Definition is_space (c : code_unit) : bool :=
  ((9 <=? c) && (c <=? 13)) || (c =? 32) || (c =? 160) || (c =? 5760)
  || ((8192 <=? c) && (c <=? 8202)) || (c =? 8232) || (c =? 8233)
  || (c =? 8239) || (c =? 8287) || (c =? 12288) || (c =? 65279).

(** The class of the single and the double quote (written with two or with
    three characters between the brackets in the scripts: the same set). *)
Definition is_quote (c : code_unit) : bool :=
  (c =? ch "'") || (c =? 34).

(** [strip s input]: [input] without its prefix [s], if it starts with it. *)
Fixpoint strip (s input : jsstring) : option jsstring :=
  match s with
  | [] => Some input
  | c :: s' =>
      match input with
      | x :: input' => if x =? c then strip s' input' else None
      | [] => None
      end
  end.

(** The greedy star of a class in front of the rest [k] of a pattern: as
    many code units of the class as [k] allows, the most first. *)
Fixpoint star (p : code_unit -> bool) (k : jsstring -> option jsstring)
    (i : jsstring) : option jsstring :=
  match i with
  | x :: rest =>
      if p x
      then match star p k rest with
           | Some r => Some r
           | None => k i
           end
      else k i
  | [] => k []
  end.

(** The backtracking matcher, anchored at the start of [input]: the rest of
    the input after the match the engine finds first (greedy atoms take as
    much as they can and give back one code unit at a time). *)
Fixpoint exec (re : regex) (input : jsstring) {struct re} : option jsstring :=
  match re with
  | [] => Some input
  | Lit s :: re' =>
      match strip s input with
      | Some rest => exec re' rest
      | None => None
      end
  | Cls p :: re' =>
      match input with
      | x :: rest => if p x then exec re' rest else None
      | [] => None
      end
  | Opt c :: re' =>
      match input with
      | x :: rest =>
          if x =? c
          then match exec re' rest with
               | Some r => Some r
               | None => exec re' input
               end
          else exec re' input
      | [] => exec re' input
      end
  | Star p :: re' => star p (exec re') input
  end.

(** GetSubstitution for a pattern without groups: in the replacement text
    [$$] is a dollar, [$&] the match, [$`] the text before it and [$'] the
    text after it; every other dollar stands for itself. *)
Fixpoint expand (repl matched before after : jsstring) : jsstring :=
  match repl with
  | [] => []
  | c :: r' =>
      if c =? 36 then
        match r' with
        | d :: r'' =>
            if d =? 36 then 36 :: expand r'' matched before after
            else if d =? 38 then matched ++ expand r'' matched before after
            else if d =? 96 then before ++ expand r'' matched before after
            else if d =? 39 then after ++ expand r'' matched before after
            else 36 :: expand r' matched before after
        | [] => [36]
        end
      else c :: expand r' matched before after
  end.

(** [s.replace(/re/g, repl)].  [before] is the text already passed,
    [skip] the number of code units of [s] that still belong to the last
    match.  After an empty match the search goes on one code unit later. *)
Fixpoint scan (re : regex) (repl before : jsstring) (skip : nat)
    (s : jsstring) : jsstring :=
  match s with
  | [] =>
      match skip, exec re [] with
      | O, Some _ => expand repl [] before []
      | _, _ => []
      end
  | c :: s' =>
      match skip with
      | S k => scan re repl (before ++ [c]) k s'
      | O =>
          match exec re s with
          | Some rest =>
              let n := (length s - length rest)%nat in
              expand repl (take n s) before rest ++
                match n with
                | O => c :: scan re repl (before ++ [c]) 0 s'
                | S k => scan re repl (before ++ [c]) k s'
                end
          | None => c :: scan re repl (before ++ [c]) 0 s'
          end
      end
  end.

Definition replace_all (re : regex) (repl s : jsstring) : jsstring :=
  scan re repl [] 0 s.

(** [starts_with p s]: [s] begins with the text [p]. *)
Definition starts_with (p s : jsstring) : bool :=
  match strip p s with
  | Some _ => true
  | None => false
  end.

(** A replacement text without dollar stands for itself. *)
Definition no_dollar (repl : jsstring) : bool :=
  forallb (fun c => negb (c =? 36)) repl.

(** Two texts agree as far as both go. *)
Definition compatible (x y : jsstring) : bool :=
  starts_with x y || starts_with y x.

(** [clash_free p r]: no occurrence of [p] can begin inside [r], and none
    that begins before [r] can run into it: no end of [r] and no proper end
    of [p] agrees with the other text as far as both go. *)
Definition clash_free (p r : jsstring) : bool :=
  forallb (fun j => negb (compatible (drop j r) p)) (seq 0 (length r))
  && forallb (fun j => negb (compatible (drop j p) r)) (seq 1 (length p - 1)).

(** *** UTF-8

    The file system interface writes texts and names in UTF-8. *)

(** The two halves of a surrogate pair. *)
Definition is_high (c : code_unit) : bool := (55296 <=? c) && (c <=? 56319).
Definition is_low (c : code_unit) : bool := (56320 <=? c) && (c <=? 57343).

(** [well_formed s]: every surrogate code unit of [s] is part of a pair, so
    that [s] is read back from its UTF-8 bytes as it is. *)
Fixpoint well_formed (s : jsstring) : bool :=
  match s with
  | [] => true
  | c :: s' =>
      if is_high c then
        match s' with
        | d :: s'' => is_low d && well_formed s''
        | [] => false
        end
      else negb (is_low c) && well_formed s'
  end.

(** The number of bytes of [s] in UTF-8: a surrogate pair takes four, and a
    surrogate without partner is written as U+FFFD, which takes three. *)
Fixpoint utf8_length (s : jsstring) : nat :=
  match s with
  | [] => 0
  | c :: s' =>
      if c <? 128 then S (utf8_length s')
      else if c <? 2048 then 2 + utf8_length s'
      else if is_high c then
        match s' with
        | d :: s'' =>
            if is_low d then 4 + utf8_length s'' else 3 + utf8_length s'
        | [] => 3
        end
      else 3 + utf8_length s'
  end.

(** [occurs p s]: the text [p] occurs in [s]. *)
Fixpoint occurs (p s : jsstring) : bool :=
  match strip p s with
  | Some _ => true
  | None => match s with
            | [] => false
            | _ :: s' => occurs p s'
            end
  end.

End Js.

(** ** The file system *)

Module Fs.
Import Js.

(** An absolute, normalised path: its segments from the root. *)
Definition path := list jsstring.

#[warnings="-register-all"]
Inductive node :=
| File (content : jsstring)
| Dir (entries : gmap jsstring node).

(** The node a path leads to.  Nothing lies below a regular file. *)
Fixpoint node_at (p : path) (t : node) : option node :=
  match p with
  | [] => Some t
  | s :: p' =>
      match t with
      | Dir m => match m !! s with
                 | Some c => node_at p' c
                 | None => None
                 end
      | File _ => None
      end
  end.

(** [store p o t]: the tree [t] with the entry at [p] replaced by [o]
    ([None] removes it).  The parent of [p] has to be a directory of [t];
    the root itself is never replaced. *)
Fixpoint store (p : path) (o : option node) (t : node) : option node :=
  match p with
  | [] => None
  | s :: p' =>
      match t with
      | Dir m =>
          match p' with
          | [] => Some (Dir (partial_alter (fun _ => o) s m))
          | _ :: _ =>
              match m !! s with
              | Some c =>
                  match store p' o c with
                  | Some c' => Some (Dir (<[s := c']> m))
                  | None => None
                  end
              | None => None
              end
          end
      | File _ => None
      end
  end.

(** What the file system takes as the name of a new entry: no NUL, and at
    most NAME_MAX = 255 bytes.  node rejects a path with a NUL before the
    call (ERR_INVALID_ARG_VALUE), the system a longer name (ENAMETOOLONG). *)
Definition name_ok (s : jsstring) : bool :=
  forallb (fun c => negb (c =? 0)) s && (utf8_length s <=? 255)%nat.

(** [creatable p]: the last segment of [p] can be the name of an entry. *)
Definition creatable (p : path) : bool :=
  match last p with
  | Some s => name_ok s
  | None => true
  end.

(** [fs.existsSync]: false on every failure of the access. *)
Definition existsSync (p : path) (t : node) : bool :=
  match node_at p t with
  | Some _ => true
  | None => false
  end.

(** The operations below return [None] where the call throws. *)

(** [fs.readFileSync (p, 'utf8')] *)
Definition readFileSync (p : path) (t : node) : option jsstring :=
  match node_at p t with
  | Some (File c) => Some c
  | _ => None
  end.

(** [fs.writeFileSync (p, c)]: creates or truncates the file; a new name
    has to be one the file system takes.  The text is stored as it is
    given: node writes it in UTF-8, from which a [well_formed] text is
    read back as it is. *)
Definition writeFileSync (p : path) (c : jsstring) (t : node) : option node :=
  if negb (creatable p) then None
  else
    match node_at p t with
    | Some (Dir _) => None
    | _ => store p (Some (File c)) t
    end.

(** [fs.unlinkSync p]: regular files only. *)
Definition unlinkSync (p : path) (t : node) : option node :=
  match node_at p t with
  | Some (File _) => store p None t
  | _ => None
  end.

(** [fs.rmSync (p, { recursive: true, force: true })]: removes the file or
    the whole directory; nothing happens when [p] does not exist. *)
Definition rmSync (p : path) (t : node) : option node :=
  match node_at p t with
  | Some _ => store p None t
  | None => Some t
  end.

Definition is_empty_dir (m : gmap jsstring node) : bool :=
  bool_decide (dom m = ∅).

(** [fs.renameSync (a, b)], as rename(2): a directory replaces only an
    empty directory and cannot move below itself, a file replaces only a
    file; the parent of [b] has to exist, and the name of [b] has to be one
    the file system takes. *)
Definition renameSync (a b : path) (t : node) : option node :=
  if negb (creatable b) then None
  else
  match node_at a t with
  | None => None
  | Some src =>
      if bool_decide (a = b) then Some t
      else
        let move :=
          match store a None t with
          | Some t' => store b (Some src) t'
          | None => None
          end in
        match src with
        | Dir _ =>
            if bool_decide (a `prefix_of` b) then None
            else match node_at b t with
                 | Some (File _) => None
                 | Some (Dir m) => if is_empty_dir m then move else None
                 | None => move
                 end
        | File _ =>
            match node_at b t with
            | Some (Dir _) => None
            | _ => move
            end
        end
  end.

(** [path.join (p, s)] for a normalised [p]: the segments of [s] are
    taken one by one; an empty one and [.] stay in place, [..] goes to the
    parent (the root is its own parent). *)
Definition step (p : path) (seg : jsstring) : path :=
  if bool_decide (seg = []) || bool_decide (seg = lit ".") then p
  else if bool_decide (seg = lit "..") then removelast p
  else p ++ [seg].

Definition join (p : path) (s : jsstring) : path :=
  fold_left step (split (ch "/") s) p.

(** The last segment of a text that is joined to a path. *)
Definition last_segment (s : jsstring) : jsstring :=
  List.last (split (ch "/") s) [].

End Fs.

(** ** Parsed JSON *)

Module Json.
Import Js.

(** What [JSON.parse] returns.  An object is the list of its properties,
    each key once. *)
#[warnings="-register-all"]
Inductive json :=
| JNull
| JBool (b : bool)
| JNum (x : float)
| JStr (s : jsstring)
| JArr (items : list json)
| JObj (fields : list (jsstring * json)).

(** A value read out of parsed JSON: [None] is [undefined]. *)
Definition value := option json.

Definition field (k : jsstring) (fields : list (jsstring * json)) : value :=
  match List.find (fun kv => bool_decide (fst kv = k)) fields with
  | Some kv => Some (snd kv)
  | None => None
  end.

(** [v.k] for a key [k] that no prototype defines; [None] when the read
    throws a TypeError ([v] is [null]). *)
Definition get (v : json) (k : jsstring) : option value :=
  match v with
  | JNull => None
  | JObj fields => Some (field k fields)
  | _ => Some None
  end.

(** [v?.k] *)
Definition get_optional (v : value) (k : jsstring) : value :=
  match v with
  | Some (JObj fields) => field k fields
  | _ => None
  end.

(** [packageJson.backstage?.pluginId]; [None] when it throws. *)
Definition pluginId (packageJson : json) : option value :=
  match get packageJson (lit "backstage") with
  | None => None
  | Some backstage => Some (get_optional backstage (lit "pluginId"))
  end.

(** ToBoolean *)
Definition truthy (v : value) : bool :=
  match v with
  | None => false
  | Some JNull => false
  | Some (JBool b) => b
  | Some (JNum x) => negb (PrimFloat.eqb x 0%float) && negb (PrimFloat.is_nan x)
  | Some (JStr s) => match s with [] => false | _ :: _ => true end
  | Some (JArr _) => true
  | Some (JObj _) => true
  end.

(** ToString, as a template literal applies it to a value of parsed JSON:
    whether it returns.  An object is printed by [Object.prototype.toString]
    unless it has a property [toString] of its own: JSON gives no function,
    so that the own property is not callable, [valueOf] returns no
    primitive, and the conversion throws a TypeError.  An array is printed
    by [Array.prototype.join], which converts each of its elements. *)
Fixpoint printable (v : json) : bool :=
  match v with
  | JNull | JBool _ | JNum _ | JStr _ => true
  | JArr items => forallb printable items
  | JObj fields =>
      negb (existsb (fun kv => bool_decide (fst kv = lit "toString")) fields)
  end.

Definition printable_value (v : value) : bool :=
  match v with
  | Some j => printable j
  | None => true
  end.

End Json.

(** ** Scripts: state, exceptions and exit *)

Module Script.
Import Js Fs Json.

(** A path leads nowhere, or to a regular file with a given text. *)
Definition absent (q : path) (d : node) : Prop := node_at q d = None.
Definition is_file (q : path) (c : jsstring) (d : node) : Prop :=
  node_at q d = Some (File c).

(** What a script prints: the text of the source, a line break ([\n] in
    the source) and the values put into it. *)
Inductive piece :=
| Txt (s : string)
| Nl
| Val (v : jsstring)
| ValPath (p : path)
| ValValue (v : value)
| ErrMessage
| ErrStack.

Inductive stream := Stdout | Stderr.

Definition line : Type := stream * list piece.

(** The machine: the disk, the disks after each mutation so far (oldest
    first), and the lines printed so far. *)
Record sys := Sys {
  disk : node;
  snaps : list node;
  out : list line
}.

(** What is thrown: by a call of [fs], by [JSON.parse], by the language. *)
Inductive exn := SystemError | SyntaxError | TypeError.

Inductive res (A : Type) :=
| Done (a : A)
| Throw (e : exn)
| Exit (code : Z).
Arguments Done {A} a.
Arguments Throw {A} e.
Arguments Exit {A} code.

Definition M (A : Type) : Type := sys -> res A * sys.

Definition ret {A} (a : A) : M A := fun w => (Done a, w).

Definition bind {A B} (k : A -> M B) (m : M A) : M B :=
  fun w =>
    match m w with
    | (Done a, w') => k a w'
    | (Throw e, w') => (Throw e, w')
    | (Exit c, w') => (Exit c, w')
    end.

#[global] Instance M_ret : MRet M := @ret.
#[global] Instance M_bind : MBind M := @bind.

Definition throw {A} (e : exn) : M A := fun w => (Throw e, w).

(** [process.exit (code)] *)
Definition process_exit {A} (code : Z) : M A := fun w => (Exit code, w).

Definition print (l : line) : M unit :=
  fun w => (Done tt, Sys (disk w) (snaps w) (out w ++ [l])).

(** [console.log] and [console.error] *)
Definition console_log (l : list piece) : M unit := print (Stdout, l).
Definition console_error (l : list piece) : M unit := print (Stderr, l).

(** A read of the disk. *)
Definition observe {A} (f : node -> A) : M A :=
  fun w => (Done (f (disk w)), w).

(** A read that may throw. *)
Definition attempt {A} (f : node -> option A) : M A :=
  fun w =>
    match f (disk w) with
    | Some a => (Done a, w)
    | None => (Throw SystemError, w)
    end.

(** A mutation of the disk: when it throws, the disk is as before. *)
Definition mutate (f : node -> option node) : M unit :=
  fun w =>
    match f (disk w) with
    | Some d => (Done tt, Sys d (snaps w ++ [d]) (out w))
    | None => (Throw SystemError, w)
    end.

(** The removal blocks, which both scripts repeat for each of their
    targets:
    [if (fs.existsSync (p)) { console.log (label); fs.rmSync (p, { recursive: true, force: true }); }]
    for a directory target and
    [if (fs.existsSync (p)) { console.log (label); fs.unlinkSync (p); }]
    for a file target. *)
Definition remove_tree (p : path) (label : list piece) : M unit :=
  b ← observe (existsSync p);
  if b : bool then
    console_log label;;
    mutate (rmSync p)
  else mret tt.

Definition remove_file (p : path) (label : list piece) : M unit :=
  b ← observe (existsSync p);
  if b : bool then
    console_log label;;
    mutate (unlinkSync p)
  else mret tt.

(** [try { body } catch (error) { handler }] *)
Definition try_catch (body : M unit) (handler : exn -> M unit) : M unit :=
  fun w =>
    match body w with
    | (Throw e, w') => handler e w'
    | r => r
    end.

(** The exit code of the process and the machine it leaves: 0 when the
    script runs to its end, 1 after an uncaught exception (whose stack
    goes to stderr). *)
Definition run (script : M unit) (w : sys) : Z * sys :=
  match script w with
  | (Done _, w') => (0%Z, w')
  | (Exit c, w') => (c, w')
  | (Throw _, w') => (1%Z, Sys (disk w') (snaps w') (out w' ++ [(Stderr, [ErrStack])]))
  end.

(** A machine that has not started: nothing written, nothing printed. *)
Definition boot (d : node) : sys := Sys d [] [].

(** What both scripts require of the package: the directory and the
    manifest exist, the manifest is a regular file that parses, and its
    plugin id [id] is truthy and can be printed (each script puts it into
    a template literal before its [try]). *)
Definition valid_package (pluginPath : path) (manifest : option json)
    (d : node) (id : value) : Prop :=
  existsSync pluginPath d = true
  /\ (exists text, node_at (pluginPath ++ [lit "package.json"]) d = Some (File text))
  /\ (exists packageJson, manifest = Some packageJson
                          /\ pluginId packageJson = Some id)
  /\ truthy id = true
  /\ printable_value id = true.

(** [hoare P m Q S]: from a disk that satisfies [P], the computation [m]
    ends with a result and a disk that satisfy [Q], and every disk it
    writes on the way satisfies [S]. *)
Definition hoare {A} (P : node -> Prop) (m : M A)
    (Q : res A -> node -> Prop) (S : node -> Prop) : Prop :=
  forall w, P (disk w) ->
    Q (fst (m w)) (disk (snd (m w)))
    /\ exists new, snaps (snd (m w)) = snaps w ++ new /\ Forall S new.

(** No requirement on the disks written on the way. *)
Definition anything : node -> Prop := fun _ => True.

(** A postcondition for the normal end only. *)
Definition on_done {A} (Q : A -> node -> Prop) : res A -> node -> Prop :=
  fun r d => match r with Done a => Q a d | _ => True end.

(** A postcondition that also says that the end is the normal one. *)
Definition surely {A} (Q : A -> node -> Prop) : res A -> node -> Prop :=
  fun r d => match r with Done a => Q a d | _ => False end.

(** A postcondition that excludes [process.exit]. *)
Definition no_exit {A} : res A -> node -> Prop :=
  fun r _ => match r with Exit _ => False | _ => True end.

(** A postcondition for every end. *)
Definition always {A} (I : node -> Prop) : res A -> node -> Prop :=
  fun _ d => I d.

End Script.

(** ** cleanup-scaffolding.js (frontend plugin packages) *)

Module Frontend.
Import Js Fs Json Script.

(** The patterns of the script, in the order of the source. *)

Definition re_fetch_import : regex :=
  [Lit (lit "import { ExampleFetchComponent } from "); Cls is_quote;
   Lit (lit "../ExampleFetchComponent"); Cls is_quote; Opt (ch ";"); Opt 10].

Definition re_fetch_jsx : regex :=
  [Star is_space; Lit (lit "<Grid item>"); Star is_space;
   Lit (lit "<ExampleFetchComponent />"); Star is_space;
   Lit (lit "</Grid>"); Star is_space].

Definition re_export : regex := [Lit (lit "export const ExampleComponent")].

Definition re_from : regex :=
  [Lit (lit "from "); Cls is_quote; Lit (lit "./ExampleComponent"); Cls is_quote].

Definition re_placeholder : regex := [Lit (lit "ExampleComponent")].

Definition re_lazy_import : regex :=
  [Lit (lit "import("); Cls is_quote; Lit (lit "./components/ExampleComponent");
   Cls is_quote; Lit (lit ")")].

Definition re_member : regex := [Lit (lit "m.ExampleComponent")].

(** The new text of the component file (step 3). *)
Definition content (componentName c : jsstring) : jsstring :=
  let c := replace_all re_fetch_import [] c in
  let c := replace_all re_fetch_jsx [] c in
  replace_all re_export (lit "export const " ++ componentName) c.

(** The new text of the test file (step 4). *)
Definition testContent (componentName c : jsstring) : jsstring :=
  let c := replace_all re_from (lit "from './" ++ componentName ++ lit "'") c in
  replace_all re_placeholder componentName c.

(** The new text of index.ts (step 5). *)
Definition indexContent (componentName c : jsstring) : jsstring :=
  let c := replace_all re_from (lit "from './" ++ componentName ++ lit "'") c in
  replace_all re_placeholder componentName c.

(** The new text of plugin.ts (step 6). *)
Definition pluginContent (componentName c : jsstring) : jsstring :=
  let c := replace_all re_lazy_import
             (lit "import('./components/" ++ componentName ++ lit "')") c in
  replace_all re_member (lit "m." ++ componentName) c.

Definition componentsDir (pluginPath : path) : path :=
  pluginPath ++ [lit "src"; lit "components"].

Definition exampleComponentDir (pluginPath : path) : path :=
  componentsDir pluginPath ++ [lit "ExampleComponent"].

Definition newComponentDir (pluginPath : path) (componentName : jsstring) : path :=
  join (componentsDir pluginPath) componentName.

Definition exampleFetchDir (pluginPath : path) : path :=
  componentsDir pluginPath ++ [lit "ExampleFetchComponent"].

Definition componentFilePath (newDir : path) : path :=
  newDir ++ [lit "ExampleComponent.tsx"].

Definition newComponentFilePath (newDir : path) (componentName : jsstring) : path :=
  join newDir (componentName ++ lit ".tsx").

Definition testFilePath (newDir : path) : path :=
  newDir ++ [lit "ExampleComponent.test.tsx"].

Definition newTestFilePath (newDir : path) (componentName : jsstring) : path :=
  join newDir (componentName ++ lit ".test.tsx").

Definition indexPath (newDir : path) : path := newDir ++ [lit "index.ts"].

Definition pluginFilePath (pluginPath : path) : path :=
  pluginPath ++ [lit "src"; lit "plugin.ts"].

Definition devDir (pluginPath : path) : path := pluginPath ++ [lit "dev"].

Definition pluginTestPath (pluginPath : path) : path :=
  pluginPath ++ [lit "src"; lit "plugin.test.ts"].

Definition packageJsonPath (pluginPath : path) : path :=
  pluginPath ++ [lit "package.json"].

(** Step 1: remove ExampleFetchComponent. *)
Definition remove_fetch_component (pluginPath : path) : M unit :=
  console_log [Nl; Txt "📦 Removing junk components..."];;
  remove_tree (exampleFetchDir pluginPath)
    [Txt "  - Removing ExampleFetchComponent/ (mock data junk)"].

(** Step 3: the component file. *)
Definition update_component_file (newDir : path) (componentName : jsstring) : M unit :=
  b ← observe (existsSync (componentFilePath newDir));
  if b : bool then
    c ← attempt (readFileSync (componentFilePath newDir));
    mutate (writeFileSync (newComponentFilePath newDir componentName)
              (content componentName c));;
    mutate (unlinkSync (componentFilePath newDir));;
    console_log [Txt "    ✅ ExampleComponent.tsx → "; Val componentName; Txt ".tsx"]
  else mret tt.

(** Step 4: the test file. *)
Definition update_test_file (newDir : path) (componentName : jsstring) : M unit :=
  b ← observe (existsSync (testFilePath newDir));
  if b : bool then
    c ← attempt (readFileSync (testFilePath newDir));
    mutate (writeFileSync (newTestFilePath newDir componentName)
              (testContent componentName c));;
    mutate (unlinkSync (testFilePath newDir));;
    console_log [Txt "    ✅ ExampleComponent.test.tsx → "; Val componentName;
                 Txt ".test.tsx"]
  else mret tt.

(** Step 5: index.ts. *)
Definition update_index_file (newDir : path) (componentName : jsstring) : M unit :=
  b ← observe (existsSync (indexPath newDir));
  if b : bool then
    c ← attempt (readFileSync (indexPath newDir));
    mutate (writeFileSync (indexPath newDir) (indexContent componentName c));;
    console_log [Txt "    ✅ index.ts updated"]
  else mret tt.

(** Steps 2 to 5: the block guarded by the placeholder directory. *)
Definition rename_component (pluginPath : path) (componentName : jsstring) : M unit :=
  b ← observe (existsSync (exampleComponentDir pluginPath));
  if b : bool then
    let newDir := newComponentDir pluginPath componentName in
    console_log [Txt "  - Renaming ExampleComponent/ → "; Val componentName; Txt "/"];;
    mutate (renameSync (exampleComponentDir pluginPath) newDir);;
    console_log [Txt "  - Updating component file..."];;
    update_component_file newDir componentName;;
    update_test_file newDir componentName;;
    update_index_file newDir componentName
  else mret tt.

(** Step 6: plugin.ts. *)
Definition update_plugin_file (pluginPath : path) (componentName : jsstring) : M unit :=
  console_log [Nl; Txt "🔧 Updating plugin.ts..."];;
  b ← observe (existsSync (pluginFilePath pluginPath));
  if b : bool then
    c ← attempt (readFileSync (pluginFilePath pluginPath));
    mutate (writeFileSync (pluginFilePath pluginPath) (pluginContent componentName c));;
    console_log [Txt "  ✅ Updated imports to use "; Val componentName]
  else mret tt.

(** Step 7: the other junk files. *)
Definition remove_junk_files (pluginPath : path) : M unit :=
  console_log [Nl; Txt "🗑️  Removing other junk files..."];;
  remove_tree (devDir pluginPath) [Txt "  - Removing dev/"];;
  remove_file (pluginTestPath pluginPath) [Txt "  - Removing plugin.test.ts"].

Definition report (componentName : jsstring) : M unit :=
  console_log [Nl; Txt "✨ Cleanup complete!"];;
  console_log [Nl; Txt "📝 What changed:"];;
  console_log [Txt "  - Removed ExampleFetchComponent (300+ lines of mock data)"];;
  console_log [Txt "  - Renamed ExampleComponent → "; Val componentName];;
  console_log [Txt "  - Updated all imports and references"];;
  console_log [Txt "  - Removed dev/ and example tests"];;
  console_log [Nl; Txt "🚀 Next steps:"];;
  console_log [Txt "  1. Update src/plugin.ts to use the New Frontend System"];;
  console_log [Txt "  2. Customize the component in src/components/${componentName}/"];;
  console_log [Txt "  3. Follow the conversion steps in backstage-frontend-plugin/SKILL.md"].

(** The body of the [try]. *)
Definition cleanup (pluginPath : path) (componentName : jsstring) : M unit :=
  remove_fetch_component pluginPath;;
  console_log [Nl; Txt "🔄 Renaming ExampleComponent to match plugin..."];;
  rename_component pluginPath componentName;;
  update_plugin_file pluginPath componentName;;
  remove_junk_files pluginPath;;
  report componentName.

Definition failed : M unit :=
  console_error [Nl; Txt "❌ Cleanup failed:"; ErrMessage];;
  console_error [ErrStack];;
  process_exit 1.

Section CaseTables.

Variable unicode_upper : code_unit -> jsstring.

(** [pluginName] and [componentName] of a plugin id. *)
Definition componentName (pluginId : jsstring) : jsstring :=
  let pluginName := toPascalCase unicode_upper pluginId in
  pluginName ++ lit "Page".

(** Everything before the [try]: the checks of the argument and of the
    manifest, and the component name.  [manifest] is what [JSON.parse]
    makes of the text of package.json ([None]: it throws). *)
Definition validate (argv2 : option path) (manifest : option json)
    : M (path * jsstring) :=
  match argv2 with
  | None =>
      console_error [Txt "❌ Usage: node cleanup-scaffolding.js <plugin-path>"];;
      console_error [Txt "   Example: node cleanup-scaffolding.js ../demo/plugins/my-plugin"];;
      process_exit 1
  | Some pluginPath =>
      console_log [Txt "🧹 Cleaning up scaffolding junk from plugin..."];;
      console_log [Txt "📁 Plugin path: "; ValPath pluginPath];;
      b ← observe (existsSync pluginPath);
      if negb b then
        console_error [Txt "❌ Plugin directory not found: "; ValPath pluginPath];;
        process_exit 1
      else
      b ← observe (existsSync (packageJsonPath pluginPath));
      if negb b then
        console_error [Txt "❌ No package.json found - not a valid plugin directory"];;
        process_exit 1
      else
      _ ← attempt (readFileSync (packageJsonPath pluginPath));
      match manifest with
      | None => throw SyntaxError
      | Some packageJson =>
          match pluginId packageJson with
          | None => throw TypeError
          | Some pluginId =>
              if negb (truthy pluginId) then
                console_error [Txt "❌ No pluginId found in package.json - not a valid Backstage plugin"];;
                process_exit 1
              else
                match pluginId with
                | Some (JStr id) =>
                    let componentName := componentName id in
                    console_log [Txt "🔧 Plugin ID: "; Val id];;
                    console_log [Txt "📝 Component name: "; Val componentName];;
                    mret (pluginPath, componentName)
                | _ => throw TypeError
                end
          end
      end
  end.

(** The script. *)
Definition main (argv2 : option path) (manifest : option json) : M unit :=
  v ← validate argv2 manifest;
  try_catch (cleanup (fst v) (snd v)) (fun _ => failed).

End CaseTables.

End Frontend.

(** ** cleanup-scaffolding-backend.js (backend plugin packages) *)

Module Backend.
Import Js Fs Json Script.

Definition re_service_import : regex :=
  [Lit (lit "import { todoListServiceRef } from "); Cls is_quote;
   Lit (lit "./services/TodoListService"); Cls is_quote; Opt (ch ";"); Opt 10].

Definition re_service_dep : regex :=
  [Star is_space; Lit (lit "todoList: todoListServiceRef"); Opt (ch ","); Opt 10].

Definition re_service_param : regex :=
  [Opt (ch ","); Star is_space; Lit (lit "todoList"); Star is_space; Opt (ch ",")].

Definition re_create_router : regex :=
  [Lit (lit "await createRouter({"); Star is_space; Lit (lit "httpAuth");
   Opt (ch ","); Star is_space; Lit (lit "})")].

(** The text written to router.ts (step 2). *)
Definition simpleRouter : jsstring :=
  lit "import { HttpAuthService } from '@backstage/backend-plugin-api';
import express from 'express';
import Router from 'express-promise-router';

export interface RouterOptions {
  httpAuth: HttpAuthService;
}

export async function createRouter(
  options: RouterOptions,
): Promise<express.Router> {
  const router = Router();
  router.use(express.json());

  // Mark options as used to satisfy TypeScript when no auth is wired yet
  void options;

  router.get('/health', (_req, res) => {
    res.json({ status: 'ok' });
  });

  return router;
}
".

(** The new text of plugin.ts (step 3). *)
Definition pluginContent (c : jsstring) : jsstring :=
  let c := replace_all re_service_import [] c in
  let c := replace_all re_service_dep [] c in
  let c := replace_all re_service_param [] c in
  replace_all re_create_router (lit "await createRouter({ httpAuth })") c.

Definition packageJsonPath (pluginPath : path) : path :=
  pluginPath ++ [lit "package.json"].

Definition servicesDir (pluginPath : path) : path :=
  pluginPath ++ [lit "src"; lit "services"].

Definition routerPath (pluginPath : path) : path :=
  pluginPath ++ [lit "src"; lit "router.ts"].

Definition pluginFilePath (pluginPath : path) : path :=
  pluginPath ++ [lit "src"; lit "plugin.ts"].

Definition pluginTestPath (pluginPath : path) : path :=
  pluginPath ++ [lit "src"; lit "plugin.test.ts"].

Definition routerTestPath (pluginPath : path) : path :=
  pluginPath ++ [lit "src"; lit "router.test.ts"].

Definition devDir (pluginPath : path) : path := pluginPath ++ [lit "dev"].

(** Step 1: the example services directory. *)
Definition remove_services (pluginPath : path) : M unit :=
  console_log [Nl; Txt "📦 Removing example services..."];;
  remove_tree (servicesDir pluginPath)
    [Txt "  - Removing services/ (TodoListService with 150+ lines)"].

(** Step 2: router.ts. *)
Definition simplify_router (pluginPath : path) : M unit :=
  console_log [Nl; Txt "🔧 Simplifying router.ts..."];;
  b ← observe (existsSync (routerPath pluginPath));
  if b : bool then
    mutate (writeFileSync (routerPath pluginPath) simpleRouter);;
    console_log [Txt "  ✅ Replaced with simple /health endpoint"]
  else mret tt.

(** Step 3: plugin.ts. *)
Definition update_plugin_file (pluginPath : path) : M unit :=
  console_log [Nl; Txt "🔧 Updating plugin.ts..."];;
  b ← observe (existsSync (pluginFilePath pluginPath));
  if b : bool then
    c ← attempt (readFileSync (pluginFilePath pluginPath));
    mutate (writeFileSync (pluginFilePath pluginPath) (pluginContent c));;
    console_log [Txt "  ✅ Removed todoList service dependency"]
  else mret tt.

(** Step 4: the example tests. *)
Definition remove_tests (pluginPath : path) : M unit :=
  console_log [Nl; Txt "🗑️  Removing example tests..."];;
  remove_file (pluginTestPath pluginPath) [Txt "  - Removing plugin.test.ts"];;
  remove_file (routerTestPath pluginPath) [Txt "  - Removing router.test.ts"].

(** Step 5: the dev directory. *)
Definition remove_dev (pluginPath : path) : M unit :=
  remove_tree (devDir pluginPath) [Txt "  - Removing dev/"].

Definition report (pluginId : value) : M unit :=
  console_log [Nl; Txt "✨ Cleanup complete!"];;
  console_log [Nl; Txt "📝 What changed:"];;
  console_log [Txt "  - Removed services/TodoListService.ts (150+ lines of example code)"];;
  console_log [Txt "  - Simplified router.ts to just /health endpoint"];;
  console_log [Txt "  - Removed todoList service from plugin.ts"];;
  console_log [Txt "  - Removed example tests (plugin.test.ts, router.test.ts)"];;
  console_log [Txt "  - Removed dev/ directory"];;
  console_log [Nl; Txt "🚀 Next steps:"];;
  console_log [Txt "  1. Add your own routes in src/router.ts"];;
  console_log [Txt "  2. Create services if needed in src/services/"];;
  console_log [Txt "  3. Follow backstage-backend-plugin/SKILL.md for best practices"];;
  console_log [Nl; Txt "📍 Test with: curl http://localhost:7007/api/"; ValValue pluginId;
               Txt "/health"].

(** The body of the [try]. *)
Definition cleanup (pluginPath : path) (pluginId : value) : M unit :=
  remove_services pluginPath;;
  simplify_router pluginPath;;
  update_plugin_file pluginPath;;
  remove_tests pluginPath;;
  remove_dev pluginPath;;
  report pluginId.

Definition failed : M unit :=
  console_error [Nl; Txt "❌ Cleanup failed:"; ErrMessage];;
  console_error [ErrStack];;
  process_exit 1.

(** Everything before the [try].  The line that prints the plugin id
    puts it into a template literal, which throws a TypeError for a value
    that cannot be printed. *)
Definition validate (argv2 : option path) (manifest : option json)
    : M (path * value) :=
  match argv2 with
  | None =>
      console_error [Txt "❌ Usage: node cleanup-scaffolding-backend.js <plugin-path>"];;
      console_error [Txt "   Example: node cleanup-scaffolding-backend.js ../demo/plugins/my-backend-backend"];;
      process_exit 1
  | Some pluginPath =>
      console_log [Txt "🧹 Cleaning up backend scaffolding junk..."];;
      console_log [Txt "📁 Plugin path: "; ValPath pluginPath];;
      b ← observe (existsSync pluginPath);
      if negb b then
        console_error [Txt "❌ Plugin directory not found: "; ValPath pluginPath];;
        process_exit 1
      else
      b ← observe (existsSync (packageJsonPath pluginPath));
      if negb b then
        console_error [Txt "❌ No package.json found - not a valid plugin directory"];;
        process_exit 1
      else
      _ ← attempt (readFileSync (packageJsonPath pluginPath));
      match manifest with
      | None => throw SyntaxError
      | Some packageJson =>
          match pluginId packageJson with
          | None => throw TypeError
          | Some pluginId =>
              if negb (truthy pluginId) then
                console_error [Txt "❌ No pluginId found in package.json - not a valid Backstage plugin"];;
                process_exit 1
              else if negb (printable_value pluginId) then throw TypeError
              else
                console_log [Txt "🔧 Plugin ID: "; ValValue pluginId];;
                mret (pluginPath, pluginId)
          end
      end
  end.

(** The script. *)
Definition main (argv2 : option path) (manifest : option json) : M unit :=
  v ← validate argv2 manifest;
  try_catch (cleanup (fst v) (snd v)) (fun _ => failed).

End Backend.

(** ** The package after a run *)

Section CleanPackage.
Import Js Fs Json Script.

(** The disk a successful run of the frontend script leaves: the junk and
    the placeholder directory are gone, plugin.ts is a file or absent. *)
Definition frontend_clean (pluginPath : path) (d : node) : Prop :=
  absent (Frontend.exampleFetchDir pluginPath) d
  /\ absent (Frontend.exampleComponentDir pluginPath) d
  /\ absent (Frontend.devDir pluginPath) d
  /\ absent (Frontend.pluginTestPath pluginPath) d
  /\ (absent (Frontend.pluginFilePath pluginPath) d
      \/ exists c, is_file (Frontend.pluginFilePath pluginPath) c d).

(** The disk a successful run of the backend script leaves. *)
Definition backend_clean (pluginPath : path) (d : node) : Prop :=
  absent (Backend.servicesDir pluginPath) d
  /\ absent (Backend.pluginTestPath pluginPath) d
  /\ absent (Backend.routerTestPath pluginPath) d
  /\ absent (Backend.devDir pluginPath) d
  /\ (absent (Backend.routerPath pluginPath) d
      \/ is_file (Backend.routerPath pluginPath) Backend.simpleRouter d)
  /\ (absent (Backend.pluginFilePath pluginPath) d
      \/ exists c, is_file (Backend.pluginFilePath pluginPath) c d).

End CleanPackage.

(** ** Sample packages

    Two packages as the scaffolder leaves them, cut down to the lines the
    scripts look at, and some variants of them.  They are the inputs of
    the examples. *)

Module Sample.
Import Js Fs Json Script.
Local Open Scope string_scope.

Definition folder (entries : list (string * node)) : node :=
  Dir (list_to_map (List.map (fun e => (lit (fst e), snd e)) entries)).

Definition text (s : string) : node := File (lit s).

(** The case table of a text of ASCII letters: no other letter occurs. *)
Definition ascii_only (c : code_unit) : jsstring := [c].

(** The package directory given on the command line. *)
Definition root : path := [lit "plugins"; lit "demo"].

(** A manifest as [JSON.parse] returns it. *)
Definition manifest (id : string) : option json :=
  Some (JObj [(lit "name", JStr (lit "demo"));
              (lit "backstage", JObj [(lit "role", JStr (lit "plugin"));
                                      (lit "pluginId", JStr (lit id))])]).

(** A manifest that has no plugin id. *)
Definition manifest_without_id : option json :=
  Some (JObj [(lit "name", JStr (lit "demo"));
              (lit "backstage", JObj [(lit "role", JStr (lit "plugin"))])]).

(** The two scripts, called on the package directory. *)
Definition frontend_script (id : string) : M unit :=
  Frontend.main ascii_only (Some root) (manifest id).

Definition backend_script (id : string) : M unit :=
  Backend.main (Some root) (manifest id).

Definition in_root (package : node) : node :=
  folder [("plugins", folder [("demo", package)])].

Definition component_text : string :=
  "import { ExampleFetchComponent } from '../ExampleFetchComponent';
export const ExampleComponent = () => (
  <Grid container>
    <Grid item>
      <ExampleFetchComponent />
    </Grid>
  </Grid>
);
".

Definition test_text : string :=
  "import { ExampleComponent } from './ExampleComponent';
describe('ExampleComponent', () => { render(<ExampleComponent />); });
".

Definition index_text : string :=
  "export { ExampleComponent } from './ExampleComponent';
".

Definition plugin_text : string :=
  "export const DemoPage = demoPlugin.provide(createRoutableExtension({
  component: () => import('./components/ExampleComponent').then(m => m.ExampleComponent),
}));
".

(** A frontend package: the placeholder directory holds [unit], and [src]
    holds [entries] besides plugin.ts and the components. *)
Definition frontend_with (unit entries : list (string * node)) : node :=
  in_root (folder
    [("package.json", text "{ name: demo }");
     ("dev", folder [("index.tsx", text "createDevApp().render();")]);
     ("src", folder
        ([("plugin.ts", text plugin_text);
          ("components", folder
             [("ExampleComponent", folder unit);
              ("ExampleFetchComponent", folder
                 [("ExampleFetchComponent.tsx",
                   text "export const ExampleFetchComponent = () => <Table />;");
                  ("index.ts",
                   text "export { ExampleFetchComponent } from './ExampleFetchComponent';")])])]
         ++ entries))]).

Definition placeholder_unit : list (string * node) :=
  [("ExampleComponent.tsx", text component_text);
   ("ExampleComponent.test.tsx", text test_text);
   ("index.ts", text index_text)].

(** As scaffolded. *)
Definition frontend : node :=
  frontend_with placeholder_unit
    [("index.ts", text "export { demoPlugin, DemoPage } from './plugin';");
     ("plugin.test.ts", text "describe('demo', () => {});")].

(** With a note on the placeholder in a file of [src]. *)
Definition frontend_noted : node :=
  frontend_with placeholder_unit
    [("index.ts", text "// DemoPage renders the ExampleComponent");
     ("plugin.test.ts", text "describe('demo', () => {});")].

(** With a directory where the scaffolder puts the plugin test. *)
Definition frontend_test_dir : node :=
  frontend_with placeholder_unit [("plugin.test.ts", folder [])].

(** Without the component file in the placeholder directory. *)
Definition frontend_no_component_file : node :=
  frontend_with
    [("ExampleComponent.test.tsx", text test_text);
     ("index.ts", text index_text)]
    [].

(** A package directory without manifest. *)
Definition no_manifest : node :=
  in_root (folder [("src", folder [("plugin.ts", text plugin_text)])]).

Definition router_text : string :=
  "export async function createRouter({ httpAuth, todoList }) {}".

Definition backend_plugin_text : string :=
  "import { createRouter } from './router';
import { todoListServiceRef } from './services/TodoListService';
export const demoPlugin = createBackendPlugin({
  register(env) {
    env.registerInit({
      deps: {
        httpAuth: coreServices.httpAuth,
        todoList: todoListServiceRef,
      },
      async init({ httpAuth, todoList }) {
        httpRouter.use(
          await createRouter({
            httpAuth,
            todoList,
          }),
        );
      },
    });
  },
});
".

(** The backend package as scaffolded. *)
Definition backend : node :=
  in_root (folder
    [("package.json", text "{ name: demo-backend }");
     ("dev", folder [("index.ts", text "backend.start();")]);
     ("src", folder
        [("index.ts", text "export { demoPlugin as default } from './plugin';");
         ("plugin.ts", text backend_plugin_text);
         ("plugin.test.ts", text "describe('plugin', () => {});");
         ("router.ts", text router_text);
         ("router.test.ts", text "describe('createRouter', () => {});");
         ("services", folder
            [("TodoListService", folder
                [("index.ts",
                  text "export { todoListServiceRef } from './createTodoListService';")])])])]).

(** A package after a clean-up: none of the removal targets is left. *)
Definition cleaned : node :=
  in_root (folder
    [("package.json", text "{ name: demo }");
     ("src", folder [("index.ts", text "export { demoPlugin } from './plugin';")])]).

(** The frontend package with the directory of the component name
    my-service already there, and not empty. *)
Definition frontend_taken : node :=
  in_root (folder
    [("package.json", text "{ name: demo }");
     ("dev", folder [("index.tsx", text "createDevApp().render();")]);
     ("src", folder
        [("plugin.ts", text plugin_text);
         ("components", folder
            [("ExampleComponent", folder placeholder_unit);
             ("ExampleFetchComponent", folder
                [("index.ts",
                  text "export { ExampleFetchComponent } from './ExampleFetchComponent';")]);
             ("MyServicePage", folder
                [("index.ts", text "export { MyServicePage } from './MyServicePage';")])])])]).

(** A backend package whose [src] holds [entries]. *)
Definition backend_with (entries : list (string * node)) : node :=
  in_root (folder
    [("package.json", text "{ name: demo-backend }");
     ("README.md", text "# demo-backend");
     ("src", folder entries)]).

(** With a directory in the place of router.ts. *)
Definition backend_router_dir : node :=
  backend_with [("plugin.ts", text backend_plugin_text);
                ("router.ts", folder [("index.ts", text router_text)])].

End Sample.

(** ** What a computation prints *)

Section Output.
Import Script.

(** [prints P m]: whatever the machine, [m] only adds lines, and every
    line it adds satisfies [P]. *)
Definition prints {A} (P : line -> Prop) (m : M A) : Prop :=
  forall w, exists new, out (snd (m w)) = out w ++ new /\ Forall P new.

Definition on_stdout (l : line) : Prop := fst l = Stdout.
Definition on_stderr (l : line) : Prop := fst l = Stderr.

End Output.

(** ** What lies at a path *)

Section Shapes.
Import Fs Script.

Definition is_dir (q : path) (d : node) : Prop :=
  exists m, node_at q d = Some (Dir m).


End Shapes.

(** * Properties *)

Import Js Fs Json Script.

(** ** Strings *)

Section PascalCase.

Variable unicode_upper : code_unit -> jsstring.

Lemma split_nonempty sep s : split sep s <> [].
Proof.
  destruct s as [|c s]; simpl; [discriminate|].
  destruct (c =? sep); [discriminate|].
  destruct (split sep s); discriminate.
Qed.

(** Going through a segment that has already started leaves its first code
    unit alone and capitalises the segments after it. *)
Lemma pascal_scan_split s :
  match split (ch "-") s with
  | w :: ws =>
      pascal_scan unicode_upper true s
      = join_empty (List.map (capitalize unicode_upper) (w :: ws))
      /\ pascal_scan unicode_upper false s
         = w ++ join_empty (List.map (capitalize unicode_upper) ws)
  | [] => False
  end.
Proof.
  change (ch "-") with 45.
  induction s as [|c s IH]; cbn [split pascal_scan].
  - split; reflexivity.
  - change (ch "-") with 45.
    destruct (split 45 s) as [|w ws] eqn:Es; [contradiction|].
    destruct IH as [IH1 IH2].
    destruct (c =? 45) eqn:E.
    + split; exact IH1.
    + unfold join_empty in *. cbn [List.map concat capitalize].
      rewrite IH2. split; [|reflexivity].
      now rewrite <- app_assoc.
Qed.

Lemma toPascalCase_scan s :
  toPascalCase unicode_upper s = pascal_scan unicode_upper true s.
Proof.
  unfold toPascalCase. pose proof (pascal_scan_split s) as H.
  destruct (split (ch "-") s); [contradiction|]. symmetry. apply H.
Qed.

(** C4: the component name is a function of the plugin id alone: the id
    without its separators, each segment starting in upper case, followed
    by Page; my-service gives MyServicePage and data-ingest gives
    DataIngestPage. *)
Theorem component_name_derivation :
  (forall pluginId,
      Frontend.componentName unicode_upper pluginId
      = pascal_scan unicode_upper true pluginId ++ lit "Page")
  /\ Frontend.componentName unicode_upper (lit "my-service") = lit "MyServicePage"
  /\ Frontend.componentName unicode_upper (lit "data-ingest") = lit "DataIngestPage".
Proof.
  split; [|split; reflexivity].
  intros pluginId. unfold Frontend.componentName.
  now rewrite toPascalCase_scan.
Qed.

End PascalCase.

(** ** Matching and replacing *)

Lemma strip_app p rest : strip p (p ++ rest) = Some rest.
Proof.
  induction p as [|c p IH]; simpl; [reflexivity|].
  now rewrite N.eqb_refl.
Qed.

Lemma strip_Some p s rest : strip p s = Some rest -> s = p ++ rest.
Proof.
  revert s. induction p as [|c p IH]; intros s H; simpl in *.
  - now inversion H.
  - destruct s as [|x s]; [discriminate|].
    destruct (x =? c) eqn:E; [|discriminate].
    apply N.eqb_eq in E. subst x. f_equal. now apply IH.
Qed.

Lemma starts_with_app p rest : starts_with p (p ++ rest) = true.
Proof. unfold starts_with. now rewrite strip_app. Qed.

Lemma starts_with_true p s : starts_with p s = true -> exists rest, s = p ++ rest.
Proof.
  unfold starts_with. destruct (strip p s) as [rest|] eqn:E; [|discriminate].
  intros _. exists rest. now apply strip_Some.
Qed.

Lemma starts_with_false p s rest : starts_with p s = false -> s <> p ++ rest.
Proof.
  intros H ->. now rewrite starts_with_app in H.
Qed.

Lemma exec_lit p s : exec [Lit p] s = strip p s.
Proof. simpl. now destruct (strip p s). Qed.

(** What the matcher returns is an end of its input. *)
Lemma exec_suffix re : forall s rest,
  exec re s = Some rest -> exists m, s = m ++ rest.
Proof.
  induction re as [|a re IH]; intros s rest H.
  - simpl in H. inversion H. now exists [].
  - destruct a as [l|p|p|c].
    + simpl in H. destruct (strip l s) as [s1|] eqn:E; [|discriminate].
      apply strip_Some in E. apply IH in H as [m ->].
      exists (l ++ m). now rewrite E, app_assoc.
    + simpl in H. destruct s as [|x s]; [discriminate|].
      destruct (p x); [|discriminate].
      apply IH in H as [m ->]. now exists (x :: m).
    + cbn [exec] in H. revert H. induction s as [|x s IHs]; intros H.
      * now apply IH.
      * cbn [star] in H. destruct (p x); [|now apply IH].
        destruct (star p (exec re) s) as [r|] eqn:E; [|now apply IH].
        inversion H; subst r. destruct (IHs eq_refl) as [m ->].
        now exists (x :: m).
    + simpl in H. destruct s as [|x s]; [now apply IH|].
      destruct (x =? c); [|now apply IH].
      destruct (exec re s) as [r|] eqn:E; [|now apply IH].
      inversion H; subst r. apply IH in E as [m ->]. now exists (x :: m).
Qed.

Lemma exec_length re s rest :
  exec re s = Some rest ->
  (length rest <= length s)%nat
  /\ drop (length s - length rest) s = rest
  /\ s = take (length s - length rest) s ++ rest.
Proof.
  intros H. apply exec_suffix in H as [m ->].
  rewrite length_app.
  replace (length m + length rest - length rest)%nat with (length m) by lia.
  rewrite drop_app_length, take_app_length.
  split; [lia|]. split; reflexivity.
Qed.

Lemma expand_plain r m b a : no_dollar r = true -> expand r m b a = r.
Proof.
  unfold no_dollar. induction r as [|c r IH]; simpl; [reflexivity|].
  intros H. apply andb_true_iff in H as [Hc Hr].
  destruct (c =? 36); [discriminate|]. now rewrite IH.
Qed.

Lemma no_dollar_app r1 r2 :
  no_dollar (r1 ++ r2) = no_dollar r1 && no_dollar r2.
Proof. unfold no_dollar. apply forallb_app. Qed.

(** Without dollar in the replacement the text passed so far plays no role. *)
Lemma scan_before re r b b' k s :
  no_dollar r = true -> scan re r b k s = scan re r b' k s.
Proof.
  intros Hr. revert b b' k.
  induction s as [|c s IH]; intros b b' k; simpl.
  - destruct k; [|reflexivity]. destruct (exec re []); [|reflexivity].
    now rewrite !expand_plain.
  - destruct k as [|k]; [|apply IH].
    destruct (exec re (c :: s)) as [rest|].
    + rewrite !expand_plain by assumption. f_equal.
      cbn [length].
      destruct (S (length s) - length rest)%nat; [f_equal|]; apply IH.
    + f_equal. apply IH.
Qed.

Lemma scan_skip re r b k s :
  no_dollar r = true -> (k <= length s)%nat ->
  scan re r b k s = scan re r [] 0 (drop k s).
Proof.
  intros Hr. revert b k. induction s as [|c s IH]; intros b k Hk.
  - simpl in Hk. assert (k = 0%nat) as -> by lia. now apply scan_before.
  - destruct k as [|k]; [now apply scan_before|].
    simpl. apply IH. simpl in Hk. lia.
Qed.

(** The three equations of a global replacement whose pattern matches no
    empty text. *)
Lemma replace_all_nil re r :
  exec re [] = None -> replace_all re r [] = [].
Proof. unfold replace_all. simpl. now intros ->. Qed.

Lemma replace_all_miss re r c s :
  no_dollar r = true -> exec re (c :: s) = None ->
  replace_all re r (c :: s) = c :: replace_all re r s.
Proof.
  intros Hr H. unfold replace_all. simpl. rewrite H. f_equal.
  now apply scan_before.
Qed.

Lemma replace_all_hit re r s rest :
  no_dollar r = true -> exec re s = Some rest ->
  (length rest < length s)%nat ->
  replace_all re r s = r ++ replace_all re r rest.
Proof.
  intros Hr H Hlt. unfold replace_all.
  destruct (exec_length _ _ _ H) as (Hle & Hdrop & _).
  destruct s as [|c s]; [simpl in Hlt; lia|].
  cbn [scan]. rewrite H. rewrite expand_plain by assumption. f_equal.
  destruct (length (c :: s) - length rest)%nat as [|k] eqn:En; [lia|].
  rewrite scan_skip; [|assumption|simpl in *; lia].
  simpl in Hdrop. now rewrite Hdrop.
Qed.

(** *** Occurrences *)

Lemma starts_with_prefix p s : starts_with p s = true <-> p `prefix_of` s.
Proof.
  split.
  - intros H. apply starts_with_true in H as [rest ->]. now exists rest.
  - intros [rest ->]. apply starts_with_app.
Qed.

Lemma starts_with_not_prefix p s : starts_with p s = false <-> ~ p `prefix_of` s.
Proof.
  rewrite <- starts_with_prefix. destruct (starts_with p s); split; congruence.
Qed.

Lemma occurs_unfold p s :
  occurs p s = starts_with p s || match s with [] => false | _ :: s' => occurs p s' end.
Proof.
  unfold starts_with. destruct s; simpl; destruct (strip p _); reflexivity.
Qed.

Lemma occurs_app_r p a s : occurs p s = true -> occurs p (a ++ s) = true.
Proof.
  intros H. induction a as [|c a IH]; [assumption|].
  simpl app. rewrite occurs_unfold, IH. apply orb_true_r.
Qed.

Lemma occurs_here p a b : occurs p (a ++ p ++ b) = true.
Proof.
  apply occurs_app_r. rewrite occurs_unfold, starts_with_app. reflexivity.
Qed.

Lemma occurs_true p s : occurs p s = true -> exists a b, s = a ++ p ++ b.
Proof.
  induction s as [|c s IH]; rewrite occurs_unfold; intros H.
  - rewrite orb_false_r in H. apply starts_with_true in H as [b ->].
    now exists [], b.
  - apply orb_true_iff in H as [H|H].
    + apply starts_with_true in H as [b ->]. now exists [], b.
    + destruct (IH H) as (a & b & ->). now exists (c :: a), b.
Qed.

(** No occurrence: none begins at any position. *)
Lemma occurs_false p s :
  (forall i, (i <= length s)%nat -> ~ p `prefix_of` drop i s) ->
  occurs p s = false.
Proof.
  induction s as [|c s IH]; intros H; rewrite occurs_unfold.
  - rewrite orb_false_r. apply starts_with_not_prefix.
    apply (H 0%nat). simpl. lia.
  - apply orb_false_iff. split.
    + apply starts_with_not_prefix. apply (H 0%nat). simpl. lia.
    + apply IH. intros i Hi. apply (H (S i)). simpl. lia.
Qed.

Lemma clash_free_inside p r j :
  clash_free p r = true -> (j < length r)%nat ->
  ~ p `prefix_of` drop j r /\ ~ drop j r `prefix_of` p.
Proof.
  unfold clash_free. intros H Hj. apply andb_true_iff in H as [H _].
  rewrite forallb_forall in H. specialize (H j).
  rewrite negb_true_iff in H. unfold compatible in H.
  assert (In j (seq 0 (length r))) as Hin by (apply in_seq; lia).
  apply H in Hin. apply orb_false_iff in Hin as [H1 H2].
  now rewrite starts_with_not_prefix in H1, H2.
Qed.

Lemma clash_free_across p r j :
  clash_free p r = true -> (1 <= j < length p)%nat ->
  ~ r `prefix_of` drop j p /\ ~ drop j p `prefix_of` r.
Proof.
  unfold clash_free. intros H Hj. apply andb_true_iff in H as [_ H].
  rewrite forallb_forall in H. specialize (H j).
  rewrite negb_true_iff in H. unfold compatible in H.
  assert (In j (seq 1 (length p - 1))) as Hin by (apply in_seq; lia).
  apply H in Hin. apply orb_false_iff in Hin as [H1 H2].
  now rewrite starts_with_not_prefix in H1, H2.
Qed.

Section LiteralReplace.

Variables p r : jsstring.
Hypothesis p_nonempty : p <> [].
Hypothesis r_plain : no_dollar r = true.

Lemma replace_lit_nil : replace_all [Lit p] r [] = [].
Proof.
  apply replace_all_nil. rewrite exec_lit.
  destruct p; [contradiction|reflexivity].
Qed.

Lemma replace_lit_miss c s :
  ~ p `prefix_of` (c :: s) ->
  replace_all [Lit p] r (c :: s) = c :: replace_all [Lit p] r s.
Proof.
  intros H. apply replace_all_miss; [assumption|].
  rewrite exec_lit. apply starts_with_not_prefix in H.
  unfold starts_with in H. now destruct (strip p (c :: s)).
Qed.

Lemma replace_lit_hit rest :
  replace_all [Lit p] r (p ++ rest) = r ++ replace_all [Lit p] r rest.
Proof.
  apply replace_all_hit; [assumption|now rewrite exec_lit, strip_app|].
  rewrite length_app. destruct p; [contradiction|simpl; lia].
Qed.

(** Where the pattern occurs, the replacement occurs afterwards. *)
Lemma replace_lit_occurs s :
  occurs p s = true -> occurs r (replace_all [Lit p] r s) = true.
Proof.
  induction s as [|c s IH]; rewrite occurs_unfold; intros H.
  - rewrite orb_false_r in H. apply starts_with_true in H as [b Hb].
    destruct p; [contradiction|discriminate].
  - destruct (starts_with p (c :: s)) eqn:E.
    + apply starts_with_true in E as [rest ->].
      rewrite replace_lit_hit. apply (occurs_here r [] _).
    + simpl in H. apply starts_with_not_prefix in E.
      rewrite replace_lit_miss by assumption.
      rewrite occurs_unfold, (IH H). apply orb_true_r.
Qed.

(** No occurrence of the pattern begins in [a] when [a] is followed by the
    pattern: none lies in [a] followed by all of the pattern but its last
    code unit. *)
Lemma first_occurrence_miss c a w :
  occurs p ((c :: a) ++ removelast p) = false ->
  ~ p `prefix_of` (c :: a) ++ p ++ w.
Proof.
  intros Ho Hp. rewrite occurs_unfold in Ho.
  apply orb_false_iff in Ho as [Ho _].
  apply starts_with_not_prefix in Ho. apply Ho.
  assert (removelast p = take (length p - 1) p) as Hrl.
  { rewrite removelast_firstn_len. f_equal. lia. }
  assert (length p <> 0)%nat as Hlen.
  { pose proof p_nonempty. destruct p; [contradiction|discriminate]. }
  assert (((c :: a) ++ removelast p) `prefix_of` (c :: a) ++ p ++ w) as Hx.
  { apply prefix_app. exists (drop (length p - 1) p ++ w).
    rewrite app_assoc, Hrl. now rewrite take_drop. }
  destruct (prefix_weak_total _ _ _ Hp Hx) as [H|H]; [exact H|].
  destruct H as [k Hk]. pose proof (f_equal (@length _) Hk) as Hl.
  rewrite !length_app, Hrl, length_take in Hl. cbn [length] in Hl.
  assert (k = []) as -> by (destruct k; [reflexivity|cbn in Hl; lia]).
  exists []. rewrite app_nil_r in *. now symmetry.
Qed.

(** The first occurrence of the pattern, at whatever offset, is replaced,
    whatever stands before and after it, and the rule goes on behind it. *)
Lemma replace_lit_first a w :
  occurs p (a ++ removelast p) = false ->
  replace_all [Lit p] r (a ++ p ++ w) = a ++ r ++ replace_all [Lit p] r w.
Proof.
  induction a as [|c a IH]; intros Ho.
  - apply replace_lit_hit.
  - cbn [app]. rewrite replace_lit_miss.
    + f_equal. apply IH. rewrite occurs_unfold in Ho.
      now apply orb_false_iff in Ho as [_ Ho].
    + now apply (first_occurrence_miss c a w).
Qed.

Hypothesis no_clash : clash_free p r = true.

(** [a] is text already produced, [s] the text still to go through: no
    occurrence of the pattern begins in [a]. *)
Lemma replace_lit_clean_from n : forall s a,
  (length s <= n)%nat ->
  (forall i, (i < length a)%nat -> ~ p `prefix_of` drop i (a ++ s)) ->
  occurs p (a ++ replace_all [Lit p] r s) = false.
Proof.
  induction n as [|n IH]; intros s a Hn Ha.
  - destruct s; [|simpl in Hn; lia].
    rewrite replace_lit_nil. apply occurs_false. intros i Hi.
    rewrite app_nil_r in *. destruct (decide (i = length a)) as [->|Hne].
    + rewrite drop_all. intros [k Hk]. destruct p; [contradiction|discriminate].
    + apply Ha. lia.
  - destruct s as [|c s].
    { apply (IH [] a); [simpl; lia|assumption]. }
    destruct (starts_with p (c :: s)) eqn:E.
    + apply starts_with_true in E as [rest E]. rewrite E.
      rewrite replace_lit_hit, app_assoc.
      assert (length rest < length (c :: s))%nat as Hlen.
      { rewrite E, length_app. destruct p; [contradiction|simpl; lia]. }
      apply IH; [simpl in *; lia|].
      intros i Hi. rewrite length_app in Hi. rewrite <- app_assoc.
      destruct (decide (i < length a)%nat) as [Hlt|Hge].
      * (* the occurrence would begin in [a] and reach the replacement *)
        rewrite drop_app_le by lia. intros Hp.
        assert (drop i a `prefix_of` drop i a ++ r ++ rest) as Hx
          by apply prefix_app_r, reflexivity.
        destruct (prefix_weak_total _ _ _ Hp Hx) as [H1|H1].
        -- apply (Ha i Hlt). rewrite E, drop_app_le by lia.
           now apply prefix_app_r.
        -- destruct H1 as [p' Hp'].
           assert (length (drop i a) = (length a - i)%nat) as Hd
             by apply length_drop.
           destruct p' as [|y p'].
           ++ rewrite app_nil_r in Hp'. apply (Ha i Hlt).
              rewrite E, drop_app_le by lia. rewrite <- Hp'.
              now apply prefix_app_r.
           ++ assert (drop (length a - i) p = y :: p') as Hdrop.
              { rewrite Hp' at 1. now rewrite <- Hd, drop_app_length. }
              assert (length p = length (drop i a) + S (length p'))%nat as Hlp.
              { rewrite Hp' at 1. now rewrite length_app. }
              rewrite Hp' in Hp. apply prefix_app_inv in Hp.
              rewrite <- Hdrop in Hp.
              assert (r `prefix_of` r ++ rest) as Hr
                by apply prefix_app_r, reflexivity.
              destruct (clash_free_across p r (length a - i) no_clash
                          ltac:(lia)) as [N1 N2].
              destruct (prefix_weak_total _ _ _ Hp Hr) as [H2|H2]; tauto.
      * (* the occurrence would begin in the replacement *)
        rewrite drop_app_ge by lia. rewrite drop_app_le by lia.
        intros Hp.
        assert (drop (i - length a) r `prefix_of` drop (i - length a) r ++ rest)
          as Hx by apply prefix_app_r, reflexivity.
        destruct (clash_free_inside p r (i - length a) no_clash
                    ltac:(lia)) as [N1 N2].
        destruct (prefix_weak_total _ _ _ Hp Hx) as [H1|H1]; tauto.
    + apply starts_with_not_prefix in E.
      rewrite replace_lit_miss by assumption.
      replace (a ++ c :: replace_all [Lit p] r s)
        with ((a ++ [c]) ++ replace_all [Lit p] r s)
        by now rewrite <- app_assoc.
      apply IH; [simpl in Hn; lia|].
      intros i Hi. rewrite length_app in Hi. simpl in Hi.
      rewrite <- app_assoc. simpl app.
      destruct (decide (i = length a)) as [->|Hne].
      * now rewrite drop_app_length.
      * apply Ha. lia.
Qed.

(** After the replacement the pattern occurs nowhere. *)
Lemma replace_lit_clean s : occurs p (replace_all [Lit p] r s) = false.
Proof.
  apply (replace_lit_clean_from (length s) s []); [lia|].
  simpl. intros i Hi. lia.
Qed.

End LiteralReplace.

(** ** The substitution rules of the frontend script *)

Lemma no_dollar_from cn :
  no_dollar cn = true -> no_dollar (lit "from './" ++ cn ++ lit "'") = true.
Proof. intros H. now rewrite !no_dollar_app, H. Qed.

(** A rule whose pattern cannot begin with the code units of [l] leaves
    [l] in front of a text as it is. *)
Lemma replace_all_head re r l w :
  no_dollar r = true ->
  (forall x s, In x l -> exec re (x :: s) = None) ->
  replace_all re r (l ++ w) = l ++ replace_all re r w.
Proof.
  intros Hr. induction l as [|x l IH]; intros Hre; [reflexivity|].
  simpl app. rewrite replace_all_miss; [|assumption|].
  - f_equal. apply IH. intros y s Hy. apply Hre. now right.
  - apply Hre. now left.
Qed.

(** The pattern of the import rule begins with the f of from. *)
Lemma re_from_needs_f x s :
  x <> ch "f" -> exec Frontend.re_from (x :: s) = None.
Proof.
  intros H. unfold Frontend.re_from. cbn [exec].
  change (lit "from ") with (ch "f" :: lit "rom "). cbn [strip].
  destruct (x =? ch "f") eqn:E; [|reflexivity].
  apply N.eqb_eq in E. contradiction.
Qed.

Lemma placeholder_nonempty : lit "ExampleComponent" <> [].
Proof. discriminate. Qed.

Lemma rename_rule_first cn a w :
  no_dollar cn = true ->
  ~ In (ch "f") a ->
  occurs (lit "ExampleComponent") (a ++ removelast (lit "ExampleComponent")) = false ->
  replace_all Frontend.re_placeholder cn
    (replace_all Frontend.re_from (lit "from './" ++ cn ++ lit "'")
       (a ++ lit "ExampleComponent" ++ w))
  = a ++ cn ++ replace_all Frontend.re_placeholder cn
                 (replace_all Frontend.re_from (lit "from './" ++ cn ++ lit "'") w).
Proof.
  intros Hcn Hf Ho.
  rewrite (app_assoc a), (replace_all_head _ _ (a ++ lit "ExampleComponent") w);
    [|now apply no_dollar_from|].
  - rewrite <- app_assoc. unfold Frontend.re_placeholder.
    now apply replace_lit_first; [apply placeholder_nonempty| |].
  - intros x s Hx. apply re_from_needs_f. intros ->.
    apply in_app_iff in Hx as [Hx|Hx]; [now apply Hf|].
    vm_compute in Hx. repeat (destruct Hx as [Hx|Hx]; [discriminate Hx|]).
    contradiction.
Qed.

Lemma rename_rules_clean cn s :
  no_dollar cn = true -> clash_free (lit "ExampleComponent") cn = true ->
  occurs (lit "ExampleComponent") (Frontend.testContent cn s) = false
  /\ occurs (lit "ExampleComponent") (Frontend.indexContent cn s) = false.
Proof.
  intros Hd Hc. unfold Frontend.testContent, Frontend.indexContent,
    Frontend.re_placeholder.
  split; apply replace_lit_clean; auto using placeholder_nonempty.
Qed.

(** C5, as the code has it.  The rule [replace(/ExampleComponent/g,
    componentName)] of the test file and of index.ts has no word boundary.
    For a component name without dollar sign: the first occurrence of the
    placeholder name, at whatever offset, is replaced whatever stands
    before and after it, and the rule goes on in the same way behind it,
    so that every occurrence from left to right is replaced, also inside
    a longer identifier; the two rules of each file together do the same
    when no f stands before the occurrence (the import rule, which goes
    first, begins at the f of from); and for a component name that shares
    no text with the placeholder name no occurrence is left at all. *)
Theorem placeholder_replaced_inside_identifiers cn :
  no_dollar cn = true ->
  let placeholder := lit "ExampleComponent" in
  (forall a w,
     occurs placeholder (a ++ removelast placeholder) = false ->
     replace_all Frontend.re_placeholder cn (a ++ placeholder ++ w)
     = a ++ cn ++ replace_all Frontend.re_placeholder cn w)
  /\ (forall a w,
        ~ In (ch "f") a ->
        occurs placeholder (a ++ removelast placeholder) = false ->
        Frontend.testContent cn (a ++ placeholder ++ w)
        = a ++ cn ++ Frontend.testContent cn w
        /\ Frontend.indexContent cn (a ++ placeholder ++ w)
           = a ++ cn ++ Frontend.indexContent cn w)
  /\ (clash_free placeholder cn = true ->
      forall s,
        occurs placeholder (Frontend.testContent cn s) = false
        /\ occurs placeholder (Frontend.indexContent cn s) = false).
Proof.
  intros Hcn placeholder. split; [|split].
  - intros a w Ho. unfold Frontend.re_placeholder.
    now apply replace_lit_first; [apply placeholder_nonempty| |].
  - intros a w Hf Ho. unfold Frontend.testContent, Frontend.indexContent.
    split; now apply rename_rule_first.
  - intros Hc s. now apply rename_rules_clean.
Qed.

(** The theorem on the text [render(<ExampleComponentWrapper />);]. *)
Lemma placeholder_replaced_inside_identifiers_witness :
  let cn := lit "MyServicePage" in
  let a := lit "render(<" in
  let w := lit "Wrapper />);" in
  no_dollar cn = true
  /\ Frontend.testContent cn (a ++ lit "ExampleComponent" ++ w)
     = a ++ cn ++ Frontend.testContent cn w
  /\ Frontend.indexContent cn (a ++ lit "ExampleComponent" ++ w)
     = a ++ cn ++ Frontend.indexContent cn w.
Proof.
  intros cn a w. split; [reflexivity|].
  apply (proj1 (proj2 (placeholder_replaced_inside_identifiers cn eq_refl)) a w).
  - vm_compute. intros H. repeat (destruct H as [H|H]; [discriminate H|]).
    contradiction.
  - vm_compute. reflexivity.
Defined.

(** A longer identifier that embeds the placeholder name does not survive
    the rule of the test file. *)
Lemma longer_identifier_rewritten :
  Frontend.testContent (lit "MyServicePage")
    (lit "render(<ExampleComponentWrapper />);")
  = lit "render(<MyServicePageWrapper />);"
  /\ occurs (lit "ExampleComponentWrapper")
       (lit "render(<ExampleComponentWrapper />);") = true
  /\ occurs (lit "ExampleComponentWrapper")
       (Frontend.testContent (lit "MyServicePage")
          (lit "render(<ExampleComponentWrapper />);")) = false.
Proof. repeat split; vm_compute; reflexivity. Qed.

Example clash_free_my_service :
  clash_free (lit "ExampleComponent") (lit "MyServicePage") = true.
Proof. reflexivity. Qed.

(** ** The file system *)

Lemma node_at_cons s p m :
  node_at (s :: p) (Dir m) = match m !! s with
                             | Some c => node_at p c
                             | None => None
                             end.
Proof. reflexivity. Qed.

Lemma node_at_app p q t :
  node_at (p ++ q) t = match node_at p t with
                       | Some n => node_at q n
                       | None => None
                       end.
Proof.
  revert t. induction p as [|s p IH]; intros t; [reflexivity|].
  simpl. destruct t as [c|m]; [reflexivity|].
  destruct (m !! s); [apply IH|reflexivity].
Qed.

(** What exists lies in directories that exist. *)
Lemma node_at_prefix p q t n :
  node_at q t = Some n -> p `prefix_of` q -> exists d, node_at p t = Some d.
Proof.
  intros H [k ->]. rewrite node_at_app in H.
  destruct (node_at p t) as [d|]; [now exists d|discriminate].
Qed.

Lemma node_at_below_file p q t c :
  node_at p t = Some (File c) -> p `prefix_of` q -> p <> q -> node_at q t = None.
Proof.
  intros H [k ->] Hne. rewrite node_at_app, H.
  destruct k; [now rewrite app_nil_r in Hne|reflexivity].
Qed.

Lemma store_nil o t : store [] o t = None.
Proof. reflexivity. Qed.

Lemma store_inv s p o t t' :
  store (s :: p) o t = Some t' ->
  exists m, t = Dir m /\
    ((p = [] /\ t' = Dir (partial_alter (fun _ => o) s m))
     \/ (p <> [] /\ exists c c', m !! s = Some c /\ store p o c = Some c'
                                 /\ t' = Dir (<[s := c']> m))).
Proof.
  simpl. destruct t as [x|m]; [discriminate|]. intros H. exists m. split; [reflexivity|].
  destruct p as [|s' p].
  - left. now inversion H.
  - right. split; [discriminate|].
    destruct (m !! s) as [c|]; [|discriminate].
    destruct (store (s' :: p) o c) as [c'|] eqn:E; [|discriminate].
    inversion H. now exists c, c'.
Qed.

(** The entry that was stored is there. *)
Lemma store_at p : forall o t t',
  store p o t = Some t' -> node_at p t' = o.
Proof.
  induction p as [|s p IH]; intros o t t' H; [discriminate|].
  apply store_inv in H as (m & -> & [[-> ->]|(Hp & c & c' & Hs & Hc & ->)]).
  - rewrite node_at_cons, lookup_partial_alter_eq. now destruct o.
  - rewrite node_at_cons, lookup_insert_eq. eapply IH, Hc.
Qed.

Lemma store_below p q o t t' :
  store p o t = Some t' ->
  node_at (p ++ q) t' = match o with
                        | Some n => node_at q n
                        | None => None
                        end.
Proof. intros H. now rewrite node_at_app, (store_at _ _ _ _ H). Qed.

(** Paths that do not pass through the stored entry and that it does not
    pass through are as before. *)
Lemma store_apart p : forall q o t t',
  store p o t = Some t' ->
  ~ p `prefix_of` q -> ~ q `prefix_of` p ->
  node_at q t' = node_at q t.
Proof.
  induction p as [|s p IH]; intros q o t t' H Hpq Hqp; [discriminate|].
  destruct q as [|s' q]; [exfalso; apply Hqp, prefix_nil|].
  apply store_inv in H as (m & -> & [[-> ->]|(Hp & c & c' & Hs & Hc & ->)]).
  - rewrite !node_at_cons.
    destruct (decide (s = s')) as [->|Hne].
    + exfalso. apply Hpq. apply prefix_cons, prefix_nil.
    + now rewrite lookup_partial_alter_ne.
  - rewrite !node_at_cons.
    destruct (decide (s = s')) as [->|Hne].
    + rewrite lookup_insert_eq, Hs. eapply IH; [exact Hc| |].
      * intros Hx. apply Hpq. now apply prefix_cons.
      * intros Hx. apply Hqp. now apply prefix_cons.
    + now rewrite lookup_insert_ne.
Qed.

(** On the way to the stored entry there are directories, before and after. *)
Lemma store_above p : forall q o t t',
  store p o t = Some t' -> q `prefix_of` p -> q <> p ->
  exists m m', node_at q t = Some (Dir m) /\ node_at q t' = Some (Dir m').
Proof.
  induction p as [|s p IH]; intros q o t t' H Hqp Hne; [discriminate|].
  apply store_inv in H as (m & -> & H).
  destruct q as [|s' q].
  - destruct H as [[-> ->]|(Hp & c & c' & Hs & Hc & ->)]; eauto.
  - pose proof (prefix_cons_inv_1 _ _ _ _ Hqp) as ->.
    apply prefix_cons_inv_2 in Hqp.
    destruct H as [[-> ->]|(Hp & c & c' & Hs & Hc & ->)].
    + apply prefix_nil_inv in Hqp. now subst q.
    + rewrite !node_at_cons, lookup_insert_eq, Hs.
      eapply IH; [exact Hc|assumption|congruence].
Qed.

(** Storing creates nothing outside the stored entry. *)
Lemma store_absent p q o t t' :
  store p o t = Some t' -> ~ p `prefix_of` q ->
  node_at q t = None -> node_at q t' = None.
Proof.
  intros H Hpq Hq.
  destruct (decide (q `prefix_of` p)) as [Hqp|Hqp].
  - destruct (store_above p q o t t' H Hqp) as (m & m' & Hm & _); [|congruence].
    intros ->. now apply Hpq.
  - now rewrite (store_apart p q o t t' H).
Qed.

(** Removing creates nothing at all. *)
Lemma remove_absent p q t t' :
  store p None t = Some t' -> node_at q t = None -> node_at q t' = None.
Proof.
  intros H Hq.
  destruct (decide (p `prefix_of` q)) as [[k ->]|Hpq].
  - now rewrite (store_below _ _ _ _ _ H).
  - eapply store_absent; eassumption.
Qed.

(** A regular file elsewhere is left alone. *)
Lemma store_file p q o t t' c :
  store p o t = Some t' -> ~ p `prefix_of` q ->
  node_at q t = Some (File c) -> node_at q t' = Some (File c).
Proof.
  intros H Hpq Hq.
  destruct (decide (q `prefix_of` p)) as [Hqp|Hqp].
  - destruct (store_above p q o t t' H Hqp) as (m & m' & Hm & _); [|congruence].
    intros ->. now apply Hpq.
  - now rewrite (store_apart p q o t t' H).
Qed.

(** Storing what is there changes nothing. *)
Lemma store_same p : forall n t,
  p <> [] -> node_at p t = Some n -> store p (Some n) t = Some t.
Proof.
  induction p as [|s p IH]; intros n t Hp H; [contradiction|].
  destruct t as [c|m]; [discriminate|].
  rewrite node_at_cons in H. destruct (m !! s) as [c|] eqn:Hs; [|discriminate].
  cbn [store]. destruct p as [|s' p].
  - simpl in H. inversion H; subst c. f_equal. f_equal.
    apply map_eq. intros i. destruct (decide (s = i)) as [->|Hne].
    + now rewrite lookup_partial_alter_eq.
    + now rewrite lookup_partial_alter_ne.
  - rewrite Hs. rewrite (IH n c) by (discriminate || assumption).
    now rewrite insert_id.
Qed.

(** Only a path through an existing directory can be stored to. *)
Lemma store_parent p o t t' :
  store p o t = Some t' -> exists m, node_at (removelast p) t = Some (Dir m).
Proof.
  intros H.
  destruct p as [|s p] using rev_ind; [discriminate|].
  rewrite removelast_last.
  destruct (store_above (p ++ [s]) p o t t' H) as (m & _ & Hm & _).
  - now apply prefix_app_r.
  - intros E. apply (f_equal length) in E. rewrite length_app in E. simpl in E. lia.
  - eauto.
Qed.

(** *** The operations *)

Lemma write_inv p c t t' :
  writeFileSync p c t = Some t' ->
  store p (Some (File c)) t = Some t'
  /\ forall m, node_at p t <> Some (Dir m).
Proof.
  unfold writeFileSync. intros H.
  destruct (creatable p); [|discriminate]. cbn [negb] in H.
  destruct (node_at p t) as [[x|m]|]; try discriminate; split; congruence.
Qed.

Lemma write_creatable p c t t' :
  writeFileSync p c t = Some t' -> creatable p = true.
Proof.
  unfold writeFileSync. destruct (creatable p); [reflexivity|discriminate].
Qed.


Lemma creatable_app p q : q <> [] -> creatable (p ++ q) = creatable q.
Proof.
  intros Hq. unfold creatable. destruct q as [|s q]; [contradiction|].
  now rewrite last_app_cons.
Qed.

Lemma write_at p c t t' :
  writeFileSync p c t = Some t' -> node_at p t' = Some (File c).
Proof. intros H. apply write_inv in H as [H _]. eapply store_at, H. Qed.

Lemma write_file p q c t t' x :
  writeFileSync p c t = Some t' -> q <> p ->
  node_at q t = Some (File x) -> node_at q t' = Some (File x).
Proof.
  intros H Hne Hq. apply write_inv in H as [H Hd].
  eapply store_file; [exact H| |exact Hq].
  intros Hpq. destruct (node_at_prefix p q t _ Hq Hpq) as [d Hp].
  destruct d as [y|m]; [|now apply (Hd m)].
  rewrite (node_at_below_file p q t y Hp Hpq) in Hq; congruence.
Qed.

Lemma write_absent p q c t t' :
  writeFileSync p c t = Some t' -> q <> p ->
  node_at q t = None -> node_at q t' = None.
Proof.
  intros H Hne Hq. pose proof (write_at _ _ _ _ H) as Hp.
  apply write_inv in H as [H _].
  destruct (decide (p `prefix_of` q)) as [Hpq|Hpq].
  - eapply node_at_below_file; eauto.
  - eapply store_absent; eassumption.
Qed.

Lemma write_same p c t :
  creatable p = true -> p <> [] -> node_at p t = Some (File c) ->
  writeFileSync p c t = Some t.
Proof.
  intros Hc Hp H. unfold writeFileSync. rewrite Hc, H. now apply store_same.
Qed.

Lemma unlink_inv p t t' :
  unlinkSync p t = Some t' ->
  store p None t = Some t' /\ exists c, node_at p t = Some (File c).
Proof.
  unfold unlinkSync. intros H.
  destruct (node_at p t) as [[x|m]|]; try discriminate. eauto.
Qed.

Lemma unlink_at p t t' : unlinkSync p t = Some t' -> node_at p t' = None.
Proof. intros H. apply unlink_inv in H as [H _]. eapply store_at, H. Qed.

Lemma unlink_file p q t t' x :
  unlinkSync p t = Some t' -> q <> p ->
  node_at q t = Some (File x) -> node_at q t' = Some (File x).
Proof.
  intros H Hne Hq. apply unlink_inv in H as [H [c Hc]].
  eapply store_file; [exact H| |exact Hq].
  intros Hpq. rewrite (node_at_below_file p q t c Hc Hpq) in Hq; congruence.
Qed.

Lemma unlink_absent p q t t' :
  unlinkSync p t = Some t' -> node_at q t = None -> node_at q t' = None.
Proof. intros H. apply unlink_inv in H as [H _]. eapply remove_absent, H. Qed.

Lemma rm_inv p t t' :
  rmSync p t = Some t' ->
  (node_at p t = None /\ t' = t) \/ store p None t = Some t'.
Proof.
  unfold rmSync. destruct (node_at p t); intros H; [now right|].
  left. now inversion H.
Qed.

Lemma rm_below p k t t' : rmSync p t = Some t' -> node_at (p ++ k) t' = None.
Proof.
  intros H. apply rm_inv in H as [[H ->]|H].
  - now rewrite node_at_app, H.
  - now rewrite (store_below _ _ _ _ _ H).
Qed.

Lemma rm_at p t t' : rmSync p t = Some t' -> node_at p t' = None.
Proof. intros H. rewrite <- (app_nil_r p). eapply rm_below, H. Qed.

Lemma rm_file p q t t' x :
  rmSync p t = Some t' -> ~ p `prefix_of` q ->
  node_at q t = Some (File x) -> node_at q t' = Some (File x).
Proof.
  intros H Hpq Hq. apply rm_inv in H as [[_ ->]|H]; [assumption|].
  eapply store_file; eassumption.
Qed.

Lemma rm_absent p q t t' :
  rmSync p t = Some t' -> node_at q t = None -> node_at q t' = None.
Proof.
  intros H Hq. apply rm_inv in H as [[_ ->]|H]; [assumption|].
  eapply remove_absent; eassumption.
Qed.

Lemma rm_missing p t : node_at p t = None -> rmSync p t = Some t.
Proof. unfold rmSync. now intros ->. Qed.

Lemma is_empty_dir_false (m : gmap jsstring node) s c :
  m !! s = Some c -> is_empty_dir m = false.
Proof.
  intros H. unfold is_empty_dir. apply bool_decide_eq_false.
  intros E. apply dom_empty_inv_L in E. subst m. now rewrite lookup_empty in H.
Qed.

(** A directory with something below it is not empty. *)
Lemma nonempty_above b q t n m :
  node_at q t = Some n -> b `prefix_of` q -> b <> q ->
  node_at b t = Some (Dir m) -> is_empty_dir m = false.
Proof.
  intros Hq [k ->] Hne Hb. rewrite node_at_app, Hb in Hq.
  destruct k as [|s k]; [now rewrite app_nil_r in Hne|].
  rewrite node_at_cons in Hq. destruct (m !! s) eqn:E; [|discriminate].
  eapply is_empty_dir_false, E.
Qed.

(** A rename that is not a no-op removes the source and stores it at the
    target; neither path lies on the other. *)
Lemma rename_inv a b t t' :
  renameSync a b t = Some t' -> a <> b ->
  exists src t1,
    node_at a t = Some src
    /\ store a None t = Some t1
    /\ store b (Some src) t1 = Some t'
    /\ ~ a `prefix_of` b /\ ~ b `prefix_of` a
    /\ (forall c, node_at b t = Some (File c) -> exists x, src = File x)
    /\ (forall m, node_at b t = Some (Dir m) -> is_empty_dir m = true).
Proof.
  unfold renameSync. intros H Hne.
  destruct (creatable b); [|discriminate]. cbn [negb] in H.
  destruct (node_at a t) as [src|] eqn:Ha; [|discriminate].
  rewrite bool_decide_eq_false_2 in H by assumption.
  assert (forall n, node_at b t = Some n -> b `prefix_of` a ->
                    exists m, n = Dir m /\ is_empty_dir m = false) as Hup.
  { intros n Hb Hba. destruct n as [x|m].
    - rewrite (node_at_below_file b a t x Hb Hba) in Ha by congruence.
      discriminate.
    - exists m. split; [reflexivity|].
      apply (nonempty_above b a t src m Ha Hba); [congruence|assumption]. }
  destruct src as [x|ms].
  - destruct (store a None t) as [t1|] eqn:H1.
    + exists (File x), t1. repeat split; try assumption.
      * destruct (node_at b t) as [[y|m]|]; congruence.
      * intros Hab.
        destruct (node_at b t) as [[y|m]|] eqn:Hb; try discriminate;
          (destruct (store_above b a _ _ _ H Hab) as (m1 & _ & Hm & _);
           [congruence|]; rewrite (store_at _ _ _ _ H1) in Hm; discriminate).
      * intros Hba. destruct (node_at_prefix b a t _ Ha Hba) as [n Hb].
        destruct (Hup n Hb Hba) as (m' & -> & Hm'). now rewrite Hb in H.
      * eauto.
      * intros m Hm. rewrite Hm in H. discriminate.
    + destruct (node_at b t) as [[y|m]|]; discriminate.
  - destruct (bool_decide (a `prefix_of` b)) eqn:Hab; [discriminate|].
    apply bool_decide_eq_false in Hab.
    destruct (store a None t) as [t1|] eqn:H1.
    + exists (Dir ms), t1. repeat split; try assumption.
      * destruct (node_at b t) as [[y|m]|]; try discriminate; try assumption.
        destruct (is_empty_dir m); [assumption|discriminate].
      * intros Hba. destruct (node_at_prefix b a t _ Ha Hba) as [n Hb].
        destruct (Hup n Hb Hba) as (m' & -> & Hm').
        rewrite Hb, Hm' in H. discriminate.
      * intros c Hc. rewrite Hc in H. discriminate.
      * intros m Hm. rewrite Hm in H. now destruct (is_empty_dir m).
    + destruct (node_at b t) as [[y|m]|]; try discriminate.
      destruct (is_empty_dir m); discriminate.
Qed.

Lemma rename_moved a b k t t' :
  renameSync a b t = Some t' -> a <> b ->
  node_at (b ++ k) t' = node_at (a ++ k) t.
Proof.
  intros H Hne. apply rename_inv in H as (src & t1 & Ha & H1 & H2 & _); [|assumption].
  now rewrite (store_below _ _ _ _ _ H2), node_at_app, Ha.
Qed.

Lemma rename_absent a b q t t' :
  renameSync a b t = Some t' -> ~ b `prefix_of` q ->
  node_at q t = None -> node_at q t' = None.
Proof.
  intros H Hbq Hq. destruct (decide (a = b)) as [->|Hne].
  - unfold renameSync in H. destruct (creatable b); [|discriminate].
    cbn [negb] in H. destruct (node_at b t); [|discriminate].
    rewrite bool_decide_eq_true_2 in H by reflexivity.
    inversion H; subst; assumption.
  - apply rename_inv in H as (src & t1 & Ha & H1 & H2 & _); [|assumption].
    eapply store_absent; [exact H2|assumption|].
    eapply remove_absent; eassumption.
Qed.

Lemma rename_gone a b k t t' :
  renameSync a b t = Some t' -> a <> b -> node_at (a ++ k) t' = None.
Proof.
  intros H Hne.
  apply rename_inv in H as (src & t1 & Ha & H1 & H2 & Hab & Hba & _);
    [|assumption].
  eapply store_absent; [exact H2| |now rewrite (store_below _ _ _ _ _ H1)].
  intros Hx.
  assert (a `prefix_of` a ++ k) as Hy by now apply prefix_app_r.
  destruct (prefix_weak_total _ _ _ Hx Hy); contradiction.
Qed.

Lemma rename_file a b q t t' x :
  renameSync a b t = Some t' -> ~ a `prefix_of` q -> q <> b ->
  node_at q t = Some (File x) -> node_at q t' = Some (File x).
Proof.
  intros H Haq Hqb Hq. destruct (decide (a = b)) as [->|Hne].
  - unfold renameSync in H. destruct (creatable b); [|discriminate].
    cbn [negb] in H. destruct (node_at b t); [|discriminate].
    rewrite bool_decide_eq_true_2 in H by reflexivity.
    inversion H; subst; assumption.
  - apply rename_inv in H as (src & t1 & Ha & H1 & H2 & _ & _ & _ & Hempty);
      [|assumption].
    eapply store_file; [exact H2| |eapply store_file; eassumption].
    intros Hbq. destruct (node_at_prefix b q t _ Hq Hbq) as [[y|m] Hb].
    + rewrite (node_at_below_file b q t y Hb Hbq) in Hq by congruence.
      discriminate.
    + specialize (Hempty m Hb).
      rewrite (nonempty_above b q t _ m Hq Hbq) in Hempty;
        [discriminate|congruence|assumption].
Qed.

(** *** Joined paths *)

Lemma split_last_app sep s suf :
  ~ In sep suf ->
  split sep (s ++ suf)
  = removelast (split sep s) ++ [List.last (split sep s) [] ++ suf].
Proof.
  intros Hsuf. induction s as [|c s IH].
  - simpl. induction suf as [|x suf IHs]; [reflexivity|].
    simpl. destruct (x =? sep) eqn:E.
    + apply N.eqb_eq in E. subst x. exfalso. apply Hsuf. now left.
    + rewrite IHs by (intros Hin; apply Hsuf; now right). reflexivity.
  - simpl. destruct (c =? sep).
    + rewrite IH. pose proof (split_nonempty sep s).
      destruct (split sep s); [contradiction|reflexivity].
    + rewrite IH. pose proof (split_nonempty sep s) as Hs.
      destruct (split sep s) as [|w ws] eqn:E; [contradiction|].
      destruct ws as [|w' ws]; reflexivity.
Qed.

Lemma fold_left_snoc {A B} (f : A -> B -> A) l x a :
  fold_left f (l ++ [x]) a = f (fold_left f l a) x.
Proof. now rewrite fold_left_app. Qed.

Lemma step_name p seg :
  (3 <= length seg)%nat -> step p seg = p ++ [seg].
Proof.
  intros H. unfold step.
  rewrite !bool_decide_eq_false_2; [reflexivity| | |];
    intros ->; simpl in H; lia.
Qed.

(** A joined text that ends in a file-name suffix ends the path with a
    segment that ends in this suffix. *)
Lemma join_suffix p s suf :
  ~ In (ch "/") suf -> (3 <= length suf)%nat ->
  exists q x, join p (s ++ suf) = q ++ [x ++ suf].
Proof.
  intros Hsep Hlen. unfold join. rewrite split_last_app by assumption.
  rewrite fold_left_snoc. eexists _, _. apply step_name.
  rewrite length_app. lia.
Qed.

(** A text without separator and dots is one segment. *)
Lemma join_segment p s :
  ~ In (ch "/") s -> (3 <= length s)%nat -> join p s = p ++ [s].
Proof.
  intros Hsep Hlen. unfold join.
  assert (split (ch "/") s = [s]) as ->.
  { clear Hlen. induction s as [|c s IH]; [reflexivity|].
    cbn [split]. destruct (c =? ch "/") eqn:E.
    - apply N.eqb_eq in E. subst c. exfalso. apply Hsep. now left.
    - rewrite IH; [reflexivity|]. intros Hin. apply Hsep. now right. }
  simpl. now apply step_name.
Qed.

Lemma snoc_neq_suffix {A} (q p : list A) (y w : A) :
  y <> w -> q ++ [y] <> p ++ [w].
Proof. intros Hne E. apply app_inj_tail in E as [_ E]. contradiction. Qed.

Lemma ends_differ (x suf w : jsstring) :
  ~ suf `suffix_of` w -> x ++ suf <> w.
Proof. intros H <-. apply H. now exists x. Qed.

(** The last segment of a joined text. *)
Lemma last_segment_app s suf :
  ~ In (ch "/") suf -> last_segment (s ++ suf) = last_segment s ++ suf.
Proof.
  intros H. unfold last_segment. rewrite split_last_app by assumption.
  now rewrite List.last_last.
Qed.

Lemma join_last p s suf :
  ~ In (ch "/") suf -> (3 <= length suf)%nat ->
  last (join p (s ++ suf)) = Some (last_segment s ++ suf).
Proof.
  intros Hsep Hlen. unfold join, last_segment.
  rewrite split_last_app by assumption. rewrite fold_left_snoc.
  rewrite step_name by (rewrite length_app; lia). apply last_snoc.
Qed.

Lemma ends_differ_b (x suf w : jsstring) :
  bool_decide (suf `suffix_of` w) = false -> x ++ suf <> w.
Proof. intros H. apply ends_differ. now apply bool_decide_eq_false in H. Qed.

Lemma not_prefix_app {A} `{EqDecision A} (k l1 l2 : list A) :
  bool_decide (l1 `prefix_of` l2) = false -> ~ k ++ l1 `prefix_of` k ++ l2.
Proof.
  intros H Hp. apply prefix_app_inv in Hp.
  apply bool_decide_eq_false in H. contradiction.
Qed.

Lemma no_slash_lit (s : string) :
  forallb (fun c => negb (c =? ch "/")) (lit s) = true -> ~ In (ch "/") (lit s).
Proof.
  intros H Hin. rewrite forallb_forall in H. specialize (H _ Hin).
  now rewrite N.eqb_refl in H.
Qed.

(** *** Operations that cannot fail *)

Lemma store_total p : forall o t n,
  p <> [] -> node_at p t = Some n -> exists t', store p o t = Some t'.
Proof.
  induction p as [|s p IH]; intros o t n Hp H; [contradiction|].
  destruct t as [c|m]; [discriminate|].
  rewrite node_at_cons in H. destruct (m !! s) as [c|] eqn:Hs; [|discriminate].
  cbn [store]. destruct p as [|s' p]; [eauto|].
  rewrite Hs. destruct (IH o c n) as [c' ->]; [discriminate|assumption|eauto].
Qed.

Lemma rm_total p t : p <> [] -> exists t', rmSync p t = Some t'.
Proof.
  intros Hp. unfold rmSync. destruct (node_at p t) as [n|] eqn:E; [|eauto].
  eapply store_total; eassumption.
Qed.

Lemma write_total p c x t :
  creatable p = true -> p <> [] -> node_at p t = Some (File x) ->
  exists t', writeFileSync p c t = Some t'.
Proof.
  intros Hc Hp H. unfold writeFileSync. rewrite Hc, H.
  eapply store_total; eassumption.
Qed.

Lemma rename_creatable a b t t' :
  renameSync a b t = Some t' -> creatable b = true.
Proof.
  unfold renameSync. destruct (creatable b); [reflexivity|discriminate].
Qed.

Lemma unlink_total p x t :
  p <> [] -> node_at p t = Some (File x) -> exists t', unlinkSync p t = Some t'.
Proof.
  intros Hp H. unfold unlinkSync. rewrite H. eapply store_total; eassumption.
Qed.

Lemma rm_apart p q t t' :
  rmSync p t = Some t' -> ~ p `prefix_of` q -> ~ q `prefix_of` p ->
  node_at q t' = node_at q t.
Proof.
  intros H H1 H2. apply rm_inv in H as [[_ ->]|H]; [reflexivity|].
  eapply store_apart; eassumption.
Qed.

Lemma write_apart p c q t t' :
  writeFileSync p c t = Some t' -> ~ p `prefix_of` q -> ~ q `prefix_of` p ->
  node_at q t' = node_at q t.
Proof.
  intros H H1 H2. apply write_inv in H as [H _]. eapply store_apart; eassumption.
Qed.

Lemma unlink_apart p q t t' :
  unlinkSync p t = Some t' -> ~ p `prefix_of` q -> ~ q `prefix_of` p ->
  node_at q t' = node_at q t.
Proof.
  intros H H1 H2. apply unlink_inv in H as [H _]. eapply store_apart; eassumption.
Qed.

Lemma existsSync_true p t : existsSync p t = true <-> exists n, node_at p t = Some n.
Proof.
  unfold existsSync. destruct (node_at p t); split; eauto; try discriminate.
  intros [n H]. discriminate.
Qed.

Lemma existsSync_false p t : existsSync p t = false <-> node_at p t = None.
Proof. unfold existsSync. destruct (node_at p t); split; congruence. Qed.

Lemma snoc_nonempty {A} (l : list A) x : l ++ [x] <> [].
Proof. destruct l; discriminate. Qed.

Lemma app_cons_nonempty {A} (l k : list A) x : l ++ x :: k <> [].
Proof. destruct l; discriminate. Qed.

(** ** Reasoning about scripts *)

Section Hoare.

Context {A B : Type}.
Implicit Types (P I S : node -> Prop).

Lemma hoare_bind P (m : M A) (k : A -> M B) Q1 Q2 S :
  hoare P m Q1 S ->
  (forall a, hoare (Q1 (Done a)) (k a) Q2 S) ->
  (forall e d, Q1 (Throw e) d -> Q2 (Throw e) d) ->
  (forall c d, Q1 (Exit c) d -> Q2 (Exit c) d) ->
  hoare P (m ≫= k) Q2 S.
Proof.
  intros Hm Hk Ht He w Hw. destruct (Hm w Hw) as (Hq & new & Hs & Hn).
  unfold mbind, M_bind, bind. destruct (m w) as [[a|e|c] w1]; simpl in *.
  - destruct (Hk a w1 Hq) as (Hq2 & new2 & Hs2 & Hn2). split; [assumption|].
    exists (new ++ new2). rewrite Hs2, Hs, app_assoc. split; [reflexivity|].
    now apply Forall_app.
  - split; [now apply Ht|]. now exists new.
  - split; [now apply He|]. now exists new.
Qed.

Lemma hoare_bind_done P (m : M A) (k : A -> M B) Q1 Q2 S :
  hoare P m (on_done Q1) S ->
  (forall a, hoare (Q1 a) (k a) (on_done Q2) S) ->
  hoare P (m ≫= k) (on_done Q2) S.
Proof. intros Hm Hk. eapply hoare_bind; eauto; intros; exact I. Qed.

Lemma hoare_bind_always I (m : M A) (k : A -> M B) S :
  hoare I m (always I) S ->
  (forall a, hoare I (k a) (always I) S) ->
  hoare I (m ≫= k) (always I) S.
Proof. intros Hm Hk. eapply hoare_bind; eauto. Qed.

Lemma hoare_conseq P P' (m : M A) Q Q' S S' :
  hoare P m Q S ->
  (forall d, P' d -> P d) -> (forall r d, Q r d -> Q' r d) ->
  (forall d, S d -> S' d) ->
  hoare P' m Q' S'.
Proof.
  intros H HP HQ HS w Hw. destruct (H w (HP _ Hw)) as (Hq & new & Hs & Hn).
  split; [now apply HQ|]. exists new. split; [assumption|].
  eapply Forall_impl; eauto.
Qed.

End Hoare.

Section HoareSteps.

Context {A : Type}.
Implicit Types (P I S : node -> Prop).

Lemma quiet_step (m : M A) P (Q : res A -> node -> Prop) S :
  (forall w, snaps (snd (m w)) = snaps w /\ disk (snd (m w)) = disk w) ->
  (forall w, P (disk w) -> Q (fst (m w)) (disk w)) ->
  hoare P m Q S.
Proof.
  intros Hq HQ w Hw. destruct (Hq w) as [Hs Hd]. rewrite Hd.
  split; [now apply HQ|]. exists []. now rewrite app_nil_r.
Qed.

Lemma hoare_ret P (a : A) (Q : res A -> node -> Prop) S :
  (forall d, P d -> Q (Done a) d) -> hoare P (mret a) Q S.
Proof. intros H. apply quiet_step; [now intros w|]. intros w. apply H. Qed.

Lemma hoare_throw P e (Q : res A -> node -> Prop) S :
  (forall d, P d -> Q (Throw e) d) -> hoare P (throw e) Q S.
Proof. intros H. apply quiet_step; [now intros w|]. intros w. apply H. Qed.

Lemma hoare_exit P c (Q : res A -> node -> Prop) S :
  (forall d, P d -> Q (Exit c) d) -> hoare P (process_exit c) Q S.
Proof. intros H. apply quiet_step; [now intros w|]. intros w. apply H. Qed.

Lemma hoare_observe P (f : node -> A) (Q : res A -> node -> Prop) S :
  (forall d, P d -> Q (Done (f d)) d) -> hoare P (observe f) Q S.
Proof. intros H. apply quiet_step; [now intros w|]. intros w. apply H. Qed.

Lemma hoare_attempt P (f : node -> option A) (Q : res A -> node -> Prop) S :
  (forall d a, P d -> f d = Some a -> Q (Done a) d) ->
  (forall d, P d -> f d = None -> Q (Throw SystemError) d) ->
  hoare P (attempt f) Q S.
Proof.
  intros H1 H2. apply quiet_step.
  - intros w. unfold attempt. now destruct (f (disk w)).
  - intros w Hw. unfold attempt. destruct (f (disk w)) eqn:E; simpl; eauto.
Qed.

End HoareSteps.

Lemma hoare_print P l (Q : res unit -> node -> Prop) S :
  (forall d, P d -> Q (Done tt) d) -> hoare P (print l) Q S.
Proof. intros H. apply quiet_step; [now intros w|]. intros w. apply H. Qed.

Lemma hoare_log P l (Q : res unit -> node -> Prop) S :
  (forall d, P d -> Q (Done tt) d) -> hoare P (console_log l) Q S.
Proof. apply hoare_print. Qed.

Lemma hoare_error P l (Q : res unit -> node -> Prop) S :
  (forall d, P d -> Q (Done tt) d) -> hoare P (console_error l) Q S.
Proof. apply hoare_print. Qed.

Lemma hoare_mutate P f (Q : res unit -> node -> Prop) (S : node -> Prop) :
  (forall d d', P d -> f d = Some d' -> Q (Done tt) d' /\ S d') ->
  (forall d, P d -> f d = None -> Q (Throw SystemError) d) ->
  hoare P (mutate f) Q S.
Proof.
  intros H1 H2 w Hw. unfold mutate. destruct (f (disk w)) as [d'|] eqn:E; simpl.
  - destruct (H1 _ _ Hw E). split; [assumption|]. exists [d']. split; [reflexivity|].
    now constructor.
  - split; [now apply H2|]. exists []. now rewrite app_nil_r.
Qed.

Lemma hoare_try P body handler (Q1 Q2 : res unit -> node -> Prop) S :
  hoare P body Q1 S ->
  (forall e, hoare (Q1 (Throw e)) (handler e) Q2 S) ->
  (forall d, Q1 (Done tt) d -> Q2 (Done tt) d) ->
  (forall c d, Q1 (Exit c) d -> Q2 (Exit c) d) ->
  hoare P (try_catch body handler) Q2 S.
Proof.
  intros Hb Hh Hd He w Hw. destruct (Hb w Hw) as (Hq & new & Hs & Hn).
  unfold try_catch. destruct (body w) as [[[]|e|c] w1]; simpl in *.
  - split; [now apply Hd|]. now exists new.
  - destruct (Hh e w1 Hq) as (Hq2 & new2 & Hs2 & Hn2). split; [assumption|].
    exists (new ++ new2). rewrite Hs2, Hs, app_assoc. split; [reflexivity|].
    now apply Forall_app.
  - split; [now apply He|]. now exists new.
Qed.

(** What [run] leaves is what the script leaves. *)
Lemma run_disk script w :
  disk (snd (run script w)) = disk (snd (script w))
  /\ snaps (snd (run script w)) = snaps (snd (script w)).
Proof. unfold run. now destruct (script w) as [[[]|e|c] w']. Qed.

Lemma run_code script w :
  fst (run script w) = match fst (script w) with
                       | Done _ => 0%Z
                       | Throw _ => 1%Z
                       | Exit c => c
                       end.
Proof. unfold run. now destruct (script w) as [[[]|e|c] w']. Qed.

(** *** Forward rules: the strongest postcondition of one step *)

Lemma surely_on_done {A} (Q : A -> node -> Prop) r d :
  surely Q r d -> on_done Q r d.
Proof. now destruct r. Qed.

Lemma hoare_surely_done {A} P (m : M A) Q S :
  hoare P m (surely Q) S -> hoare P m (on_done Q) S.
Proof. intros H. eapply hoare_conseq; eauto using @surely_on_done. Qed.

Lemma hoare_bind_surely {A B} P (m : M A) (k : A -> M B) Q1 Q2 S :
  hoare P m (surely Q1) S ->
  (forall a, hoare (Q1 a) (k a) (surely Q2) S) ->
  hoare P (m ≫= k) (surely Q2) S.
Proof. intros Hm Hk. eapply hoare_bind; eauto; contradiction. Qed.

Lemma hoare_pre {A} P (m : M A) Q S :
  (forall d0, P d0 -> hoare (eq d0) m Q S) -> hoare P m Q S.
Proof. intros H w Hw. now apply (H (disk w)). Qed.

Lemma hoare_conj {A} P1 P2 (m : M A) Q1 Q2 S1 S2 :
  hoare P1 m Q1 S1 -> hoare P2 m Q2 S2 ->
  hoare (fun d => P1 d /\ P2 d) m (fun r d => Q1 r d /\ Q2 r d)
    (fun d => S1 d /\ S2 d).
Proof.
  intros H1 H2 w [Hw1 Hw2].
  destruct (H1 w Hw1) as (Hq1 & new1 & Hs1 & Hn1).
  destruct (H2 w Hw2) as (Hq2 & new2 & Hs2 & Hn2).
  split; [now split|]. exists new1. split; [assumption|].
  rewrite Hs1 in Hs2. apply app_inv_head in Hs2. subst new2.
  apply Forall_forall. intros d Hd. rewrite Forall_forall in Hn1, Hn2. auto.
Qed.

Lemma hoare_log_sp P l S : hoare P (console_log l) (surely (fun _ => P)) S.
Proof. now apply hoare_log. Qed.

Lemma hoare_ret_sp {A} P (a : A) S :
  hoare P (mret a) (surely (fun a' d => P d /\ a' = a)) S.
Proof. apply hoare_ret. now intros d Hd. Qed.

Lemma hoare_observe_sp {A} P (f : node -> A) S :
  hoare P (observe f) (surely (fun a d => P d /\ f d = a)) S.
Proof. apply hoare_observe. now intros d Hd. Qed.

Lemma hoare_attempt_sp {A} P (f : node -> option A) S :
  hoare P (attempt f) (on_done (fun a d => P d /\ f d = Some a)) S.
Proof. apply hoare_attempt; [now intros d a Hd Hf|now intros]. Qed.

Lemma hoare_attempt_total {A} P (f : node -> option A) S :
  (forall d, P d -> exists a, f d = Some a) ->
  hoare P (attempt f) (surely (fun a d => P d /\ f d = Some a)) S.
Proof.
  intros H. apply hoare_attempt; [now intros d a Hd Hf|].
  intros d Hd Hf. destruct (H d Hd) as [a Ha]. congruence.
Qed.

Lemma hoare_mutate_sp P f (S : node -> Prop) :
  (forall d d', P d -> f d = Some d' -> S d') ->
  hoare P (mutate f) (on_done (fun _ d' => exists d, P d /\ f d = Some d')) S.
Proof.
  intros H. apply hoare_mutate; [|now intros].
  intros d d' Hd Hf. split; [now exists d|]. eauto.
Qed.

Lemma hoare_mutate_total P f (S : node -> Prop) :
  (forall d, P d -> exists d', f d = Some d') ->
  (forall d d', P d -> f d = Some d' -> S d') ->
  hoare P (mutate f) (surely (fun _ d' => exists d, P d /\ f d = Some d')) S.
Proof.
  intros Ht H. apply hoare_mutate.
  - intros d d' Hd Hf. split; [now exists d|]. eauto.
  - intros d Hd Hf. destruct (Ht d Hd) as [d' Hd']. congruence.
Qed.

(** *** Combining facts about one computation *)

Lemma hoare_frame_done {A} J P (m : M A) (Q : A -> node -> Prop) S1 S2 :
  hoare J m (always J) S1 -> hoare P m (on_done Q) S2 ->
  hoare (fun d => J d /\ P d) m (on_done (fun a d => J d /\ Q a d)) anything.
Proof.
  intros H1 H2. eapply hoare_conseq; [apply (hoare_conj _ _ _ _ _ _ _ H1 H2)|..].
  - auto.
  - intros r d [Hi Hq]. destruct r; [split; assumption|exact I..].
  - intros d _. exact I.
Qed.

Lemma hoare_always_conj {A} I1 I2 (m : M A) S1 S2 :
  hoare I1 m (always I1) S1 -> hoare I2 m (always I2) S2 ->
  hoare (fun d => I1 d /\ I2 d) m (always (fun d => I1 d /\ I2 d)) anything.
Proof.
  intros H1 H2. eapply hoare_conseq; [apply (hoare_conj _ _ _ _ _ _ _ H1 H2)|..].
  - auto.
  - intros r d H. exact H.
  - intros d _. exact I.
Qed.

Lemma hoare_always_or {A} I1 I2 (m : M A) S1 S2 :
  hoare I1 m (always I1) S1 -> hoare I2 m (always I2) S2 ->
  hoare (fun d => I1 d \/ I2 d) m (always (fun d => I1 d \/ I2 d)) anything.
Proof.
  intros H1 H2 w [Hw|Hw].
  - destruct (H1 w Hw) as (Hq & new & Hs & _). split; [now left|].
    exists new. split; [assumption|]. apply Forall_forall. now intros.
  - destruct (H2 w Hw) as (Hq & new & Hs & _). split; [now right|].
    exists new. split; [assumption|]. apply Forall_forall. now intros.
Qed.

Lemma hoare_always_ex {A X} (I : X -> node -> Prop) (m : M A) S :
  (forall x, hoare (I x) m (always (I x)) S) ->
  hoare (fun d => exists x, I x d) m (always (fun d => exists x, I x d)) anything.
Proof.
  intros H w [x Hw]. destruct (H x w Hw) as (Hq & new & Hs & _).
  split; [now exists x|]. exists new. split; [assumption|].
  apply Forall_forall. now intros.
Qed.

Lemma hoare_always_done {A} J (m : M A) S :
  hoare J m (always J) S -> hoare J m (on_done (fun _ => J)) anything.
Proof.
  intros H. eapply hoare_conseq; [exact H|auto|..].
  - intros r d Hd. now destruct r.
  - intros d _. exact I.
Qed.

Lemma hoare_any {A} P (m : M A) Q S :
  hoare P m Q S -> hoare P m Q anything.
Proof. intros H. eapply hoare_conseq; [exact H|auto..]. intros d _. exact I. Qed.

(** *** Computations that never call [process.exit] *)

Lemma no_exit_bind {A B} (m : M A) (k : A -> M B) :
  hoare anything m no_exit anything ->
  (forall a, hoare anything (k a) no_exit anything) ->
  hoare anything (m ≫= k) no_exit anything.
Proof.
  intros Hm Hk. eapply hoare_bind with (Q1 := fun r d => no_exit r d); eauto.
Qed.

Lemma no_exit_quiet {A} (m : M A) :
  (forall w, snaps (snd (m w)) = snaps w /\ disk (snd (m w)) = disk w) ->
  (forall w c, fst (m w) <> Exit c) ->
  hoare anything m no_exit anything.
Proof.
  intros Hq Hn. apply quiet_step; [exact Hq|]. intros w _.
  unfold no_exit. specialize (Hn w). destruct (fst (m w)); [exact I..|].
  now apply (Hn code).
Qed.

Lemma no_exit_mutate f : hoare anything (mutate f) no_exit anything.
Proof. apply hoare_mutate; intros; cbn; auto. Qed.


(** ** Validation *)

Arguments existsSync : simpl never.
Arguments readFileSync : simpl never.
Arguments writeFileSync : simpl never.
Arguments unlinkSync : simpl never.
Arguments rmSync : simpl never.
Arguments renameSync : simpl never.
Arguments node_at : simpl never.
Arguments join : simpl never.
Arguments lit : simpl never.

Ltac run_monad :=
  unfold mbind, M_bind, bind, mret, M_ret, ret, console_log, console_error,
    print, observe, attempt, process_exit, throw;
  cbn [fst snd disk snaps out].

Section FrontendValidation.

Variable unicode_upper : code_unit -> jsstring.

Lemma frontend_validate_quiet argv2 manifest w :
  snaps (snd (Frontend.validate unicode_upper argv2 manifest w)) = snaps w
  /\ disk (snd (Frontend.validate unicode_upper argv2 manifest w)) = disk w.
Proof.
  unfold Frontend.validate. destruct argv2 as [pluginPath|]; run_monad; [|auto].
  destruct (existsSync pluginPath (disk w)); cbn; [|auto].
  destruct (existsSync _ (disk w)); cbn; [|auto].
  destruct (readFileSync _ (disk w)); cbn; [|auto].
  destruct manifest as [packageJson|]; cbn; [|auto].
  destruct (pluginId packageJson) as [id|]; cbn; [|auto].
  destruct (truthy id); cbn; [|auto].
  destruct id as [[| | |id| |]|]; cbn; auto.
Qed.

Lemma frontend_validate_done argv2 manifest w v :
  fst (Frontend.validate unicode_upper argv2 manifest w) = Done v ->
  exists pluginPath id,
    argv2 = Some pluginPath
    /\ v = (pluginPath, Frontend.componentName unicode_upper id)
    /\ valid_package pluginPath manifest (disk w) (Some (JStr id)).
Proof.
  unfold Frontend.validate, valid_package, Frontend.packageJsonPath.
  destruct argv2 as [pluginPath|]; run_monad; [|discriminate].
  destruct (existsSync pluginPath (disk w)) eqn:E1; cbn; [|discriminate].
  destruct (existsSync (_ ++ _) (disk w)) eqn:E2; cbn; [|discriminate].
  unfold readFileSync.
  destruct (node_at _ (disk w)) as [[text|m]|] eqn:E3; cbn; try discriminate.
  destruct manifest as [packageJson|]; cbn; [|discriminate].
  destruct (pluginId packageJson) as [id|] eqn:E4; cbn; [|discriminate].
  destruct (truthy id) eqn:E5; cbn; [|discriminate].
  destruct id as [[| | |id| |]|]; cbn; try discriminate.
  intros H. inversion H; subst v. exists pluginPath, id. eauto 10.
Qed.

(** A valid package with a text as plugin id passes. *)
Lemma frontend_validate_valid pluginPath manifest w id :
  valid_package pluginPath manifest (disk w) (Some (JStr id)) ->
  fst (Frontend.validate unicode_upper (Some pluginPath) manifest w)
  = Done (pluginPath, Frontend.componentName unicode_upper id).
Proof.
  intros (E1 & [text E3] & (packageJson & -> & E4) & E5 & _).
  unfold Frontend.validate, Frontend.packageJsonPath. run_monad.
  unfold existsSync, readFileSync in *.
  repeat (rewrite ?E1, ?E3, ?E4; cbn).
  destruct id; [discriminate|reflexivity].
Qed.

End FrontendValidation.

Lemma backend_validate_quiet argv2 manifest w :
  snaps (snd (Backend.validate argv2 manifest w)) = snaps w
  /\ disk (snd (Backend.validate argv2 manifest w)) = disk w.
Proof.
  unfold Backend.validate. destruct argv2 as [pluginPath|]; run_monad; [|auto].
  destruct (existsSync pluginPath (disk w)); cbn; [|auto].
  destruct (existsSync _ (disk w)); cbn; [|auto].
  destruct (readFileSync _ (disk w)); cbn; [|auto].
  destruct manifest as [packageJson|]; cbn; [|auto].
  destruct (pluginId packageJson) as [id|]; cbn; [|auto].
  destruct (truthy id); cbn; [|auto].
  destruct (printable_value id); cbn; auto.
Qed.

Lemma backend_validate_done argv2 manifest w v :
  fst (Backend.validate argv2 manifest w) = Done v ->
  exists pluginPath id,
    argv2 = Some pluginPath /\ v = (pluginPath, id)
    /\ valid_package pluginPath manifest (disk w) id.
Proof.
  unfold Backend.validate, valid_package, Backend.packageJsonPath.
  destruct argv2 as [pluginPath|]; run_monad; [|discriminate].
  destruct (existsSync pluginPath (disk w)) eqn:E1; cbn; [|discriminate].
  destruct (existsSync (_ ++ _) (disk w)) eqn:E2; cbn; [|discriminate].
  unfold readFileSync.
  destruct (node_at _ (disk w)) as [[text|m]|] eqn:E3; cbn; try discriminate.
  destruct manifest as [packageJson|]; cbn; [|discriminate].
  destruct (pluginId packageJson) as [id|] eqn:E4; cbn; [|discriminate].
  destruct (truthy id) eqn:E5; cbn; [|discriminate].
  destruct (printable_value id) eqn:E6; cbn; [|discriminate].
  intros H. inversion H; subst v. exists pluginPath, id. eauto 10.
Qed.

Lemma backend_validate_valid pluginPath manifest w id :
  valid_package pluginPath manifest (disk w) id ->
  fst (Backend.validate (Some pluginPath) manifest w) = Done (pluginPath, id).
Proof.
  intros (E1 & [text E3] & (packageJson & -> & E4) & E5 & E6).
  unfold Backend.validate, Backend.packageJsonPath. run_monad.
  unfold existsSync, readFileSync in *.
  repeat (rewrite ?E1, ?E3, ?E4, ?E5, ?E6; cbn). reflexivity.
Qed.

(** C2: a package whose directory exists but whose manifest is missing, or
    whose manifest parses to a value without a truthy plugin id (none at
    all, or the empty text), makes both scripts exit with code 1 without
    one mutation of the disk. *)
Theorem invalid_package_untouched unicode_upper pluginPath manifest w :
  existsSync pluginPath (disk w) = true ->
  node_at (pluginPath ++ [lit "package.json"]) (disk w) = None
  \/ (exists packageJson id,
        manifest = Some packageJson /\ pluginId packageJson = Some id
        /\ truthy id = false) ->
  (fst (run (Frontend.main unicode_upper (Some pluginPath) manifest) w) = 1%Z
   /\ disk (snd (run (Frontend.main unicode_upper (Some pluginPath) manifest) w))
      = disk w
   /\ snaps (snd (run (Frontend.main unicode_upper (Some pluginPath) manifest) w))
      = snaps w)
  /\ (fst (run (Backend.main (Some pluginPath) manifest) w) = 1%Z
      /\ disk (snd (run (Backend.main (Some pluginPath) manifest) w)) = disk w
      /\ snaps (snd (run (Backend.main (Some pluginPath) manifest) w)) = snaps w).
Proof.
  intros E1 H.
  assert (forall A (v : M A) (k : A -> M unit),
    (forall a, fst (v w) <> Done a) ->
    snaps (snd (v w)) = snaps w /\ disk (snd (v w)) = disk w ->
    (forall c, fst (v w) = Exit c -> c = 1%Z) ->
    fst (run (v ≫= k) w) = 1%Z
    /\ disk (snd (run (v ≫= k) w)) = disk w
    /\ snaps (snd (run (v ≫= k) w)) = snaps w) as Hgate.
  { intros A v k Hnd [Hs Hd] Hc. unfold run. run_monad.
    destruct (v w) as [[a|e|c] w1]; cbn in *.
    - now destruct (Hnd a).
    - auto.
    - rewrite (Hc c eq_refl). auto. }
  split.
  - apply Hgate; [| apply frontend_validate_quiet |].
    + intros a Ha. apply frontend_validate_done in Ha
        as (p & id & Hp & _ & _ & [text Ht] & (pj & Hm & Hid) & Htr & _).
      inversion Hp; subst p.
      destruct H as [H|(pj' & id' & -> & Hid' & Hf)]; [congruence|].
      inversion Hm; subst pj'. congruence.
    + unfold Frontend.validate. run_monad. rewrite E1. cbn.
      destruct (existsSync (Frontend.packageJsonPath pluginPath) (disk w));
        cbn; [|now inversion 1].
      destruct (readFileSync _ (disk w)); cbn; [|discriminate].
      destruct manifest as [pj|]; cbn; [|discriminate].
      destruct (pluginId pj) as [id|]; cbn; [|discriminate].
      destruct (truthy id); cbn; [|now inversion 1].
      destruct id as [[| | |id| |]|]; cbn; discriminate.
  - apply Hgate; [| apply backend_validate_quiet |].
    + intros a Ha. apply backend_validate_done in Ha
        as (p & id & Hp & _ & _ & [text Ht] & (pj & Hm & Hid) & Htr & _).
      inversion Hp; subst p.
      destruct H as [H|(pj' & id' & -> & Hid' & Hf)]; [congruence|].
      inversion Hm; subst pj'. congruence.
    + unfold Backend.validate. run_monad. rewrite E1. cbn.
      destruct (existsSync (Backend.packageJsonPath pluginPath) (disk w));
        cbn; [|now inversion 1].
      destruct (readFileSync _ (disk w)); cbn; [|discriminate].
      destruct manifest as [pj|]; cbn; [|discriminate].
      destruct (pluginId pj) as [id|]; cbn; [|discriminate].
      destruct (truthy id); cbn; [|now inversion 1].
      destruct (printable_value id); cbn; discriminate.
Qed.

(** ** Paths of the scripts *)

Ltac unfold_paths :=
  unfold Frontend.packageJsonPath, Frontend.exampleComponentDir,
    Frontend.newComponentDir, Frontend.exampleFetchDir,
    Frontend.componentFilePath, Frontend.newComponentFilePath,
    Frontend.testFilePath, Frontend.newTestFilePath, Frontend.indexPath,
    Frontend.pluginFilePath, Frontend.devDir, Frontend.pluginTestPath,
    Frontend.componentsDir,
    Backend.packageJsonPath, Backend.servicesDir, Backend.routerPath,
    Backend.pluginFilePath, Backend.pluginTestPath, Backend.routerTestPath,
    Backend.devDir in *.

(** The fixed name at the end of a path is one the file system takes. *)
Ltac fixed_name :=
  unfold_paths; rewrite creatable_app by discriminate; vm_compute; reflexivity.

Ltac seg_side :=
  solve [ apply no_slash_lit; vm_compute; reflexivity
        | vm_compute; lia ].

(** Two segments differ: two literals, or a literal and a text with an
    end that the literal does not have. *)
Ltac seg_differ E :=
  rewrite ?last_segment_app in E by seg_side;
  rewrite <- ?app_assoc in E;
  first
    [ solve [vm_compute in E; discriminate E]
    | solve [revert E; apply ends_differ_b; vm_compute; reflexivity]
    | solve [symmetry in E; revert E; apply ends_differ_b; vm_compute; reflexivity]
    | solve [apply (f_equal (@length _)) in E; rewrite ?length_app in E;
             vm_compute in E; lia]
    | solve [repeat apply app_inv_head in E; vm_compute in E; discriminate E] ].

(** Two paths differ in their last segments. *)
Ltac last_differ :=
  let E := fresh "E" in
  intros E; apply (f_equal (@last _)) in E; unfold_paths;
  repeat first [ rewrite join_last in E by seg_side
               | rewrite last_app in E; cbn [last] in E ];
  injection E as E; seg_differ E.

(** One path is not the beginning of another below the same directory. *)
Ltac not_prefix :=
  unfold_paths; rewrite <- ?app_assoc; cbn [app];
  first [ apply not_prefix_app; vm_compute; reflexivity
        | let H := fresh in
          intros H; apply prefix_length in H; rewrite ?length_app in H;
          cbn [length] in H; lia ].

Section FrontendPaths.

Variables (root : path) (name : jsstring).
Let cn := name ++ lit "Page".
Let N := Frontend.newComponentDir root cn.

Lemma manifest_not_new_dir : Frontend.packageJsonPath root <> N.
Proof. subst N cn. last_differ. Qed.

Lemma manifest_not_new_file : Frontend.packageJsonPath root <> Frontend.newComponentFilePath N cn.
Proof. subst N cn. last_differ. Qed.

Lemma manifest_not_new_test : Frontend.packageJsonPath root <> Frontend.newTestFilePath N cn.
Proof. subst N cn. last_differ. Qed.

Lemma manifest_not_old_file : Frontend.packageJsonPath root <> Frontend.componentFilePath N.
Proof. subst N cn. last_differ. Qed.

Lemma manifest_not_old_test : Frontend.packageJsonPath root <> Frontend.testFilePath N.
Proof. subst N cn. last_differ. Qed.

Lemma manifest_not_index : Frontend.packageJsonPath root <> Frontend.indexPath N.
Proof. subst N cn. last_differ. Qed.

Lemma manifest_not_plugin : Frontend.packageJsonPath root <> Frontend.pluginFilePath root.
Proof. last_differ. Qed.

Lemma manifest_not_plugin_test : Frontend.packageJsonPath root <> Frontend.pluginTestPath root.
Proof. last_differ. Qed.

Lemma manifest_outside_fetch :
  ~ Frontend.exampleFetchDir root `prefix_of` Frontend.packageJsonPath root.
Proof. not_prefix. Qed.

Lemma manifest_outside_example :
  ~ Frontend.exampleComponentDir root `prefix_of` Frontend.packageJsonPath root.
Proof. not_prefix. Qed.

Lemma manifest_outside_dev :
  ~ Frontend.devDir root `prefix_of` Frontend.packageJsonPath root.
Proof. not_prefix. Qed.

End FrontendPaths.

(** ** The manifest is only read *)

Ltac unfold_steps :=
  unfold Frontend.cleanup, Frontend.remove_fetch_component,
    Frontend.rename_component, Frontend.update_component_file,
    Frontend.update_test_file, Frontend.update_index_file,
    Frontend.update_plugin_file, Frontend.remove_junk_files,
    Frontend.report, Frontend.failed,
    Backend.cleanup, Backend.remove_services, Backend.simplify_router,
    Backend.update_plugin_file, Backend.remove_tests, Backend.remove_dev,
    Backend.report, Backend.failed, remove_tree, remove_file.

(** One rule of the logic, for an invariant. *)
Ltac keep_step :=
  lazymatch goal with
  | |- hoare _ (mbind _ _) _ _ => apply hoare_bind_always; [|intros ?]
  | |- hoare _ (console_log _) _ _ => apply hoare_log; unfold always; auto
  | |- hoare _ (console_error _) _ _ => apply hoare_error; unfold always; auto
  | |- hoare _ (observe _) _ _ => apply hoare_observe; unfold always; auto
  | |- hoare _ (attempt _) _ _ => apply hoare_attempt; unfold always; auto
  | |- hoare _ (mret _) _ _ => apply hoare_ret; unfold always; auto
  | |- hoare _ (process_exit _) _ _ => apply hoare_exit; unfold always; auto
  | |- hoare _ (if ?b then _ else _) _ _ => destruct b
  | |- hoare _ (mutate _) _ _ =>
      apply hoare_mutate; unfold always;
      [ let d := fresh "d" in let d' := fresh "d'" in
        let Hd := fresh "Hd" in let Hf := fresh "Hf" in
        intros d d' Hd Hf; split
      | auto ]
  end.

Lemma hoare_try_always I body handler S :
  hoare I body (always I) S ->
  (forall e, hoare I (handler e) (always I) S) ->
  hoare I (try_catch body handler) (always I) S.
Proof. intros Hb Hh. eapply hoare_try; eauto. Qed.

Lemma frontend_cleanup_keeps_manifest root name c :
  let I := fun d => node_at (Frontend.packageJsonPath root) d = Some (File c) in
  hoare I (Frontend.cleanup root (name ++ lit "Page")) (always I) I.
Proof.
  intros I. subst I. unfold_steps. repeat keep_step.
  all: first
    [ eapply rm_file; [eassumption| |eassumption];
      solve [apply manifest_outside_fetch | apply manifest_outside_dev]
    | eapply rename_file; [eassumption| | |eassumption];
      solve [apply manifest_outside_example | apply manifest_not_new_dir]
    | eapply write_file; [eassumption| |eassumption];
      solve [apply manifest_not_new_file | apply manifest_not_new_test
            | apply manifest_not_index | apply manifest_not_plugin]
    | eapply unlink_file; [eassumption| |eassumption];
      solve [apply manifest_not_old_file | apply manifest_not_old_test
            | apply manifest_not_plugin_test] ].
Qed.

Lemma backend_cleanup_keeps_manifest root id c :
  let I := fun d => node_at (Backend.packageJsonPath root) d = Some (File c) in
  hoare I (Backend.cleanup root id) (always I) I.
Proof.
  intros I. subst I. unfold_steps. repeat keep_step.
  all: first
    [ eapply rm_file; [eassumption| |eassumption]; solve [not_prefix]
    | eapply write_file; [eassumption| |eassumption]; solve [last_differ]
    | eapply unlink_file; [eassumption| |eassumption]; solve [last_differ] ].
Qed.

Lemma failed_keeps I S :
  hoare I Frontend.failed (always I) S /\ hoare I Backend.failed (always I) S.
Proof. split; unfold_steps; repeat keep_step. Qed.

Lemma frontend_main_keeps_manifest unicode_upper pluginPath manifest o :
  let I := fun d => node_at (pluginPath ++ [lit "package.json"]) d = o in
  hoare I (Frontend.main unicode_upper (Some pluginPath) manifest) (always I) I.
Proof.
  intros I. unfold Frontend.main.
  eapply hoare_bind with
    (Q1 := fun r d => I d /\ forall v, r = Done v ->
             exists text name, o = Some (File text)
                               /\ v = (pluginPath, name ++ lit "Page")).
  - apply quiet_step; [apply frontend_validate_quiet|].
    intros w Hw. split; [assumption|]. intros v Hv.
    apply frontend_validate_done in Hv
      as (p & id & Hp & -> & _ & [text Ht] & _).
    inversion Hp; subst p. exists text, (toPascalCase unicode_upper id).
    split; [|reflexivity]. unfold I in Hw. congruence.
  - intros [p cn]. cbn [fst snd].
    apply hoare_conseq with
      (P := fun d => I d /\ exists text name, o = Some (File text)
                                 /\ (p, cn) = (pluginPath, name ++ lit "Page"))
      (Q := always I) (S := I); auto.
    2:{ intros d [Hd Hv]. split; [assumption|]. now apply Hv. }
    intros w [Hw (text & name & -> & Hv)]. inversion Hv; subst p cn.
    revert w Hw. fold (hoare I (try_catch (Frontend.cleanup pluginPath (name ++ lit "Page"))
                                  (fun _ => Frontend.failed)) (always I) I).
    apply hoare_try_always.
    + apply frontend_cleanup_keeps_manifest.
    + intros _. apply failed_keeps.
  - intros e d [Hd _]. exact Hd.
  - intros c d [Hd _]. exact Hd.
Qed.

Lemma backend_main_keeps_manifest pluginPath manifest o :
  let I := fun d => node_at (pluginPath ++ [lit "package.json"]) d = o in
  hoare I (Backend.main (Some pluginPath) manifest) (always I) I.
Proof.
  intros I. unfold Backend.main.
  eapply hoare_bind with
    (Q1 := fun r d => I d /\ forall v, r = Done v ->
             exists text, o = Some (File text) /\ fst v = pluginPath).
  - apply quiet_step; [apply backend_validate_quiet|].
    intros w Hw. split; [assumption|]. intros v Hv.
    apply backend_validate_done in Hv
      as (p & id & Hp & -> & _ & [text Ht] & _).
    inversion Hp; subst p. exists text.
    split; [|reflexivity]. unfold I in Hw. congruence.
  - intros [p id]. cbn [fst snd].
    apply hoare_conseq with
      (P := fun d => I d /\ exists text, o = Some (File text) /\ p = pluginPath)
      (Q := always I) (S := I); auto.
    2:{ intros d [Hd Hv]. split; [assumption|]. now apply (Hv (p, id)). }
    intros w [Hw (text & -> & ->)].
    revert w Hw. fold (hoare I (try_catch (Backend.cleanup pluginPath id)
                                  (fun _ => Backend.failed)) (always I) I).
    apply hoare_try_always.
    + apply backend_cleanup_keeps_manifest.
    + intros _. apply failed_keeps.
  - intros e d [Hd _]. exact Hd.
  - intros c d [Hd _]. exact Hd.
Qed.

(** C10: whatever the package and however the run ends, both scripts leave
    the node at package.json as it was, on the final disk and on every
    disk written on the way: the manifest is read and never written or
    removed. *)
Theorem manifest_only_read unicode_upper pluginPath manifest w :
  let q := pluginPath ++ [lit "package.json"] in
  let wf := snd (run (Frontend.main unicode_upper (Some pluginPath) manifest) w) in
  let wb := snd (run (Backend.main (Some pluginPath) manifest) w) in
  (node_at q (disk wf) = node_at q (disk w)
   /\ exists new, snaps wf = snaps w ++ new
                  /\ Forall (fun d => node_at q d = node_at q (disk w)) new)
  /\ (node_at q (disk wb) = node_at q (disk w)
      /\ exists new, snaps wb = snaps w ++ new
                     /\ Forall (fun d => node_at q d = node_at q (disk w)) new).
Proof.
  intros q wf wb. subst wf wb.
  split.
  - destruct (run_disk (Frontend.main unicode_upper (Some pluginPath) manifest) w)
      as [-> ->].
    apply (frontend_main_keeps_manifest unicode_upper pluginPath manifest
             (node_at q (disk w)) w eq_refl).
  - destruct (run_disk (Backend.main (Some pluginPath) manifest) w) as [-> ->].
    apply (backend_main_keeps_manifest pluginPath manifest
             (node_at q (disk w)) w eq_refl).
Qed.

(** ** The backend script rewrites router.ts *)

(** One forward step in a proof that a block ends normally. *)
Ltac sure_step :=
  lazymatch goal with
  | |- hoare _ (mbind _ (console_log _)) _ _ =>
      eapply hoare_bind_surely; [apply hoare_log_sp|intros ?; cbv beta]
  | |- hoare _ (mbind _ (observe _)) _ _ =>
      eapply hoare_bind_surely; [apply hoare_observe_sp|intros ?; cbv beta]
  | |- hoare _ (if ?b then _ else _) _ _ => destruct b
  end.

Lemma remove_services_keeps_router root c :
  hoare (is_file (Backend.routerPath root) c) (Backend.remove_services root)
    (surely (fun _ => is_file (Backend.routerPath root) c)) anything.
Proof.
  unfold Backend.remove_services, remove_tree. repeat sure_step.
  - apply hoare_mutate.
    + intros d d' [Hd _] Hf. split; [|exact I].
      eapply rm_file; [eassumption| |eassumption]. not_prefix.
    + intros d _ Hf. destruct (rm_total (Backend.servicesDir root) d) as [d' Hd'].
      * apply app_cons_nonempty.
      * congruence.
  - apply hoare_ret. now intros d [Hd _].
Qed.

Lemma simplify_router_writes root c :
  hoare (is_file (Backend.routerPath root) c) (Backend.simplify_router root)
    (surely (fun _ => is_file (Backend.routerPath root) Backend.simpleRouter)) anything.
Proof.
  unfold Backend.simplify_router. repeat sure_step.
  - eapply hoare_bind_surely with
      (Q1 := fun _ => is_file (Backend.routerPath root) Backend.simpleRouter).
    + apply hoare_mutate.
      * intros d d' [Hd _] Hf. split; [|exact I]. eapply write_at, Hf.
      * intros d [Hd _] Hf.
        destruct (write_total (Backend.routerPath root) Backend.simpleRouter c d)
          as [d' Hd']; [fixed_name|apply app_cons_nonempty|exact Hd|congruence].
    + intros _. now apply hoare_log.
  - apply hoare_ret. intros d [Hd He]. unfold is_file in Hd.
    apply existsSync_false in He. congruence.
Qed.

Lemma backend_rest_keeps_router root id :
  let I := is_file (Backend.routerPath root) Backend.simpleRouter in
  hoare I (Backend.update_plugin_file root;; Backend.remove_tests root;;
           Backend.remove_dev root;; Backend.report id) (always I) anything.
Proof.
  intros I. subst I. unfold_steps. unfold is_file. repeat keep_step.
  all: try exact I.
  all: first
    [ eapply rm_file; [eassumption| |eassumption]; solve [not_prefix]
    | eapply write_file; [eassumption| |eassumption]; solve [last_differ]
    | eapply unlink_file; [eassumption| |eassumption]; solve [last_differ] ].
Qed.

Lemma backend_cleanup_writes_router root id c :
  hoare (is_file (Backend.routerPath root) c) (Backend.cleanup root id)
    (always (is_file (Backend.routerPath root) Backend.simpleRouter)) anything.
Proof.
  unfold Backend.cleanup.
  eapply hoare_bind; [apply remove_services_keeps_router| |contradiction..].
  intros ?. cbn [surely].
  eapply hoare_bind; [apply simplify_router_writes| |contradiction..].
  intros ?. cbn [surely]. apply backend_rest_keeps_router.
Qed.

(** A valid package gets to the [try]. *)
Lemma backend_main_valid pluginPath manifest w id :
  valid_package pluginPath manifest (disk w) id ->
  exists w0, disk w0 = disk w /\ snaps w0 = snaps w
    /\ Backend.main (Some pluginPath) manifest w
       = try_catch (Backend.cleanup pluginPath id) (fun _ => Backend.failed) w0.
Proof.
  intros Hv. pose proof (backend_validate_valid _ _ _ _ Hv) as Hd.
  destruct (backend_validate_quiet (Some pluginPath) manifest w) as [Hs Hk].
  unfold Backend.main. unfold mbind at 1. unfold M_bind, bind.
  destruct (Backend.validate (Some pluginPath) manifest w) as [r w0].
  cbn [fst snd] in *. subst r. now exists w0.
Qed.

(** The step of router.ts on a file: the fixed text is written, whatever
    the file held. *)
Lemma router_step_acts root w c :
  is_file (Backend.routerPath root) c (disk w) ->
  exists d',
    writeFileSync (Backend.routerPath root) Backend.simpleRouter (disk w) = Some d'
    /\ Backend.simplify_router root w
       = (Done tt,
          Sys d' (snaps w ++ [d'])
            (out w ++ [(Stdout, [Nl; Txt "🔧 Simplifying router.ts..."]);
                       (Stdout, [Txt "  ✅ Replaced with simple /health endpoint"])]))
    /\ is_file (Backend.routerPath root) Backend.simpleRouter d'.
Proof.
  intros Hc.
  destruct (write_total (Backend.routerPath root) Backend.simpleRouter c (disk w))
    as [d' Hd']; [fixed_name|apply app_cons_nonempty|exact Hc|].
  exists d'. split; [exact Hd'|]. split.
  - unfold Backend.simplify_router. run_monad.
    assert (existsSync (Backend.routerPath root) (disk w) = true) as ->
      by (apply existsSync_true; eauto).
    unfold mutate. cbn [disk snaps out]. rewrite Hd'. cbn [disk snaps out].
    now rewrite <- app_assoc.
  - eapply write_at, Hd'.
Qed.

(** C9: on a file src/router.ts the step of the backend script writes the
    one text [simpleRouter] without reading the file, whatever it held;
    and in a valid package (with a text as plugin id) with a file
    src/router.ts the script leaves this file with that text, however the
    later steps end. *)
Theorem router_overwritten pluginPath manifest w id c :
  (forall w', is_file (Backend.routerPath pluginPath) c (disk w') ->
     exists d',
       writeFileSync (Backend.routerPath pluginPath) Backend.simpleRouter (disk w')
       = Some d'
       /\ Backend.simplify_router pluginPath w'
          = (Done tt,
             Sys d' (snaps w' ++ [d'])
               (out w' ++ [(Stdout, [Nl; Txt "🔧 Simplifying router.ts..."]);
                           (Stdout, [Txt "  ✅ Replaced with simple /health endpoint"])]))
       /\ is_file (Backend.routerPath pluginPath) Backend.simpleRouter d')
  /\ (valid_package pluginPath manifest (disk w) (Some (JStr id)) ->
      node_at (Backend.routerPath pluginPath) (disk w) = Some (File c) ->
      node_at (Backend.routerPath pluginPath)
        (disk (snd (run (Backend.main (Some pluginPath) manifest) w)))
      = Some (File Backend.simpleRouter)).
Proof.
  split; [intros w'; apply router_step_acts|].
  intros Hv Hc.
  destruct (run_disk (Backend.main (Some pluginPath) manifest) w) as [-> _].
  destruct (backend_main_valid _ _ _ _ Hv) as (w0 & Hd & _ & ->).
  assert (hoare (is_file (Backend.routerPath pluginPath) c)
            (try_catch (Backend.cleanup pluginPath (Some (JStr id)))
               (fun _ => Backend.failed))
            (always (is_file (Backend.routerPath pluginPath) Backend.simpleRouter))
            anything) as H.
  { eapply hoare_try; [apply backend_cleanup_writes_router| |auto..].
    intros e. apply failed_keeps. }
  apply (H w0). unfold is_file. now rewrite Hd.
Qed.

(** ** The guards of the rename block *)

(** A step guarded by the existence of its file does nothing without it. *)
Lemma guarded_steps_skip newDir cn w :
  (node_at (Frontend.componentFilePath newDir) (disk w) = None ->
   Frontend.update_component_file newDir cn w = (Done tt, w))
  /\ (node_at (Frontend.testFilePath newDir) (disk w) = None ->
      Frontend.update_test_file newDir cn w = (Done tt, w))
  /\ (node_at (Frontend.indexPath newDir) (disk w) = None ->
      Frontend.update_index_file newDir cn w = (Done tt, w)).
Proof.
  unfold Frontend.update_component_file, Frontend.update_test_file,
    Frontend.update_index_file.
  repeat split; intros H; apply existsSync_false in H; run_monad;
    rewrite H; reflexivity.
Qed.

Lemma rename_keeps_missing a b k t t' :
  renameSync a b t = Some t' -> node_at (a ++ k) t = None ->
  node_at (b ++ k) t' = None.
Proof.
  intros H Hk. destruct (decide (a = b)) as [->|Hne].
  - unfold renameSync in H. destruct (creatable b); [|discriminate].
    cbn [negb] in H. destruct (node_at b t); [|discriminate].
    rewrite bool_decide_eq_true_2 in H by reflexivity.
    inversion H; subst; assumption.
  - now rewrite (rename_moved _ _ _ _ _ H Hne).
Qed.

Lemma rename_block_absent pluginPath componentName w :
  node_at (Frontend.exampleComponentDir pluginPath) (disk w) = None ->
  Frontend.rename_component pluginPath componentName w = (Done tt, w).
Proof.
  intros H. apply existsSync_false in H. unfold Frontend.rename_component.
  run_monad. rewrite H. reflexivity.
Qed.

(** The step of the test file on a file that is there: the new file is
    written, then the old one removed. *)
Lemma test_step_acts newDir cn w t d1 :
  is_file (Frontend.testFilePath newDir) t (disk w) ->
  writeFileSync (Frontend.newTestFilePath newDir cn) (Frontend.testContent cn t) (disk w)
  = Some d1 ->
  exists d2,
    unlinkSync (Frontend.testFilePath newDir) d1 = Some d2
    /\ Frontend.update_test_file newDir cn w
       = (Done tt, Sys d2 (snaps w ++ [d1; d2])
                     (out w ++ [(Stdout, [Txt "    ✅ ExampleComponent.test.tsx → ";
                                          Val cn; Txt ".test.tsx"])]))
    /\ (Frontend.newTestFilePath newDir cn <> Frontend.testFilePath newDir ->
        is_file (Frontend.newTestFilePath newDir cn) (Frontend.testContent cn t) d2
        /\ absent (Frontend.testFilePath newDir) d2).
Proof.
  intros Ht Hw.
  assert (exists x, node_at (Frontend.testFilePath newDir) d1 = Some (File x)) as [x Hx].
  { destruct (decide (Frontend.testFilePath newDir = Frontend.newTestFilePath newDir cn))
      as [E|E].
    - rewrite E. eexists. eapply write_at, Hw.
    - exists t. eapply write_file; [exact Hw|exact E|exact Ht]. }
  destruct (unlink_total (Frontend.testFilePath newDir) x d1) as [d2 Hd2];
    [apply snoc_nonempty|exact Hx|].
  exists d2. split; [exact Hd2|]. split.
  - unfold Frontend.update_test_file. run_monad.
    assert (existsSync (Frontend.testFilePath newDir) (disk w) = true) as ->
      by (apply existsSync_true; eauto).
    unfold readFileSync. rewrite Ht. unfold mutate. cbn [disk snaps out].
    rewrite Hw. cbn [disk snaps out]. rewrite Hd2. cbn [disk snaps out].
    now rewrite <- app_assoc.
  - intros Hne. split.
    + eapply unlink_file; [exact Hd2|exact Hne|]. eapply write_at, Hw.
    + eapply unlink_at, Hd2.
Qed.

Lemma test_step_fails newDir cn w t :
  is_file (Frontend.testFilePath newDir) t (disk w) ->
  writeFileSync (Frontend.newTestFilePath newDir cn) (Frontend.testContent cn t) (disk w)
  = None ->
  Frontend.update_test_file newDir cn w = (Throw SystemError, w).
Proof.
  intros Ht Hw. unfold Frontend.update_test_file. run_monad.
  assert (existsSync (Frontend.testFilePath newDir) (disk w) = true) as ->
    by (apply existsSync_true; eauto).
  unfold readFileSync. rewrite Ht. unfold mutate. cbn [disk snaps out].
  now rewrite Hw.
Qed.

(** The step of index.ts on a file that is there: it is rewritten. *)
Lemma index_step_acts newDir cn w i :
  is_file (Frontend.indexPath newDir) i (disk w) ->
  exists d1,
    writeFileSync (Frontend.indexPath newDir) (Frontend.indexContent cn i) (disk w)
    = Some d1
    /\ Frontend.update_index_file newDir cn w
       = (Done tt, Sys d1 (snaps w ++ [d1])
                     (out w ++ [(Stdout, [Txt "    ✅ index.ts updated"])]))
    /\ is_file (Frontend.indexPath newDir) (Frontend.indexContent cn i) d1.
Proof.
  intros Hi.
  destruct (write_total (Frontend.indexPath newDir) (Frontend.indexContent cn i) i (disk w))
    as [d1 Hd1]; [fixed_name|apply snoc_nonempty|exact Hi|].
  exists d1. split; [exact Hd1|]. split.
  - unfold Frontend.update_index_file. run_monad.
    assert (existsSync (Frontend.indexPath newDir) (disk w) = true) as ->
      by (apply existsSync_true; eauto).
    unfold readFileSync. rewrite Hi. unfold mutate. cbn [disk snaps out].
    now rewrite Hd1.
  - eapply write_at, Hd1.
Qed.

(** C8: without the placeholder directory the rename block does nothing
    at all.  With the directory but without its component file the block
    is the rename followed by the steps of the test file and of index.ts.
    Each of these two steps depends on its own file alone: without the
    file it does nothing; with the test file it writes the new test file
    and removes the old one (and throws when the write fails); with
    index.ts it rewrites it.  What the two files hold afterwards is said
    for a component name and texts without a surrogate code unit that has
    no partner. *)
Theorem rename_block_guards pluginPath componentName w :
  let E := Frontend.exampleComponentDir pluginPath in
  let N := Frontend.newComponentDir pluginPath componentName in
  let test := Frontend.testFilePath N in
  let newTest := Frontend.newTestFilePath N componentName in
  let index := Frontend.indexPath N in
  (node_at E (disk w) = None ->
   Frontend.rename_component pluginPath componentName w = (Done tt, w))
  /\ (existsSync E (disk w) = true ->
      node_at (E ++ [lit "ExampleComponent.tsx"]) (disk w) = None ->
      Frontend.rename_component pluginPath componentName w
      = (console_log [Txt "  - Renaming ExampleComponent/ → "; Val componentName; Txt "/"];;
         mutate (renameSync E N);;
         console_log [Txt "  - Updating component file..."];;
         Frontend.update_test_file N componentName;;
         Frontend.update_index_file N componentName) w)
  /\ (forall w', node_at test (disk w') = None ->
                 Frontend.update_test_file N componentName w' = (Done tt, w'))
  /\ (forall w', node_at index (disk w') = None ->
                 Frontend.update_index_file N componentName w' = (Done tt, w'))
  /\ (forall w' t d1,
        well_formed componentName = true -> well_formed t = true ->
        is_file test t (disk w') ->
        writeFileSync newTest (Frontend.testContent componentName t) (disk w') = Some d1 ->
        exists d2,
          unlinkSync test d1 = Some d2
          /\ Frontend.update_test_file N componentName w'
             = (Done tt, Sys d2 (snaps w' ++ [d1; d2])
                           (out w' ++ [(Stdout, [Txt "    ✅ ExampleComponent.test.tsx → ";
                                                 Val componentName; Txt ".test.tsx"])]))
          /\ (newTest <> test ->
              is_file newTest (Frontend.testContent componentName t) d2
              /\ absent test d2))
  /\ (forall w' t,
        is_file test t (disk w') ->
        writeFileSync newTest (Frontend.testContent componentName t) (disk w') = None ->
        Frontend.update_test_file N componentName w' = (Throw SystemError, w'))
  /\ (forall w' i,
        well_formed componentName = true -> well_formed i = true ->
        is_file index i (disk w') ->
        exists d1,
          writeFileSync index (Frontend.indexContent componentName i) (disk w') = Some d1
          /\ Frontend.update_index_file N componentName w'
             = (Done tt, Sys d1 (snaps w' ++ [d1])
                           (out w' ++ [(Stdout, [Txt "    ✅ index.ts updated"])]))
          /\ is_file index (Frontend.indexContent componentName i) d1).
Proof.
  intros E N test newTest index.
  split; [apply rename_block_absent|].
  split.
  { intros He Hc. unfold Frontend.rename_component. run_monad. fold E N.
    rewrite He. unfold mutate. cbn [disk].
    destruct (renameSync E N (disk w)) as [d1|] eqn:Hr; [|reflexivity].
    cbn [disk snaps out].
    match goal with
    | |- (let (_, _) := Frontend.update_component_file N componentName ?w1 in _) = _ =>
        destruct (guarded_steps_skip N componentName w1) as [Hskip _];
        rewrite Hskip; [reflexivity|]
    end.
    cbn [disk]. unfold Frontend.componentFilePath.
    eapply rename_keeps_missing; eassumption. }
  split; [intros w'; apply guarded_steps_skip|].
  split; [intros w'; apply guarded_steps_skip|].
  split; [intros w' t d1 _ _; apply test_step_acts|].
  split; [intros w' t; apply test_step_fails|].
  intros w' i _ _. apply index_step_acts.
Qed.

(** ** The removal steps *)

Lemma remove_blocks_skip p label w :
  node_at p (disk w) = None ->
  remove_tree p label w = (Done tt, w) /\ remove_file p label w = (Done tt, w).
Proof.
  intros H. apply existsSync_false in H. unfold remove_tree, remove_file.
  run_monad. now rewrite H.
Qed.

Lemma remove_tree_removes p label w n :
  p <> [] -> node_at p (disk w) = Some n ->
  exists d',
    remove_tree p label w
    = (Done tt, Sys d' (snaps w ++ [d']) (out w ++ [(Stdout, label)]))
    /\ (forall k, node_at (p ++ k) d' = None)
    /\ (forall q x, ~ p `prefix_of` q -> node_at q (disk w) = Some (File x) ->
                    node_at q d' = Some (File x)).
Proof.
  intros Hp H. destruct (rm_total p (disk w) Hp) as [d' Hd'].
  exists d'. split; [|split].
  - unfold remove_tree. run_monad.
    assert (existsSync p (disk w) = true) as -> by (apply existsSync_true; eauto).
    unfold mutate. cbn [disk snaps out]. now rewrite Hd'.
  - intros k. eapply rm_below, Hd'.
  - intros q x Hq Hx. eapply rm_file; eassumption.
Qed.

Lemma remove_file_removes p label w c :
  p <> [] -> node_at p (disk w) = Some (File c) ->
  exists d',
    remove_file p label w
    = (Done tt, Sys d' (snaps w ++ [d']) (out w ++ [(Stdout, label)]))
    /\ node_at p d' = None
    /\ (forall q x, q <> p -> node_at q (disk w) = Some (File x) ->
                    node_at q d' = Some (File x)).
Proof.
  intros Hp H. destruct (unlink_total p c (disk w) Hp H) as [d' Hd'].
  exists d'. split; [|split].
  - unfold remove_file. run_monad.
    assert (existsSync p (disk w) = true) as -> by (apply existsSync_true; eauto).
    unfold mutate. cbn [disk snaps out]. now rewrite Hd'.
  - eapply unlink_at, Hd'.
  - intros q x Hq Hx. eapply unlink_file; eassumption.
Qed.

(** The removal steps when nothing is left to remove. *)
Lemma removal_steps_skip root w :
  (absent (Frontend.exampleFetchDir root) (disk w) ->
   Frontend.remove_fetch_component root w
   = (Done tt, Sys (disk w) (snaps w)
                 (out w ++ [(Stdout, [Nl; Txt "📦 Removing junk components..."])])))
  /\ (absent (Frontend.devDir root) (disk w) ->
      absent (Frontend.pluginTestPath root) (disk w) ->
      Frontend.remove_junk_files root w
      = (Done tt, Sys (disk w) (snaps w)
                    (out w ++ [(Stdout, [Nl; Txt "🗑️  Removing other junk files..."])])))
  /\ (absent (Backend.servicesDir root) (disk w) ->
      Backend.remove_services root w
      = (Done tt, Sys (disk w) (snaps w)
                    (out w ++ [(Stdout, [Nl; Txt "📦 Removing example services..."])])))
  /\ (absent (Backend.pluginTestPath root) (disk w) ->
      absent (Backend.routerTestPath root) (disk w) ->
      Backend.remove_tests root w
      = (Done tt, Sys (disk w) (snaps w)
                    (out w ++ [(Stdout, [Nl; Txt "🗑️  Removing example tests..."])])))
  /\ (absent (Backend.devDir root) (disk w) ->
      Backend.remove_dev root w = (Done tt, w)).
Proof.
  unfold absent.
  repeat split.
  - intros H. unfold Frontend.remove_fetch_component. run_monad.
    now apply remove_blocks_skip.
  - intros H1 H2. unfold Frontend.remove_junk_files. run_monad.
    match goal with
    | |- (let (_, _) := remove_tree ?p ?l ?w1 in _) = _ =>
        destruct (remove_blocks_skip p l w1 H1) as [-> _]
    end.
    now apply remove_blocks_skip.
  - intros H. unfold Backend.remove_services. run_monad.
    now apply remove_blocks_skip.
  - intros H1 H2. unfold Backend.remove_tests. run_monad.
    match goal with
    | |- (let (_, _) := remove_file ?p ?l ?w1 in _) = _ =>
        destruct (remove_blocks_skip p l w1 H1) as [_ ->]
    end.
    now apply remove_blocks_skip.
  - intros H. unfold Backend.remove_dev. now apply remove_blocks_skip.
Qed.

(** A file block on a directory: the line is printed, then [unlinkSync]
    throws and the directory stays. *)
Lemma remove_file_fails p label w :
  is_dir p (disk w) ->
  remove_file p label w
  = (Throw SystemError, Sys (disk w) (snaps w) (out w ++ [(Stdout, label)])).
Proof.
  intros [m Hm]. unfold remove_file. run_monad.
  assert (existsSync p (disk w) = true) as -> by (apply existsSync_true; eauto).
  unfold mutate, unlinkSync. cbn [disk snaps out]. now rewrite Hm.
Qed.

(** A directory block and a file block, one after the other, on targets
    that do not lie on each other: what the directory block leaves is
    [w1], and the file block goes on from there. *)
Lemma tree_then_file_block D T l1 l2 w :
  D <> [] -> T <> [] -> ~ D `prefix_of` T -> ~ T `prefix_of` D ->
  exists w1,
    (absent D (disk w) -> w1 = w)
    /\ (forall n, node_at D (disk w) = Some n ->
          exists d',
            w1 = Sys d' (snaps w ++ [d']) (out w ++ [(Stdout, l1)])
            /\ (forall k, absent (D ++ k) d')
            /\ (forall q x, ~ D `prefix_of` q -> is_file q x (disk w) -> is_file q x d'))
    /\ node_at T (disk w1) = node_at T (disk w)
    /\ (absent T (disk w) ->
        (remove_tree D l1;; remove_file T l2) w = (Done tt, w1))
    /\ (forall c, is_file T c (disk w) ->
          exists d',
            (remove_tree D l1;; remove_file T l2) w
            = (Done tt, Sys d' (snaps w1 ++ [d']) (out w1 ++ [(Stdout, l2)]))
            /\ absent T d'
            /\ (forall q x, q <> T -> is_file q x (disk w1) -> is_file q x d'))
    /\ (is_dir T (disk w) ->
        (remove_tree D l1;; remove_file T l2) w
        = (Throw SystemError, Sys (disk w1) (snaps w1) (out w1 ++ [(Stdout, l2)]))).
Proof.
  intros HD HT HDT HTD.
  assert (exists w1,
    remove_tree D l1 w = (Done tt, w1)
    /\ (absent D (disk w) -> w1 = w)
    /\ (forall n, node_at D (disk w) = Some n ->
          exists d',
            w1 = Sys d' (snaps w ++ [d']) (out w ++ [(Stdout, l1)])
            /\ (forall k, absent (D ++ k) d')
            /\ (forall q x, ~ D `prefix_of` q -> is_file q x (disk w) -> is_file q x d'))
    /\ node_at T (disk w1) = node_at T (disk w)) as (w1 & Hrun & Ha & Hp & Hsame).
  { destruct (node_at D (disk w)) as [n|] eqn:En.
    - destruct (rm_total D (disk w) HD) as [d' Hd'].
      exists (Sys d' (snaps w ++ [d']) (out w ++ [(Stdout, l1)])).
      split; [|split; [|split]].
      + unfold remove_tree. run_monad.
        assert (existsSync D (disk w) = true) as -> by (apply existsSync_true; eauto).
        unfold mutate. cbn [disk snaps out]. now rewrite Hd'.
      + unfold absent. congruence.
      + intros n' _. exists d'. split; [reflexivity|]. split.
        * intros k. eapply rm_below, Hd'.
        * intros q x Hq Hx. eapply rm_file; eassumption.
      + cbn [disk]. eapply rm_apart; eassumption.
    - exists w. split; [|split; [|split]].
      + now apply remove_blocks_skip.
      + reflexivity.
      + discriminate.
      + reflexivity. }
  exists w1. split; [exact Ha|]. split; [exact Hp|]. split; [exact Hsame|].
  unfold mbind, M_bind, bind. rewrite Hrun.
  split; [|split].
  - intros HTa. apply remove_blocks_skip. unfold absent in HTa. congruence.
  - intros c Hc.
    destruct (remove_file_removes T l2 w1 c HT) as (d' & Hr & Hgone & Hframe);
      [unfold is_file in Hc; congruence|].
    exists d'. split; [exact Hr|]. split; [exact Hgone|exact Hframe].
  - intros [m Hm]. apply remove_file_fails. exists m. congruence.
Qed.

(** Two file blocks, one after the other, on different targets. *)
Lemma file_then_file_block P T l1 l2 w :
  P <> [] -> T <> [] -> ~ P `prefix_of` T -> ~ T `prefix_of` P ->
  exists w1,
    (absent P (disk w) -> w1 = w)
    /\ (forall c, is_file P c (disk w) ->
          exists d',
            w1 = Sys d' (snaps w ++ [d']) (out w ++ [(Stdout, l1)])
            /\ absent P d'
            /\ (forall q x, q <> P -> is_file q x (disk w) -> is_file q x d'))
    /\ (is_dir P (disk w) ->
        (remove_file P l1;; remove_file T l2) w
        = (Throw SystemError, Sys (disk w) (snaps w) (out w ++ [(Stdout, l1)])))
    /\ (~ is_dir P (disk w) ->
        node_at T (disk w1) = node_at T (disk w)
        /\ (absent T (disk w) ->
            (remove_file P l1;; remove_file T l2) w = (Done tt, w1))
        /\ (forall c, is_file T c (disk w) ->
              exists d',
                (remove_file P l1;; remove_file T l2) w
                = (Done tt, Sys d' (snaps w1 ++ [d']) (out w1 ++ [(Stdout, l2)]))
                /\ absent T d'
                /\ (forall q x, q <> T -> is_file q x (disk w1) -> is_file q x d'))
        /\ (is_dir T (disk w) ->
            (remove_file P l1;; remove_file T l2) w
            = (Throw SystemError, Sys (disk w1) (snaps w1) (out w1 ++ [(Stdout, l2)])))).
Proof.
  intros HP HT HPT HTP.
  destruct (node_at P (disk w)) as [[c|m]|] eqn:En.
  - destruct (remove_file_removes P l1 w c HP En) as (d' & Hrun & Hgone & Hframe).
    assert (node_at T d' = node_at T (disk w)) as Hsame.
    { unfold remove_file in Hrun. revert Hrun. run_monad.
      assert (existsSync P (disk w) = true) as -> by (apply existsSync_true; eauto).
      unfold mutate. cbn [disk snaps out].
      destruct (unlinkSync P (disk w)) as [d''|] eqn:Hu; [|discriminate].
      intros Hrun. injection Hrun as <-. eapply unlink_apart; eassumption. }
    exists (Sys d' (snaps w ++ [d']) (out w ++ [(Stdout, l1)])).
    split; [unfold absent; congruence|].
    split.
    { intros c' _. exists d'. split; [reflexivity|]. split; [exact Hgone|exact Hframe]. }
    split; [intros [m Hm]; congruence|].
    intros _. cbn [disk]. split; [exact Hsame|].
    unfold mbind, M_bind, bind. rewrite Hrun.
    split; [|split].
    + intros HTa. apply remove_blocks_skip. cbn [disk]. unfold absent in HTa. congruence.
    + intros c' Hc.
      destruct (remove_file_removes T l2
                  (Sys d' (snaps w ++ [d']) (out w ++ [(Stdout, l1)])) c' HT)
        as (d2 & Hr2 & Hg2 & Hf2);
        [cbn [disk]; unfold is_file in Hc; congruence|].
      exists d2. split; [exact Hr2|]. split; [exact Hg2|exact Hf2].
    + intros [m Hm]. apply remove_file_fails. exists m. cbn [disk]. congruence.
  - exists w.
    split; [unfold absent; congruence|].
    split; [unfold is_file; congruence|].
    split.
    { intros Hd. unfold mbind, M_bind, bind. now rewrite (remove_file_fails P l1 w Hd). }
    intros Hnd. exfalso. apply Hnd. now exists m.
  - exists w.
    split; [reflexivity|].
    split; [unfold is_file; congruence|].
    split; [intros [m Hm]; congruence|].
    intros _. split; [reflexivity|].
    unfold mbind, M_bind, bind.
    destruct (remove_blocks_skip P l1 w En) as [_ ->].
    split; [|split].
    + intros HTa. now apply remove_blocks_skip.
    + intros c Hc.
      destruct (remove_file_removes T l2 w c HT Hc) as (d2 & Hr2 & Hg2 & Hf2).
      exists d2. split; [exact Hr2|]. split; [exact Hg2|exact Hf2].
    + intros Hd. now apply remove_file_fails.
Qed.

(** C6, as the code has it, step by step.  A step prints its heading.  A
    target that is absent is skipped without a line.  A present target of
    a directory block (ExampleFetchComponent/, dev/, services/) is removed
    with all that is below it after its line is printed, and no file
    elsewhere changes.  A present target of a file block (plugin.test.ts,
    router.test.ts) is removed after its line is printed when it is a
    regular file; when it is a directory the step throws after the line,
    the directory stays, and what the step has removed before stays
    removed. *)
Theorem removal_steps_outcomes root w :
  (* step 1 of the frontend script *)
  ((absent (Frontend.exampleFetchDir root) (disk w) ->
    Frontend.remove_fetch_component root w
    = (Done tt, Sys (disk w) (snaps w)
                  (out w ++ [(Stdout, [Nl; Txt "📦 Removing junk components..."])])))
   /\ (forall n, node_at (Frontend.exampleFetchDir root) (disk w) = Some n ->
       exists d',
         Frontend.remove_fetch_component root w
         = (Done tt, Sys d' (snaps w ++ [d'])
                       (out w ++ [(Stdout, [Nl; Txt "📦 Removing junk components..."]);
                                  (Stdout, [Txt "  - Removing ExampleFetchComponent/ (mock data junk)"])]))
         /\ (forall k, absent (Frontend.exampleFetchDir root ++ k) d')
         /\ (forall q x, ~ Frontend.exampleFetchDir root `prefix_of` q ->
                         is_file q x (disk w) -> is_file q x d')))
  (* step 7 of the frontend script: [w1] is what the block of dev/ leaves *)
  /\ (exists w1,
        (absent (Frontend.devDir root) (disk w) ->
         w1 = Sys (disk w) (snaps w)
                (out w ++ [(Stdout, [Nl; Txt "🗑️  Removing other junk files..."])]))
        /\ (forall n, node_at (Frontend.devDir root) (disk w) = Some n ->
            exists d',
              w1 = Sys d' (snaps w ++ [d'])
                     (out w ++ [(Stdout, [Nl; Txt "🗑️  Removing other junk files..."]);
                                (Stdout, [Txt "  - Removing dev/"])])
              /\ (forall k, absent (Frontend.devDir root ++ k) d')
              /\ (forall q x, ~ Frontend.devDir root `prefix_of` q ->
                              is_file q x (disk w) -> is_file q x d'))
        /\ node_at (Frontend.pluginTestPath root) (disk w1)
           = node_at (Frontend.pluginTestPath root) (disk w)
        /\ (absent (Frontend.pluginTestPath root) (disk w) ->
            Frontend.remove_junk_files root w = (Done tt, w1))
        /\ (forall c, is_file (Frontend.pluginTestPath root) c (disk w) ->
            exists d',
              Frontend.remove_junk_files root w
              = (Done tt, Sys d' (snaps w1 ++ [d'])
                            (out w1 ++ [(Stdout, [Txt "  - Removing plugin.test.ts"])]))
              /\ absent (Frontend.pluginTestPath root) d'
              /\ (forall q x, q <> Frontend.pluginTestPath root ->
                              is_file q x (disk w1) -> is_file q x d'))
        /\ (is_dir (Frontend.pluginTestPath root) (disk w) ->
            Frontend.remove_junk_files root w
            = (Throw SystemError,
               Sys (disk w1) (snaps w1) (out w1 ++ [(Stdout, [Txt "  - Removing plugin.test.ts"])]))))
  (* step 1 of the backend script *)
  /\ ((absent (Backend.servicesDir root) (disk w) ->
       Backend.remove_services root w
       = (Done tt, Sys (disk w) (snaps w)
                     (out w ++ [(Stdout, [Nl; Txt "📦 Removing example services..."])])))
      /\ (forall n, node_at (Backend.servicesDir root) (disk w) = Some n ->
          exists d',
            Backend.remove_services root w
            = (Done tt, Sys d' (snaps w ++ [d'])
                          (out w ++ [(Stdout, [Nl; Txt "📦 Removing example services..."]);
                                     (Stdout, [Txt "  - Removing services/ (TodoListService with 150+ lines)"])]))
            /\ (forall k, absent (Backend.servicesDir root ++ k) d')
            /\ (forall q x, ~ Backend.servicesDir root `prefix_of` q ->
                            is_file q x (disk w) -> is_file q x d')))
  (* step 4 of the backend script: [w1] is what the block of plugin.test.ts
     leaves *)
  /\ (exists w1,
        (absent (Backend.pluginTestPath root) (disk w) ->
         w1 = Sys (disk w) (snaps w)
                (out w ++ [(Stdout, [Nl; Txt "🗑️  Removing example tests..."])]))
        /\ (forall c, is_file (Backend.pluginTestPath root) c (disk w) ->
            exists d',
              w1 = Sys d' (snaps w ++ [d'])
                     (out w ++ [(Stdout, [Nl; Txt "🗑️  Removing example tests..."]);
                                (Stdout, [Txt "  - Removing plugin.test.ts"])])
              /\ absent (Backend.pluginTestPath root) d'
              /\ (forall q x, q <> Backend.pluginTestPath root ->
                              is_file q x (disk w) -> is_file q x d'))
        /\ (is_dir (Backend.pluginTestPath root) (disk w) ->
            Backend.remove_tests root w
            = (Throw SystemError,
               Sys (disk w) (snaps w)
                 (out w ++ [(Stdout, [Nl; Txt "🗑️  Removing example tests..."]);
                            (Stdout, [Txt "  - Removing plugin.test.ts"])])))
        /\ (~ is_dir (Backend.pluginTestPath root) (disk w) ->
            node_at (Backend.routerTestPath root) (disk w1)
            = node_at (Backend.routerTestPath root) (disk w)
            /\ (absent (Backend.routerTestPath root) (disk w) ->
                Backend.remove_tests root w = (Done tt, w1))
            /\ (forall c, is_file (Backend.routerTestPath root) c (disk w) ->
                exists d',
                  Backend.remove_tests root w
                  = (Done tt, Sys d' (snaps w1 ++ [d'])
                                (out w1 ++ [(Stdout, [Txt "  - Removing router.test.ts"])]))
                  /\ absent (Backend.routerTestPath root) d'
                  /\ (forall q x, q <> Backend.routerTestPath root ->
                                  is_file q x (disk w1) -> is_file q x d'))
            /\ (is_dir (Backend.routerTestPath root) (disk w) ->
                Backend.remove_tests root w
                = (Throw SystemError,
                   Sys (disk w1) (snaps w1)
                     (out w1 ++ [(Stdout, [Txt "  - Removing router.test.ts"])])))))
  (* step 5 of the backend script, which has no heading *)
  /\ ((absent (Backend.devDir root) (disk w) ->
       Backend.remove_dev root w = (Done tt, w))
      /\ (forall n, node_at (Backend.devDir root) (disk w) = Some n ->
          exists d',
            Backend.remove_dev root w
            = (Done tt, Sys d' (snaps w ++ [d']) (out w ++ [(Stdout, [Txt "  - Removing dev/"])]))
            /\ (forall k, absent (Backend.devDir root ++ k) d')
            /\ (forall q x, ~ Backend.devDir root `prefix_of` q ->
                            is_file q x (disk w) -> is_file q x d'))).
Proof.
  destruct (removal_steps_skip root w) as (H1 & H2 & H3 & H4 & H5).
  (* a heading, then a directory block *)
  assert (forall p h l n, p <> [] -> node_at p (disk w) = Some n ->
    exists d',
      (console_log h;; remove_tree p l) w
      = (Done tt, Sys d' (snaps w ++ [d']) (out w ++ [(Stdout, h); (Stdout, l)]))
      /\ (forall k, absent (p ++ k) d')
      /\ (forall q x, ~ p `prefix_of` q -> is_file q x (disk w) -> is_file q x d'))
    as Htree.
  { intros p h l n Hp Hn. run_monad.
    destruct (remove_tree_removes p l
                (Sys (disk w) (snaps w) (out w ++ [(Stdout, h)])) n Hp Hn)
      as (d' & Hr & Hb & Hf).
    exists d'. cbn [disk snaps out] in Hr. rewrite <- app_assoc in Hr.
    split; [exact Hr|]. split; [exact Hb|exact Hf]. }
  split; [|split; [|split; [|split]]].
  - split; [exact H1|]. intros n Hn.
    apply (Htree _ _ _ n); [apply app_cons_nonempty|exact Hn].
  - destruct (tree_then_file_block (Frontend.devDir root) (Frontend.pluginTestPath root)
                [Txt "  - Removing dev/"] [Txt "  - Removing plugin.test.ts"]
                (Sys (disk w) (snaps w)
                   (out w ++ [(Stdout, [Nl; Txt "🗑️  Removing other junk files..."])])))
      as (w1 & Ha & Hp & Hsame & Hskip & Hfile & Hdir);
      [apply snoc_nonempty|apply app_cons_nonempty|not_prefix|not_prefix|].
    cbn [disk snaps out] in *.
    exists w1. split; [exact Ha|]. split.
    { intros n Hn. destruct (Hp n Hn) as (d' & -> & Hb & Hf).
      exists d'. rewrite <- app_assoc. split; [reflexivity|]. split; assumption. }
    split; [exact Hsame|].
    unfold Frontend.remove_junk_files. run_monad.
    split; [exact Hskip|]. split; [exact Hfile|exact Hdir].
  - split; [exact H3|]. intros n Hn.
    apply (Htree _ _ _ n); [apply app_cons_nonempty|exact Hn].
  - destruct (file_then_file_block (Backend.pluginTestPath root)
                (Backend.routerTestPath root)
                [Txt "  - Removing plugin.test.ts"] [Txt "  - Removing router.test.ts"]
                (Sys (disk w) (snaps w)
                   (out w ++ [(Stdout, [Nl; Txt "🗑️  Removing example tests..."])])))
      as (w1 & Ha & Hp & Hfail & Hrest);
      [apply app_cons_nonempty|apply app_cons_nonempty|not_prefix|not_prefix|].
    cbn [disk snaps out] in *.
    exists w1. split; [exact Ha|]. split.
    { intros c Hc. destruct (Hp c Hc) as (d' & -> & Hb & Hf).
      exists d'. rewrite <- app_assoc. split; [reflexivity|]. split; assumption. }
    unfold Backend.remove_tests. run_monad.
    split.
    { intros Hd. pose proof (Hfail Hd) as Hx. rewrite <- app_assoc in Hx.
      exact Hx. }
    exact Hrest.
  - split; [exact H5|]. intros n Hn. unfold Backend.remove_dev.
    apply (remove_tree_removes _ _ w n); [apply snoc_nonempty|exact Hn].
Qed.

(** ** Frames of the steps *)

(** The obligations of [keep_step] for a file or an absent path. *)
Ltac frame_files :=
  unfold is_file, absent in *;
  first
    [ eapply write_file; [eassumption| |eassumption]; assumption
    | eapply unlink_file; [eassumption| |eassumption]; assumption
    | eapply rm_file; [eassumption| |eassumption]; assumption
    | eapply write_absent; [eassumption| |eassumption]; assumption
    | eapply unlink_absent; eassumption
    | eapply rm_absent; eassumption ].

Section StepFrames.

Variables (newDir : path) (cn : jsstring) (q : path).

Lemma component_step_keeps_file x :
  q <> Frontend.newComponentFilePath newDir cn ->
  q <> Frontend.componentFilePath newDir ->
  hoare (is_file q x) (Frontend.update_component_file newDir cn)
    (always (is_file q x)) (is_file q x).
Proof. intros H1 H2. unfold_steps. repeat keep_step; frame_files. Qed.

Lemma component_step_keeps_absent :
  q <> Frontend.newComponentFilePath newDir cn ->
  hoare (absent q) (Frontend.update_component_file newDir cn)
    (always (absent q)) (absent q).
Proof. intros H1. unfold_steps. repeat keep_step; frame_files. Qed.

Lemma test_step_keeps_file x :
  q <> Frontend.newTestFilePath newDir cn ->
  q <> Frontend.testFilePath newDir ->
  hoare (is_file q x) (Frontend.update_test_file newDir cn)
    (always (is_file q x)) (is_file q x).
Proof. intros H1 H2. unfold_steps. repeat keep_step; frame_files. Qed.

Lemma test_step_keeps_absent :
  q <> Frontend.newTestFilePath newDir cn ->
  hoare (absent q) (Frontend.update_test_file newDir cn)
    (always (absent q)) (absent q).
Proof. intros H1. unfold_steps. repeat keep_step; frame_files. Qed.

Lemma index_step_keeps_file x :
  q <> Frontend.indexPath newDir ->
  hoare (is_file q x) (Frontend.update_index_file newDir cn)
    (always (is_file q x)) (is_file q x).
Proof. intros H1. unfold_steps. repeat keep_step; frame_files. Qed.

Lemma index_step_keeps_absent :
  q <> Frontend.indexPath newDir ->
  hoare (absent q) (Frontend.update_index_file newDir cn)
    (always (absent q)) (absent q).
Proof. intros H1. unfold_steps. repeat keep_step; frame_files. Qed.

End StepFrames.

(** What the steps of the component file and of the test file do to a
    file that is there: the new file is written, then the old one is
    removed; on every disk written the text is in one of the two. *)
Lemma component_step_moves newDir cn c :
  Frontend.componentFilePath newDir <> Frontend.newComponentFilePath newDir cn ->
  hoare (is_file (Frontend.componentFilePath newDir) c)
    (Frontend.update_component_file newDir cn)
    (on_done (fun _ d =>
       is_file (Frontend.newComponentFilePath newDir cn) (Frontend.content cn c) d
       /\ absent (Frontend.componentFilePath newDir) d))
    (fun d => is_file (Frontend.componentFilePath newDir) c d
              \/ is_file (Frontend.newComponentFilePath newDir cn)
                   (Frontend.content cn c) d).
Proof.
  intros Hne. unfold Frontend.update_component_file.
  eapply hoare_bind_done; [apply hoare_surely_done, hoare_observe_sp|].
  intros b. destruct b.
  2:{ apply hoare_ret. intros d [Hd Hb]. apply existsSync_false in Hb.
      unfold is_file in Hd. congruence. }
  eapply hoare_bind_done; [apply hoare_attempt_sp|]. intros c'. cbv beta.
  eapply hoare_bind_done with
    (Q1 := fun _ d =>
       is_file (Frontend.componentFilePath newDir) c d
       /\ is_file (Frontend.newComponentFilePath newDir cn) (Frontend.content cn c) d).
  - apply hoare_mutate; [|now intros].
    intros d d' [[Hd _] Hr] Hw. unfold readFileSync, is_file in *.
    rewrite Hd in Hr. inversion Hr; subst c'.
    assert (node_at (Frontend.componentFilePath newDir) d' = Some (File c)) as H1
      by (eapply write_file; eassumption).
    pose proof (write_at _ _ _ _ Hw) as H2.
    cbn [on_done]. auto.
  - intros _. eapply hoare_bind_done with
      (Q1 := fun _ d =>
         is_file (Frontend.newComponentFilePath newDir cn) (Frontend.content cn c) d
         /\ absent (Frontend.componentFilePath newDir) d).
    + apply hoare_mutate; [|now intros].
      intros d d' [Hd1 Hd2] Hu. unfold is_file, absent in *.
      assert (node_at (Frontend.newComponentFilePath newDir cn) d'
              = Some (File (Frontend.content cn c))) as H2.
      { eapply unlink_file; [eassumption| |eassumption]. congruence. }
      pose proof (unlink_at _ _ _ Hu). cbn [on_done]. auto.
    + intros _. now apply hoare_log.
Qed.

Lemma test_step_moves newDir cn c :
  Frontend.testFilePath newDir <> Frontend.newTestFilePath newDir cn ->
  hoare (is_file (Frontend.testFilePath newDir) c)
    (Frontend.update_test_file newDir cn)
    (on_done (fun _ d =>
       is_file (Frontend.newTestFilePath newDir cn) (Frontend.testContent cn c) d
       /\ absent (Frontend.testFilePath newDir) d))
    (fun d => is_file (Frontend.testFilePath newDir) c d
              \/ is_file (Frontend.newTestFilePath newDir cn)
                   (Frontend.testContent cn c) d).
Proof.
  intros Hne. unfold Frontend.update_test_file.
  eapply hoare_bind_done; [apply hoare_surely_done, hoare_observe_sp|].
  intros b. destruct b.
  2:{ apply hoare_ret. intros d [Hd Hb]. apply existsSync_false in Hb.
      unfold is_file in Hd. congruence. }
  eapply hoare_bind_done; [apply hoare_attempt_sp|]. intros c'. cbv beta.
  eapply hoare_bind_done with
    (Q1 := fun _ d =>
       is_file (Frontend.testFilePath newDir) c d
       /\ is_file (Frontend.newTestFilePath newDir cn) (Frontend.testContent cn c) d).
  - apply hoare_mutate; [|now intros].
    intros d d' [[Hd _] Hr] Hw. unfold readFileSync, is_file in *.
    rewrite Hd in Hr. inversion Hr; subst c'.
    assert (node_at (Frontend.testFilePath newDir) d' = Some (File c)) as H1
      by (eapply write_file; eassumption).
    pose proof (write_at _ _ _ _ Hw) as H2.
    cbn [on_done]. auto.
  - intros _. eapply hoare_bind_done with
      (Q1 := fun _ d =>
         is_file (Frontend.newTestFilePath newDir cn) (Frontend.testContent cn c) d
         /\ absent (Frontend.testFilePath newDir) d).
    + apply hoare_mutate; [|now intros].
      intros d d' [Hd1 Hd2] Hu. unfold is_file, absent in *.
      assert (node_at (Frontend.newTestFilePath newDir cn) d'
              = Some (File (Frontend.testContent cn c))) as H2.
      { eapply unlink_file; [eassumption| |eassumption]. congruence. }
      pose proof (unlink_at _ _ _ Hu). cbn [on_done]. auto.
    + intros _. now apply hoare_log.
Qed.

Lemma index_step_rewrites newDir cn c :
  hoare (is_file (Frontend.indexPath newDir) c)
    (Frontend.update_index_file newDir cn)
    (on_done (fun _ =>
       is_file (Frontend.indexPath newDir) (Frontend.indexContent cn c)))
    anything.
Proof.
  unfold Frontend.update_index_file.
  eapply hoare_bind_done; [apply hoare_surely_done, hoare_observe_sp|].
  intros b. destruct b.
  2:{ apply hoare_ret. intros d [Hd Hb]. apply existsSync_false in Hb.
      unfold is_file in Hd. congruence. }
  eapply hoare_bind_done; [apply hoare_attempt_sp|]. intros c'. cbv beta.
  eapply hoare_bind_done with
    (Q1 := fun _ => is_file (Frontend.indexPath newDir) (Frontend.indexContent cn c)).
  - apply hoare_mutate; [|now intros].
    intros d d' [[Hd _] Hr] Hw. unfold readFileSync, is_file in *.
    rewrite Hd in Hr. inversion Hr; subst c'.
    split; [eapply write_at, Hw|exact I].
  - intros _. now apply hoare_log.
Qed.

(** ** Write before delete *)

Section RenamePaths.

Variables (root : path) (name : jsstring).
Let cn := name ++ lit "Page".
Let E := Frontend.exampleComponentDir root.
Let N := Frontend.newComponentDir root cn.

Lemma example_not_new_dir : E <> N.
Proof. subst E N cn. last_differ. Qed.

Lemma old_file_not_new_file :
  Frontend.componentFilePath N <> Frontend.newComponentFilePath N cn.
Proof. subst E N cn. last_differ. Qed.

Lemma new_file_not_new_test :
  Frontend.newComponentFilePath N cn <> Frontend.newTestFilePath N cn.
Proof. subst E N cn. last_differ. Qed.

Lemma new_file_not_old_test :
  Frontend.newComponentFilePath N cn <> Frontend.testFilePath N.
Proof. subst E N cn. last_differ. Qed.

Lemma new_file_not_index :
  Frontend.newComponentFilePath N cn <> Frontend.indexPath N.
Proof. subst E N cn. last_differ. Qed.

Lemma old_test_not_old_file :
  Frontend.testFilePath N <> Frontend.componentFilePath N.
Proof. subst E N cn. last_differ. Qed.

Lemma old_test_not_new_test :
  Frontend.testFilePath N <> Frontend.newTestFilePath N cn.
Proof. subst E N cn. last_differ. Qed.

Lemma new_test_not_index :
  Frontend.newTestFilePath N cn <> Frontend.indexPath N.
Proof. subst E N cn. last_differ. Qed.

Lemma index_not_old_file :
  Frontend.indexPath N <> Frontend.componentFilePath N.
Proof. subst E N cn. last_differ. Qed.

Lemma index_not_old_test :
  Frontend.indexPath N <> Frontend.testFilePath N.
Proof. subst E N cn. last_differ. Qed.

(** The rename takes what is in the placeholder directory to the new one. *)
Lemma rename_moves_file k c :
  hoare (is_file (E ++ k) c) (mutate (renameSync E N))
    (on_done (fun _ => is_file (N ++ k) c)) (is_file (N ++ k) c).
Proof.
  apply hoare_mutate; [|now intros].
  intros d d' Hd Hr. unfold is_file in *. cbn [on_done].
  rewrite (rename_moved _ _ k _ _ Hr example_not_new_dir). auto.
Qed.

Lemma guard_holds k c d :
  is_file (E ++ k) c d -> existsSync E d = false -> False.
Proof.
  unfold is_file. intros Hd Hb. apply existsSync_false in Hb.
  rewrite node_at_app, Hb in Hd. discriminate.
Qed.

Lemma rename_block_keeps_component c :
  hoare (is_file (E ++ [lit "ExampleComponent.tsx"]) c)
    (Frontend.rename_component root cn)
    (on_done (fun _ => is_file (Frontend.newComponentFilePath N cn)
                         (Frontend.content cn c)))
    (fun d => is_file (Frontend.componentFilePath N) c d
              \/ is_file (Frontend.newComponentFilePath N cn)
                   (Frontend.content cn c) d).
Proof.
  set (new := is_file (Frontend.newComponentFilePath N cn) (Frontend.content cn c)).
  unfold Frontend.rename_component. fold E N.
  eapply hoare_bind_done; [apply hoare_surely_done, hoare_observe_sp|].
  intros b. destruct b; [|apply hoare_ret; intros d [Hd Hb]; now apply guard_holds in Hd].
  eapply hoare_bind_done; [apply hoare_surely_done, hoare_log_sp|].
  intros ?; cbv beta.
  eapply hoare_bind_done with
    (Q1 := fun _ => is_file (Frontend.componentFilePath N) c).
  { eapply hoare_conseq; [apply (rename_moves_file [lit "ExampleComponent.tsx"] c)|..].
    - now intros d [Hd _].
    - intros r d H. exact H.
    - intros d H. now left. }
  intros ?; cbv beta.
  eapply hoare_bind_done with
    (Q1 := fun _ => is_file (Frontend.componentFilePath N) c);
    [now apply hoare_log|].
  intros ?; cbv beta.
  eapply hoare_bind_done with (Q1 := fun _ => new).
  { eapply hoare_conseq;
      [apply (component_step_moves N cn c), old_file_not_new_file|..]; auto.
    intros r d H. destruct r; [|exact I..]. cbn in *. apply H. }
  intros ?; cbv beta.
  eapply hoare_bind_done with (Q1 := fun _ => new).
  { eapply hoare_conseq;
      [apply (test_step_keeps_file N cn (Frontend.newComponentFilePath N cn)
                (Frontend.content cn c));
       [apply new_file_not_new_test|apply new_file_not_old_test]|..].
    - auto.
    - intros r d H. destruct r; [|exact I..]. exact H.
    - intros d H. now right. }
  intros ?; cbv beta.
  eapply hoare_conseq;
    [apply (index_step_keeps_file N cn (Frontend.newComponentFilePath N cn)
              (Frontend.content cn c)), new_file_not_index|..].
  - auto.
  - intros r d H. destruct r; [exact H|exact I..].
  - intros d H. now right.
Qed.

Lemma rename_block_keeps_test t :
  hoare (is_file (E ++ [lit "ExampleComponent.test.tsx"]) t)
    (Frontend.rename_component root cn)
    (on_done (fun _ => is_file (Frontend.newTestFilePath N cn)
                         (Frontend.testContent cn t)))
    (fun d => is_file (Frontend.testFilePath N) t d
              \/ is_file (Frontend.newTestFilePath N cn)
                   (Frontend.testContent cn t) d).
Proof.
  set (new := is_file (Frontend.newTestFilePath N cn) (Frontend.testContent cn t)).
  unfold Frontend.rename_component. fold E N.
  eapply hoare_bind_done; [apply hoare_surely_done, hoare_observe_sp|].
  intros b. destruct b; [|apply hoare_ret; intros d [Hd Hb]; now apply guard_holds in Hd].
  eapply hoare_bind_done; [apply hoare_surely_done, hoare_log_sp|].
  intros ?; cbv beta.
  eapply hoare_bind_done with (Q1 := fun _ => is_file (Frontend.testFilePath N) t).
  { eapply hoare_conseq;
      [apply (rename_moves_file [lit "ExampleComponent.test.tsx"] t)|..].
    - now intros d [Hd _].
    - intros r d H. exact H.
    - intros d H. now left. }
  intros ?; cbv beta.
  eapply hoare_bind_done with (Q1 := fun _ => is_file (Frontend.testFilePath N) t);
    [now apply hoare_log|].
  intros ?; cbv beta.
  eapply hoare_bind_done with (Q1 := fun _ => is_file (Frontend.testFilePath N) t).
  { eapply hoare_conseq;
      [apply (component_step_keeps_file N cn (Frontend.testFilePath N) t);
       [intros H; symmetry in H; revert H; apply new_file_not_old_test
       |apply old_test_not_old_file]|..].
    - auto.
    - intros r d H. destruct r; [|exact I..]. exact H.
    - intros d H. now left. }
  intros ?; cbv beta.
  eapply hoare_bind_done with (Q1 := fun _ => new).
  { eapply hoare_conseq;
      [apply (test_step_moves N cn t), old_test_not_new_test|..]; auto.
    intros r d H. destruct r; [|exact I..]. cbn in *. apply H. }
  intros ?; cbv beta.
  eapply hoare_conseq;
    [apply (index_step_keeps_file N cn (Frontend.newTestFilePath N cn)
              (Frontend.testContent cn t)), new_test_not_index|..].
  - auto.
  - intros r d H. destruct r; [exact H|exact I..].
  - intros d H. now right.
Qed.

Lemma rename_block_rewrites_index i :
  hoare (is_file (E ++ [lit "index.ts"]) i)
    (Frontend.rename_component root cn)
    (on_done (fun _ => is_file (Frontend.indexPath N) (Frontend.indexContent cn i)))
    anything.
Proof.
  unfold Frontend.rename_component. fold E N.
  eapply hoare_bind_done; [apply hoare_surely_done, hoare_observe_sp|].
  intros b. destruct b; [|apply hoare_ret; intros d [Hd Hb]; now apply guard_holds in Hd].
  eapply hoare_bind_done; [apply hoare_surely_done, hoare_log_sp|].
  intros ?; cbv beta.
  eapply hoare_bind_done with (Q1 := fun _ => is_file (Frontend.indexPath N) i).
  { eapply hoare_conseq; [apply (rename_moves_file [lit "index.ts"] i)|..].
    - now intros d [Hd _].
    - intros r d H. exact H.
    - intros d H. exact I. }
  intros ?; cbv beta.
  eapply hoare_bind_done with (Q1 := fun _ => is_file (Frontend.indexPath N) i);
    [now apply hoare_log|].
  intros ?; cbv beta.
  eapply hoare_bind_done with (Q1 := fun _ => is_file (Frontend.indexPath N) i).
  { eapply hoare_conseq;
      [apply (component_step_keeps_file N cn (Frontend.indexPath N) i);
       [intros H; symmetry in H; revert H; apply new_file_not_index
       |apply index_not_old_file]|..].
    - auto.
    - intros r d H. destruct r; [|exact I..]. exact H.
    - intros d H. exact I. }
  intros ?; cbv beta.
  eapply hoare_bind_done with (Q1 := fun _ => is_file (Frontend.indexPath N) i).
  { eapply hoare_conseq;
      [apply (test_step_keeps_file N cn (Frontend.indexPath N) i);
       [intros H; symmetry in H; revert H; apply new_test_not_index
       |apply index_not_old_test]|..].
    - auto.
    - intros r d H. destruct r; [|exact I..]. exact H.
    - intros d H. exact I. }
  intros ?; cbv beta. apply index_step_rewrites.
Qed.

End RenamePaths.

(** C7: in the rename block, on every disk written while it runs, a
    component file or test file of the placeholder that is no longer
    there under its old name is there under its new name with the
    substituted text: the new file is written before the old one is
    removed. *)
Theorem write_before_delete pluginPath name w :
  let cn := name ++ lit "Page" in
  let E := Frontend.exampleComponentDir pluginPath in
  let N := Frontend.newComponentDir pluginPath cn in
  (forall c, is_file (E ++ [lit "ExampleComponent.tsx"]) c (disk w) ->
     exists new,
       snaps (snd (Frontend.rename_component pluginPath cn w)) = snaps w ++ new
       /\ Forall (fun d => absent (Frontend.componentFilePath N) d ->
                           is_file (Frontend.newComponentFilePath N cn)
                             (Frontend.content cn c) d) new)
  /\ (forall t, is_file (E ++ [lit "ExampleComponent.test.tsx"]) t (disk w) ->
        exists new,
          snaps (snd (Frontend.rename_component pluginPath cn w)) = snaps w ++ new
          /\ Forall (fun d => absent (Frontend.testFilePath N) d ->
                              is_file (Frontend.newTestFilePath N cn)
                                (Frontend.testContent cn t) d) new).
Proof.
  intros cn E N. split.
  - intros c Hc.
    destruct (rename_block_keeps_component pluginPath name c w Hc)
      as (_ & new & Hs & Hn).
    exists new. split; [exact Hs|]. eapply Forall_impl; [exact Hn|].
    intros d [H|H] Ha; [|exact H].
    unfold is_file, absent in *. subst cn E N. rewrite Ha in H. discriminate.
  - intros t Ht.
    destruct (rename_block_keeps_test pluginPath name t w Ht)
      as (_ & new & Hs & Hn).
    exists new. split; [exact Hs|]. eapply Forall_impl; [exact Hn|].
    intros d [H|H] Ha; [|exact H].
    unfold is_file, absent in *. subst cn E N. rewrite Ha in H. discriminate.
Qed.

(** ** What a successful run leaves *)

Ltac path_side := solve [assumption | last_differ | not_prefix].

Ltac frame_paths :=
  unfold is_file, absent in *;
  first
    [ eapply write_file; [eassumption|path_side|eassumption]
    | eapply unlink_file; [eassumption|path_side|eassumption]
    | eapply rm_file; [eassumption|path_side|eassumption]
    | eapply write_absent; [eassumption|path_side|eassumption]
    | eapply unlink_absent; eassumption
    | eapply rm_absent; eassumption
    | exact I ].

Ltac frame_proof := unfold_steps; repeat keep_step; frame_paths.

Lemma remove_tree_absent p label :
  hoare anything (remove_tree p label) (on_done (fun _ => absent p)) anything.
Proof.
  unfold remove_tree.
  eapply hoare_bind_done; [apply hoare_surely_done, hoare_observe_sp|].
  intros b. destruct b.
  - eapply hoare_bind_done; [apply hoare_surely_done, hoare_log_sp|].
    intros ?; cbv beta. apply hoare_mutate; [|now intros].
    intros d d' _ Hf. split; [|exact I]. eapply rm_at, Hf.
  - apply hoare_ret. intros d [_ Hb]. now apply existsSync_false in Hb.
Qed.

Lemma remove_file_absent p label :
  hoare anything (remove_file p label) (on_done (fun _ => absent p)) anything.
Proof.
  unfold remove_file.
  eapply hoare_bind_done; [apply hoare_surely_done, hoare_observe_sp|].
  intros b. destruct b.
  - eapply hoare_bind_done; [apply hoare_surely_done, hoare_log_sp|].
    intros ?; cbv beta. apply hoare_mutate; [|now intros].
    intros d d' _ Hf. split; [|exact I]. eapply unlink_at, Hf.
  - apply hoare_ret. intros d [_ Hb]. now apply existsSync_false in Hb.
Qed.

Lemma remove_tree_keeps_absent p label q :
  hoare (absent q) (remove_tree p label) (always (absent q)) anything.
Proof. frame_proof. Qed.

Lemma remove_file_keeps_absent p label q :
  hoare (absent q) (remove_file p label) (always (absent q)) anything.
Proof. frame_proof. Qed.

Lemma remove_tree_keeps_file p label q x :
  ~ p `prefix_of` q ->
  hoare (is_file q x) (remove_tree p label) (always (is_file q x)) anything.
Proof. intros H. frame_proof. Qed.

Lemma remove_file_keeps_file p label q x :
  q <> p ->
  hoare (is_file q x) (remove_file p label) (always (is_file q x)) anything.
Proof. intros H. frame_proof. Qed.

Lemma log_keeps J l : hoare J (console_log l) (always J) anything.
Proof. now apply hoare_log. Qed.

Lemma frontend_report_keeps J cn : hoare J (Frontend.report cn) (always J) anything.
Proof. unfold Frontend.report. repeat keep_step. Qed.

Lemma backend_report_keeps J id : hoare J (Backend.report id) (always J) anything.
Proof. unfold Backend.report. repeat keep_step. Qed.

(** plugin.ts after its step: a file, or absent as before. *)
Lemma frontend_plugin_step_settles root cn :
  hoare anything (Frontend.update_plugin_file root cn)
    (on_done (fun _ d => absent (Frontend.pluginFilePath root) d
                         \/ exists c, is_file (Frontend.pluginFilePath root) c d))
    anything.
Proof.
  unfold Frontend.update_plugin_file.
  eapply hoare_bind_done; [apply hoare_surely_done, hoare_log_sp|].
  intros ?; cbv beta.
  eapply hoare_bind_done; [apply hoare_surely_done, hoare_observe_sp|].
  intros b. destruct b.
  - eapply hoare_bind_done; [apply hoare_attempt_sp|]. intros c; cbv beta.
    eapply hoare_bind_done with
      (Q1 := fun _ d => exists c, is_file (Frontend.pluginFilePath root) c d).
    + apply hoare_mutate; [|now intros].
      intros d d' _ Hf. split; [|exact I]. eexists. eapply write_at, Hf.
    + intros ?. apply hoare_log. intros d H. now right.
  - apply hoare_ret. intros d [_ Hb]. left. now apply existsSync_false in Hb.
Qed.

Lemma frontend_plugin_step_keeps_absent root cn q :
  q <> Frontend.pluginFilePath root ->
  hoare (absent q) (Frontend.update_plugin_file root cn) (always (absent q)) anything.
Proof. intros H. frame_proof. Qed.

Lemma frontend_plugin_step_keeps_file root cn q x :
  q <> Frontend.pluginFilePath root ->
  hoare (is_file q x) (Frontend.update_plugin_file root cn)
    (always (is_file q x)) anything.
Proof. intros H. frame_proof. Qed.

Lemma prefix_snoc_inv {A} (p l : list A) x :
  p `prefix_of` l ++ [x] -> p = l ++ [x] \/ p `prefix_of` l.
Proof.
  intros Hp.
  assert (l `prefix_of` l ++ [x]) as Hl by now apply prefix_app_r.
  destruct (prefix_weak_total _ _ _ Hp Hl) as [H|[k Hk]]; [now right|].
  subst p. apply prefix_app_inv in Hp. destruct k as [|y k].
  - right. now rewrite app_nil_r.
  - left. pose proof (prefix_cons_inv_1 _ _ _ _ Hp) as ->.
    apply prefix_cons_inv_2, prefix_nil_inv in Hp. now subst k.
Qed.

Section RenameAbsent.

Variables (root : path) (name : jsstring).
Let cn := name ++ lit "Page".
Let E := Frontend.exampleComponentDir root.
Let N := Frontend.newComponentDir root cn.
Let F := Frontend.exampleFetchDir root.

Lemma new_dir_not_fetch : N <> F.
Proof. subst E N F cn. last_differ. Qed.

(** A successful rename does not put the new directory above the junk
    directory: it would be above the placeholder directory as well. *)
Lemma rename_leaves_fetch_absent d d' :
  renameSync E N d = Some d' -> absent F d -> absent F d'.
Proof.
  intros Hr Ha. unfold absent in *.
  eapply rename_absent; [exact Hr| |exact Ha].
  intros Hp.
  destruct (rename_inv _ _ _ _ Hr (example_not_new_dir root name))
    as (_ & _ & _ & _ & _ & _ & Hba & _).
  apply Hba. pose proof new_dir_not_fetch as Hnf.
  unfold F, Frontend.exampleFetchDir in Hp, Hnf.
  apply prefix_snoc_inv in Hp as [Hp|Hp]; [contradiction|].
  unfold E, Frontend.exampleComponentDir. now apply prefix_app_r.
Qed.

Lemma rename_block_keeps_fetch_absent :
  hoare (absent F) (Frontend.rename_component root cn) (always (absent F)) anything.
Proof.
  unfold Frontend.rename_component. fold E N.
  apply hoare_bind_always; [now apply hoare_observe|]. intros b. destruct b;
    [|now apply hoare_ret].
  apply hoare_bind_always; [now apply hoare_log|]. intros ?.
  apply hoare_bind_always.
  { apply hoare_mutate; [|auto]. intros d d' Hd Hf. split; [|exact I].
    eapply rename_leaves_fetch_absent; eassumption. }
  intros ?. apply hoare_bind_always; [now apply hoare_log|]. intros ?.
  apply hoare_bind_always.
  { eapply hoare_any, component_step_keeps_absent. subst E N F cn. last_differ. }
  intros ?. apply hoare_bind_always.
  { eapply hoare_any, test_step_keeps_absent. subst E N F cn. last_differ. }
  intros ?. eapply hoare_any, index_step_keeps_absent. subst E N F cn. last_differ.
Qed.

Lemma rename_block_removes_example :
  hoare anything (Frontend.rename_component root cn)
    (on_done (fun _ => absent E)) anything.
Proof.
  unfold Frontend.rename_component. fold E N.
  eapply hoare_bind_done; [apply hoare_surely_done, hoare_observe_sp|].
  intros b. destruct b.
  2:{ apply hoare_ret. intros d [_ Hb]. now apply existsSync_false in Hb. }
  eapply hoare_bind_done; [apply hoare_surely_done, hoare_log_sp|].
  intros ?; cbv beta.
  eapply hoare_bind_done with (Q1 := fun _ => absent E).
  { apply hoare_mutate; [|now intros]. intros d d' _ Hf. split; [|exact I].
    unfold absent. rewrite <- (app_nil_r E).
    eapply rename_gone; [exact Hf|apply example_not_new_dir]. }
  intros ?. eapply hoare_bind_done with (Q1 := fun _ => absent E).
  { now apply hoare_log. }
  intros ?. eapply hoare_bind_done with (Q1 := fun _ => absent E).
  { eapply hoare_always_done, component_step_keeps_absent.
    subst E N F cn. last_differ. }
  intros ?. eapply hoare_bind_done with (Q1 := fun _ => absent E).
  { eapply hoare_always_done, test_step_keeps_absent.
    subst E N F cn. last_differ. }
  intros ?. eapply hoare_always_done, index_step_keeps_absent.
  subst E N F cn. last_differ.
Qed.

End RenameAbsent.

(** A path that is absent or a file stays so through steps that leave
    absent paths and files alone. *)
Lemma file_or_absent_kept {A} (m : M A) q S1 S2 :
  hoare (absent q) m (always (absent q)) S1 ->
  (forall c, hoare (is_file q c) m (always (is_file q c)) S2) ->
  let J := fun d => absent q d \/ exists c, is_file q c d in
  hoare J m (always J) anything.
Proof.
  intros H1 H2 J. subst J.
  eapply hoare_always_or; [exact H1|].
  eapply hoare_always_ex with (I := fun c => is_file q c). exact H2.
Qed.

Lemma frontend_cleanup_cleans root name :
  hoare anything (Frontend.cleanup root (name ++ lit "Page"))
    (on_done (fun _ => frontend_clean root)) anything.
Proof.
  set (cn := name ++ lit "Page").
  set (F := Frontend.exampleFetchDir root).
  set (E := Frontend.exampleComponentDir root).
  set (P := Frontend.pluginFilePath root).
  set (plugin_ok := fun d => absent P d \/ exists c, is_file P c d).
  unfold Frontend.cleanup.
  (* step 1 *)
  eapply hoare_bind_done with (Q1 := fun _ => absent F).
  { unfold Frontend.remove_fetch_component.
    eapply hoare_bind_done; [apply hoare_surely_done, hoare_log_sp|].
    intros ?; cbv beta. apply remove_tree_absent. }
  intros ?. eapply hoare_bind_done with (Q1 := fun _ => absent F);
    [now apply hoare_log|].
  (* steps 2 to 5 *)
  intros ?. eapply hoare_bind_done with (Q1 := fun _ d => absent F d /\ absent E d).
  { eapply hoare_conseq;
      [apply (hoare_frame_done _ _ _ _ _ _
                (rename_block_keeps_fetch_absent root name)
                (rename_block_removes_example root name))|..]; auto.
    intros d H. split; [exact H|exact I]. }
  (* step 6 *)
  intros ?. eapply hoare_bind_done with
    (Q1 := fun _ d => (absent F d /\ absent E d) /\ plugin_ok d).
  { eapply hoare_conseq;
      [eapply (hoare_frame_done (fun d => absent F d /\ absent E d) anything);
       [eapply hoare_always_conj;
        apply frontend_plugin_step_keeps_absent; subst F E P; last_differ
       |apply frontend_plugin_step_settles]|..]; auto.
    intros d H. split; [exact H|exact I]. }
  (* step 7 *)
  intros ?. eapply hoare_bind_done with (Q1 := fun _ => frontend_clean root).
  { unfold Frontend.remove_junk_files.
    eapply hoare_bind_done with
      (Q1 := fun _ d => (absent F d /\ absent E d) /\ plugin_ok d);
      [now apply hoare_log|].
    intros ?. eapply hoare_bind_done with
      (Q1 := fun _ d => ((absent F d /\ absent E d) /\ plugin_ok d)
                        /\ absent (Frontend.devDir root) d).
    { eapply hoare_conseq;
        [eapply (hoare_frame_done
                  (fun d => (absent F d /\ absent E d) /\ plugin_ok d) anything);
         [eapply hoare_always_conj;
          [eapply hoare_always_conj; apply remove_tree_keeps_absent
          |eapply file_or_absent_kept;
           [apply remove_tree_keeps_absent
           |intros c; apply remove_tree_keeps_file; subst P; not_prefix]]
         |apply remove_tree_absent]|..]; auto.
      intros d H. split; [exact H|exact I]. }
    intros ?. eapply hoare_conseq;
      [eapply (hoare_frame_done
                (fun d => ((absent F d /\ absent E d) /\ plugin_ok d)
                          /\ absent (Frontend.devDir root) d) anything);
       [eapply hoare_always_conj;
        [eapply hoare_always_conj;
         [eapply hoare_always_conj; apply remove_file_keeps_absent
         |eapply file_or_absent_kept;
          [apply remove_file_keeps_absent
          |intros c; apply remove_file_keeps_file; subst P; last_differ]]
        |apply remove_file_keeps_absent]
       |apply remove_file_absent]|..]; auto.
    - intros d H. split; [exact H|exact I].
    - intros r d H. destruct r; [|exact I..]. cbn in *.
      unfold frontend_clean. tauto. }
  intros ?. eapply hoare_always_done, frontend_report_keeps.
Qed.

(** *** The steps never leave the process *)

Lemma no_exit_log l : hoare anything (console_log l) no_exit anything.
Proof. now apply hoare_log. Qed.

Lemma no_exit_observe {A} (f : node -> A) : hoare anything (observe f) no_exit anything.
Proof. now apply hoare_observe. Qed.

Lemma no_exit_attempt {A} (f : node -> option A) :
  hoare anything (attempt f) no_exit anything.
Proof. now apply hoare_attempt. Qed.

Lemma no_exit_ret {A} (a : A) : hoare anything (mret a) no_exit anything.
Proof. now apply hoare_ret. Qed.

Ltac no_exit_step :=
  lazymatch goal with
  | |- hoare _ (mbind _ _) _ _ => apply no_exit_bind; [|intros ?]
  | |- hoare _ (console_log _) _ _ => apply no_exit_log
  | |- hoare _ (observe _) _ _ => apply no_exit_observe
  | |- hoare _ (attempt _) _ _ => apply no_exit_attempt
  | |- hoare _ (mret _) _ _ => apply no_exit_ret
  | |- hoare _ (mutate _) _ _ => apply no_exit_mutate
  | |- hoare _ (if ?b then _ else _) _ _ => destruct b
  end.

Lemma cleanup_no_exit root :
  (forall cn, hoare anything (Frontend.cleanup root cn) no_exit anything)
  /\ (forall id, hoare anything (Backend.cleanup root id) no_exit anything).
Proof. split; intros; unfold_steps; repeat no_exit_step. Qed.

(** A run with exit code 0 is a run whose [try] block ends normally. *)
Lemma try_block_success body handler w0 w1 :
  hoare anything body no_exit anything ->
  (forall e w, fst (handler e w) = Exit 1%Z) ->
  run (try_catch body handler) w0 = (0%Z, w1) ->
  body w0 = (Done tt, w1).
Proof.
  intros Hn Hh Hr. destruct (Hn w0 I) as [Hq _].
  unfold run, try_catch in Hr. destruct (body w0) as [[[]|e|c] w'] eqn:Hb.
  - now inversion Hr.
  - specialize (Hh e w'). destruct (handler e w') as [r w'']. cbn in Hh. subst r.
    inversion Hr.
  - contradiction.
Qed.

Lemma failed_exits : 
  (forall w, fst (Frontend.failed w) = Exit 1%Z)
  /\ (forall w, fst (Backend.failed w) = Exit 1%Z).
Proof. split; intros w; reflexivity. Qed.

Section FrontendRuns.

Variable unicode_upper : code_unit -> jsstring.

(** A valid package gets to the [try]. *)
Lemma frontend_main_valid pluginPath manifest w id :
  valid_package pluginPath manifest (disk w) (Some (JStr id)) ->
  exists w0, disk w0 = disk w /\ snaps w0 = snaps w
    /\ Frontend.main unicode_upper (Some pluginPath) manifest w
       = try_catch (Frontend.cleanup pluginPath (Frontend.componentName unicode_upper id))
           (fun _ => Frontend.failed) w0.
Proof.
  intros Hv. pose proof (frontend_validate_valid unicode_upper _ _ _ _ Hv) as Hd.
  destruct (frontend_validate_quiet unicode_upper (Some pluginPath) manifest w)
    as [Hs Hk].
  unfold Frontend.main. unfold mbind at 1. unfold M_bind, bind.
  destruct (Frontend.validate unicode_upper (Some pluginPath) manifest w) as [r w0].
  cbn [fst snd] in *. subst r. now exists w0.
Qed.

Lemma frontend_success pluginPath manifest w w1 id :
  valid_package pluginPath manifest (disk w) (Some (JStr id)) ->
  run (Frontend.main unicode_upper (Some pluginPath) manifest) w = (0%Z, w1) ->
  exists w0, disk w0 = disk w /\ snaps w0 = snaps w
    /\ Frontend.cleanup pluginPath (Frontend.componentName unicode_upper id) w0
       = (Done tt, w1).
Proof.
  intros Hv Hr. destruct (frontend_main_valid _ _ _ _ Hv) as (w0 & Hd & Hs & Hm).
  exists w0. split; [assumption|]. split; [assumption|].
  unfold run in Hr. rewrite Hm in Hr.
  eapply try_block_success; [apply cleanup_no_exit| |exact Hr].
  intros e w'. apply failed_exits.
Qed.

End FrontendRuns.

Lemma backend_success pluginPath manifest w w1 id :
  valid_package pluginPath manifest (disk w) id ->
  run (Backend.main (Some pluginPath) manifest) w = (0%Z, w1) ->
  exists w0, disk w0 = disk w /\ snaps w0 = snaps w
    /\ Backend.cleanup pluginPath id w0 = (Done tt, w1).
Proof.
  intros Hv Hr. destruct (backend_main_valid _ _ _ _ Hv) as (w0 & Hd & Hs & Hm).
  exists w0. split; [assumption|]. split; [assumption|].
  unfold run in Hr. rewrite Hm in Hr.
  eapply try_block_success; [apply cleanup_no_exit| |exact Hr].
  intros e w'. apply failed_exits.
Qed.

(** A package that is valid before a run is valid after it. *)
Lemma valid_package_kept pluginPath manifest d d' id :
  valid_package pluginPath manifest d id ->
  node_at (pluginPath ++ [lit "package.json"]) d'
  = node_at (pluginPath ++ [lit "package.json"]) d ->
  valid_package pluginPath manifest d' id.
Proof.
  intros (H1 & [text H2] & H3 & H4 & H5) Hk. rewrite <- Hk in H2.
  split; [|split; [eauto|split; [exact H3|split; [exact H4|exact H5]]]].
  apply existsSync_true. eapply node_at_prefix; [exact H2|].
  now apply prefix_app_r.
Qed.

(** ** A second run *)

Lemma bind_run {A B} (m : M A) (k : A -> M B) w a w1 :
  m w = (Done a, w1) -> (m ≫= k) w = k a w1.
Proof. intros H. unfold mbind, M_bind, bind. now rewrite H. Qed.

Lemma log_run l w :
  console_log l w = (Done tt, Sys (disk w) (snaps w) (out w ++ [(Stdout, l)])).
Proof. reflexivity. Qed.

(** The steps of the frontend script on a disk on which their targets are
    absent. *)
Lemma frontend_plugin_step_absent root cn w :
  absent (Frontend.pluginFilePath root) (disk w) ->
  exists o, Frontend.update_plugin_file root cn w
            = (Done tt, Sys (disk w) (snaps w) o).
Proof.
  intros H. apply existsSync_false in H. unfold Frontend.update_plugin_file.
  run_monad. rewrite H. eauto.
Qed.

Lemma frontend_plugin_step_file root cn w c :
  is_file (Frontend.pluginFilePath root) c (disk w) ->
  exists d' o,
    writeFileSync (Frontend.pluginFilePath root) (Frontend.pluginContent cn c) (disk w)
    = Some d'
    /\ Frontend.update_plugin_file root cn w
       = (Done tt, Sys d' (snaps w ++ [d']) o).
Proof.
  intros H. unfold is_file in H.
  destruct (write_total (Frontend.pluginFilePath root)
              (Frontend.pluginContent cn c) c (disk w)) as [d' Hd'];
    [fixed_name|apply app_cons_nonempty|exact H|].
  exists d'. unfold Frontend.update_plugin_file. run_monad.
  assert (existsSync (Frontend.pluginFilePath root) (disk w) = true) as ->
    by (apply existsSync_true; eauto).
  cbn. unfold readFileSync. rewrite H. unfold mutate. cbn.
  rewrite Hd'. eauto.
Qed.

Lemma frontend_report_run cn w :
  exists o, Frontend.report cn w = (Done tt, Sys (disk w) (snaps w) o).
Proof. unfold Frontend.report. run_monad. eauto. Qed.

Lemma frontend_junk_step_skips root w :
  absent (Frontend.devDir root) (disk w) ->
  absent (Frontend.pluginTestPath root) (disk w) ->
  exists o, Frontend.remove_junk_files root w = (Done tt, Sys (disk w) (snaps w) o).
Proof.
  intros H1 H2.
  destruct (removal_steps_skip root w) as (_ & H & _).
  rewrite (H H1 H2). eauto.
Qed.

Lemma frontend_fetch_step_skips root w :
  absent (Frontend.exampleFetchDir root) (disk w) ->
  exists o, Frontend.remove_fetch_component root w
            = (Done tt, Sys (disk w) (snaps w) o).
Proof.
  intros H1. destruct (removal_steps_skip root w) as (H & _).
  rewrite (H H1). eauto.
Qed.

Lemma rename_block_skips root cn w :
  absent (Frontend.exampleComponentDir root) (disk w) ->
  Frontend.rename_component root cn w = (Done tt, w).
Proof. intros H. now apply rename_block_absent. Qed.

(** On a clean package the [try] block of the frontend script ends
    normally, and the one thing it writes is plugin.ts, if it is there. *)
Lemma frontend_cleanup_on_clean root cn w :
  frontend_clean root (disk w) ->
  exists w', Frontend.cleanup root cn w = (Done tt, w')
    /\ ((absent (Frontend.pluginFilePath root) (disk w)
         /\ disk w' = disk w /\ snaps w' = snaps w)
        \/ (exists c,
              is_file (Frontend.pluginFilePath root) c (disk w)
              /\ writeFileSync (Frontend.pluginFilePath root)
                   (Frontend.pluginContent cn c) (disk w) = Some (disk w')
              /\ snaps w' = snaps w ++ [disk w'])).
Proof.
  intros (HF & HE & HD & HT & HP). unfold Frontend.cleanup.
  destruct (frontend_fetch_step_skips root w HF) as [o1 H1].
  rewrite (bind_run _ _ _ _ _ H1).
  rewrite (bind_run _ _ _ _ _ (log_run _ _)). cbn [disk snaps out].
  match goal with
  | |- context [mbind _ (Frontend.rename_component root cn) ?w1] =>
      rewrite (bind_run _ _ w1 _ _ (rename_block_skips root cn w1 HE))
  end.
  destruct HP as [HP|[c HP]].
  - match goal with
    | |- context [mbind _ (Frontend.update_plugin_file root cn) ?w1] =>
        destruct (frontend_plugin_step_absent root cn w1 HP) as [o2 H2];
        rewrite (bind_run _ _ w1 _ _ H2)
    end.
    cbn [disk snaps out].
    match goal with
    | |- context [mbind _ (Frontend.remove_junk_files root) ?w1] =>
        destruct (frontend_junk_step_skips root w1 HD HT) as [o3 H3];
        rewrite (bind_run _ _ w1 _ _ H3)
    end.
    cbn [disk snaps out].
    match goal with
    | |- context [Frontend.report cn ?w1] =>
        destruct (frontend_report_run cn w1) as [o4 H4]; rewrite H4
    end.
    eexists. split; [reflexivity|]. left. auto.
  - match goal with
    | |- context [mbind _ (Frontend.update_plugin_file root cn) ?w1] =>
        destruct (frontend_plugin_step_file root cn w1 c HP) as (d' & o2 & Hw & H2);
        rewrite (bind_run _ _ w1 _ _ H2)
    end.
    cbn [disk snaps out] in *.
    assert (absent (Frontend.devDir root) d') as HD'.
    { unfold absent in *. eapply write_absent; [exact Hw| |exact HD]. last_differ. }
    assert (absent (Frontend.pluginTestPath root) d') as HT'.
    { unfold absent in *. eapply write_absent; [exact Hw| |exact HT]. last_differ. }
    match goal with
    | |- context [mbind _ (Frontend.remove_junk_files root) ?w1] =>
        destruct (frontend_junk_step_skips root w1 HD' HT') as [o3 H3];
        rewrite (bind_run _ _ w1 _ _ H3)
    end.
    cbn [disk snaps out].
    match goal with
    | |- context [Frontend.report cn ?w1] =>
        destruct (frontend_report_run cn w1) as [o4 H4]; rewrite H4
    end.
    eexists. split; [reflexivity|]. right. exists c. cbn [disk snaps]. auto.
Qed.

Lemma try_block_done body handler w w' :
  body w = (Done tt, w') -> run (try_catch body handler) w = (0%Z, w').
Proof. intros H. unfold run, try_catch. now rewrite H. Qed.

Section FrontendSecondRun.

Variable unicode_upper : code_unit -> jsstring.

Lemma frontend_second_run pluginPath manifest w w1 id :
  valid_package pluginPath manifest (disk w) (Some (JStr id)) ->
  run (Frontend.main unicode_upper (Some pluginPath) manifest) w = (0%Z, w1) ->
  exists w2,
    run (Frontend.main unicode_upper (Some pluginPath) manifest) w1 = (0%Z, w2)
    /\ (disk w2 = disk w1 <->
        forall c, is_file (Frontend.pluginFilePath pluginPath) c (disk w1) ->
                  Frontend.pluginContent
                    (Frontend.componentName unicode_upper id) c = c)
    /\ exists new, snaps w2 = snaps w1 ++ new
                   /\ (length new <= 1)%nat /\ Forall (fun d => d = disk w2) new.
Proof.
  intros Hv Hr.
  destruct (frontend_success unicode_upper _ _ _ _ _ Hv Hr) as (w0 & Hd0 & _ & Hc).
  set (cn := Frontend.componentName unicode_upper id) in *.
  (* the disk after the first run *)
  assert (frontend_clean pluginPath (disk w1)) as Hclean.
  { pose proof (frontend_cleanup_cleans pluginPath
                  (toPascalCase unicode_upper id) w0 I) as [Hq _].
    change (toPascalCase unicode_upper id ++ lit "Page") with cn in Hq.
    rewrite Hc in Hq. exact Hq. }
  assert (valid_package pluginPath manifest (disk w1) (Some (JStr id))) as Hv1.
  { eapply valid_package_kept; [exact Hv|].
    destruct Hv as (_ & [text Ht] & _).
    pose proof (frontend_cleanup_keeps_manifest pluginPath
                  (toPascalCase unicode_upper id) text w0) as Hk.
    change (toPascalCase unicode_upper id ++ lit "Page") with cn in Hk.
    cbv zeta in Hk. unfold Frontend.packageJsonPath in Hk.
    rewrite Hd0 in Hk. destruct (Hk Ht) as [Hq _]. rewrite Hc in Hq.
    unfold always in Hq. cbn in Hq. congruence. }
  (* the second run *)
  destruct (frontend_main_valid unicode_upper _ _ _ _ Hv1) as (w3 & Hd3 & Hs3 & Hm).
  fold cn in Hm. rewrite <- Hd3 in Hclean.
  destruct (frontend_cleanup_on_clean pluginPath cn w3 Hclean) as (w2 & Hc2 & Hcase).
  exists w2. split.
  { unfold run. rewrite Hm. now apply try_block_done. }
  rewrite <- Hd3, <- Hs3.
  destruct Hcase as [(Ha & Hd & Hs)|(c & Hf & Hw & Hs)].
  - split.
    + split; [|auto]. intros _ c Hc'. unfold absent, is_file in *. congruence.
    + exists []. rewrite app_nil_r. repeat split; auto.
  - split.
    + split.
      * intros He c' Hc'. unfold is_file in *.
        assert (c' = c) as -> by congruence.
        pose proof (write_at _ _ _ _ Hw) as Hat. rewrite He, Hf in Hat.
        congruence.
      * intros Hst. specialize (Hst c Hf). rewrite Hst in Hw.
        rewrite write_same in Hw;
          [now inversion Hw|fixed_name|apply app_cons_nonempty|exact Hf].
    + exists [disk w2]. repeat split; auto.
Qed.

End FrontendSecondRun.

(** *** The backend script *)

(** An invariant made of absent paths and files is kept by a step that
    keeps each of them. *)
Ltac keeps :=
  lazymatch goal with
  | |- hoare (fun d => _ /\ _) _ _ _ =>
      eapply (hoare_always_conj _ _ _ anything anything); keeps
  | |- hoare (fun d => absent _ d \/ exists c, is_file _ c d) _ _ _ =>
      eapply (file_or_absent_kept _ _ anything anything); [keeps|intros ?; keeps]
  | |- hoare (fun d => absent _ d \/ is_file _ _ d) _ _ _ =>
      eapply (hoare_always_or _ _ _ anything anything); keeps
  | |- _ => solve [frame_proof]
  end.

Lemma backend_router_step_settles root :
  hoare anything (Backend.simplify_router root)
    (on_done (fun _ d => absent (Backend.routerPath root) d
                         \/ is_file (Backend.routerPath root) Backend.simpleRouter d))
    anything.
Proof.
  unfold Backend.simplify_router.
  eapply hoare_bind_done; [apply hoare_surely_done, hoare_log_sp|].
  intros ?; cbv beta.
  eapply hoare_bind_done; [apply hoare_surely_done, hoare_observe_sp|].
  intros b. destruct b.
  - eapply hoare_bind_done with
      (Q1 := fun _ => is_file (Backend.routerPath root) Backend.simpleRouter).
    + apply hoare_mutate; [|now intros].
      intros d d' _ Hf. split; [|exact I]. eapply write_at, Hf.
    + intros ?. apply hoare_log. intros d H. now right.
  - apply hoare_ret. intros d [_ Hb]. left. now apply existsSync_false in Hb.
Qed.

Lemma backend_plugin_step_settles root :
  hoare anything (Backend.update_plugin_file root)
    (on_done (fun _ d => absent (Backend.pluginFilePath root) d
                         \/ exists c, is_file (Backend.pluginFilePath root) c d))
    anything.
Proof.
  unfold Backend.update_plugin_file.
  eapply hoare_bind_done; [apply hoare_surely_done, hoare_log_sp|].
  intros ?; cbv beta.
  eapply hoare_bind_done; [apply hoare_surely_done, hoare_observe_sp|].
  intros b. destruct b.
  - eapply hoare_bind_done; [apply hoare_attempt_sp|]. intros c; cbv beta.
    eapply hoare_bind_done with
      (Q1 := fun _ d => exists c, is_file (Backend.pluginFilePath root) c d).
    + apply hoare_mutate; [|now intros].
      intros d d' _ Hf. split; [|exact I]. eexists. eapply write_at, Hf.
    + intros ?. apply hoare_log. intros d H. now right.
  - apply hoare_ret. intros d [_ Hb]. left. now apply existsSync_false in Hb.
Qed.

Lemma hoare_settle {A} J (m : M A) (Q : node -> Prop) :
  hoare J m (always J) anything -> hoare anything m (on_done (fun _ => Q)) anything ->
  hoare J m (on_done (fun _ d => J d /\ Q d)) anything.
Proof.
  intros H1 H2. eapply hoare_conseq; [apply (hoare_frame_done _ _ _ _ _ _ H1 H2)|..];
    auto. intros d H. split; [exact H|exact I].
Qed.

Lemma backend_cleanup_cleans root id :
  hoare anything (Backend.cleanup root id)
    (on_done (fun _ => backend_clean root)) anything.
Proof.
  set (SV := Backend.servicesDir root).
  set (R := Backend.routerPath root).
  set (P := Backend.pluginFilePath root).
  set (PT := Backend.pluginTestPath root).
  set (RT := Backend.routerTestPath root).
  set (DV := Backend.devDir root).
  set (router_ok := fun d => absent R d \/ is_file R Backend.simpleRouter d).
  set (plugin_ok := fun d => absent P d \/ exists c, is_file P c d).
  unfold Backend.cleanup.
  eapply hoare_bind_done with (Q1 := fun _ => absent SV).
  { unfold Backend.remove_services.
    eapply hoare_bind_done; [apply hoare_surely_done, hoare_log_sp|].
    intros ?; cbv beta. apply remove_tree_absent. }
  intros ?. eapply hoare_bind_done with
    (Q1 := fun _ d => absent SV d /\ router_ok d).
  { apply (hoare_settle (absent SV)); [subst SV; keeps|].
    apply backend_router_step_settles. }
  intros ?. eapply hoare_bind_done with
    (Q1 := fun _ d => (absent SV d /\ router_ok d) /\ plugin_ok d).
  { apply (hoare_settle (fun d => absent SV d /\ router_ok d));
      [subst SV router_ok R; keeps|].
    apply backend_plugin_step_settles. }
  intros ?. eapply hoare_bind_done with
    (Q1 := fun _ d => (((absent SV d /\ router_ok d) /\ plugin_ok d)
                       /\ absent PT d) /\ absent RT d).
  { unfold Backend.remove_tests.
    eapply hoare_bind_done with
      (Q1 := fun _ d => (absent SV d /\ router_ok d) /\ plugin_ok d);
      [now apply hoare_log|].
    intros ?. eapply hoare_bind_done with
      (Q1 := fun _ d => ((absent SV d /\ router_ok d) /\ plugin_ok d) /\ absent PT d).
    { apply (hoare_settle
               (fun d => (absent SV d /\ router_ok d) /\ plugin_ok d));
        [subst SV router_ok plugin_ok R P PT; keeps|].
      apply remove_file_absent. }
    intros ?.
    apply (hoare_settle
             (fun d => ((absent SV d /\ router_ok d) /\ plugin_ok d) /\ absent PT d));
      [subst SV router_ok plugin_ok R P PT RT; keeps|].
    apply remove_file_absent. }
  intros ?. eapply hoare_bind_done with (Q1 := fun _ => backend_clean root).
  { unfold Backend.remove_dev.
    eapply hoare_conseq;
      [apply (hoare_settle
                (fun d => (((absent SV d /\ router_ok d) /\ plugin_ok d)
                           /\ absent PT d) /\ absent RT d));
       [subst SV router_ok plugin_ok R P PT RT; keeps|apply remove_tree_absent]
      |..]; auto.
    intros r d H. destruct r; [|exact I..]. cbn in *.
    unfold backend_clean. tauto. }
  intros ?. eapply hoare_always_done, backend_report_keeps.
Qed.

Lemma backend_router_step_on_clean root w :
  absent (Backend.routerPath root) (disk w)
  \/ is_file (Backend.routerPath root) Backend.simpleRouter (disk w) ->
  exists new o,
    Backend.simplify_router root w = (Done tt, Sys (disk w) (snaps w ++ new) o)
    /\ (length new <= 1)%nat /\ Forall (fun d => d = disk w) new.
Proof.
  intros [H|H]; unfold Backend.simplify_router; run_monad.
  - apply existsSync_false in H. rewrite H.
    exists [], (out w ++ [(Stdout, [Nl; Txt "🔧 Simplifying router.ts..."])]).
    rewrite app_nil_r. split; [reflexivity|]. split; [simpl; lia|constructor].
  - assert (existsSync (Backend.routerPath root) (disk w) = true) as ->
      by (apply existsSync_true; eauto).
    cbn. unfold mutate. cbn.
    rewrite write_same; [|fixed_name|apply app_cons_nonempty|exact H].
    eexists [disk w], _. split; [reflexivity|]. split; [simpl; lia|].
    now constructor.
Qed.

Lemma backend_plugin_step_absent root w :
  absent (Backend.pluginFilePath root) (disk w) ->
  exists o, Backend.update_plugin_file root w = (Done tt, Sys (disk w) (snaps w) o).
Proof.
  intros H. apply existsSync_false in H. unfold Backend.update_plugin_file.
  run_monad. rewrite H. eauto.
Qed.

Lemma backend_plugin_step_file root w c :
  is_file (Backend.pluginFilePath root) c (disk w) ->
  exists d' o,
    writeFileSync (Backend.pluginFilePath root) (Backend.pluginContent c) (disk w)
    = Some d'
    /\ Backend.update_plugin_file root w = (Done tt, Sys d' (snaps w ++ [d']) o).
Proof.
  intros H. unfold is_file in H.
  destruct (write_total (Backend.pluginFilePath root)
              (Backend.pluginContent c) c (disk w)) as [d' Hd'];
    [fixed_name|apply app_cons_nonempty|exact H|].
  exists d'. unfold Backend.update_plugin_file. run_monad.
  assert (existsSync (Backend.pluginFilePath root) (disk w) = true) as ->
    by (apply existsSync_true; eauto).
  cbn. unfold readFileSync. rewrite H. unfold mutate. cbn.
  rewrite Hd'. eauto.
Qed.

Lemma backend_report_run id w :
  exists o, Backend.report id w = (Done tt, Sys (disk w) (snaps w) o).
Proof. unfold Backend.report. run_monad. eauto. Qed.

Lemma backend_services_step_skips root w :
  absent (Backend.servicesDir root) (disk w) ->
  exists o, Backend.remove_services root w = (Done tt, Sys (disk w) (snaps w) o).
Proof.
  intros H1. destruct (removal_steps_skip root w) as (_ & _ & H & _).
  rewrite (H H1). eauto.
Qed.

Lemma backend_tests_step_skips root w :
  absent (Backend.pluginTestPath root) (disk w) ->
  absent (Backend.routerTestPath root) (disk w) ->
  exists o, Backend.remove_tests root w = (Done tt, Sys (disk w) (snaps w) o).
Proof.
  intros H1 H2. destruct (removal_steps_skip root w) as (_ & _ & _ & H & _).
  rewrite (H H1 H2). eauto.
Qed.

Lemma backend_dev_step_skips root w :
  absent (Backend.devDir root) (disk w) ->
  Backend.remove_dev root w = (Done tt, w).
Proof.
  intros H1. destruct (removal_steps_skip root w) as (_ & _ & _ & _ & H).
  now apply H.
Qed.

(** On a clean package the [try] block of the backend script ends
    normally; it writes router.ts with the text it has, and plugin.ts. *)
Lemma backend_cleanup_on_clean root id w :
  backend_clean root (disk w) ->
  exists w', Backend.cleanup root id w = (Done tt, w')
    /\ (exists new, snaps w' = snaps w ++ new
                    /\ (length new <= 2)%nat
                    /\ Forall (fun d => d = disk w \/ d = disk w') new)
    /\ ((absent (Backend.pluginFilePath root) (disk w) /\ disk w' = disk w)
        \/ (exists c,
              is_file (Backend.pluginFilePath root) c (disk w)
              /\ writeFileSync (Backend.pluginFilePath root)
                   (Backend.pluginContent c) (disk w) = Some (disk w'))).
Proof.
  intros (HS & HT & HR & HD & HRo & HP). unfold Backend.cleanup.
  destruct (backend_services_step_skips root w HS) as [o1 H1].
  rewrite (bind_run _ _ _ _ _ H1).
  match goal with
  | |- context [mbind _ (Backend.simplify_router root) ?w1] =>
      destruct (backend_router_step_on_clean root w1 HRo)
        as (new1 & o2 & H2 & Hl1 & Hn1);
      rewrite (bind_run _ _ w1 _ _ H2)
  end.
  cbn [disk snaps out] in *.
  destruct HP as [HP|[c HP]].
  - match goal with
    | |- context [mbind _ (Backend.update_plugin_file root) ?w1] =>
        destruct (backend_plugin_step_absent root w1 HP) as [o3 H3];
        rewrite (bind_run _ _ w1 _ _ H3)
    end.
    cbn [disk snaps out].
    match goal with
    | |- context [mbind _ (Backend.remove_tests root) ?w1] =>
        destruct (backend_tests_step_skips root w1 HT HR) as [o4 H4];
        rewrite (bind_run _ _ w1 _ _ H4)
    end.
    cbn [disk snaps out].
    match goal with
    | |- context [mbind _ (Backend.remove_dev root) ?w1] =>
        rewrite (bind_run _ _ w1 _ _ (backend_dev_step_skips root w1 HD))
    end.
    match goal with
    | |- context [Backend.report id ?w1] =>
        destruct (backend_report_run id w1) as [o5 H5]; rewrite H5
    end.
    eexists. split; [reflexivity|]. cbn [disk snaps]. split.
    + exists new1. repeat split; [lia|].
      eapply Forall_impl; [exact Hn1|]. intros d ->. now left.
    + left. auto.
  - match goal with
    | |- context [mbind _ (Backend.update_plugin_file root) ?w1] =>
        destruct (backend_plugin_step_file root w1 c HP) as (d' & o3 & Hw & H3);
        rewrite (bind_run _ _ w1 _ _ H3)
    end.
    cbn [disk snaps out] in *.
    assert (absent (Backend.pluginTestPath root) d') as HT'.
    { unfold absent in *. eapply write_absent; [exact Hw| |exact HT]. last_differ. }
    assert (absent (Backend.routerTestPath root) d') as HR'.
    { unfold absent in *. eapply write_absent; [exact Hw| |exact HR]. last_differ. }
    assert (absent (Backend.devDir root) d') as HD'.
    { unfold absent in *. eapply write_absent; [exact Hw| |exact HD]. last_differ. }
    match goal with
    | |- context [mbind _ (Backend.remove_tests root) ?w1] =>
        destruct (backend_tests_step_skips root w1 HT' HR') as [o4 H4];
        rewrite (bind_run _ _ w1 _ _ H4)
    end.
    cbn [disk snaps out].
    match goal with
    | |- context [mbind _ (Backend.remove_dev root) ?w1] =>
        rewrite (bind_run _ _ w1 _ _ (backend_dev_step_skips root w1 HD'))
    end.
    match goal with
    | |- context [Backend.report id ?w1] =>
        destruct (backend_report_run id w1) as [o5 H5]; rewrite H5
    end.
    eexists. split; [reflexivity|]. cbn [disk snaps]. split.
    + exists (new1 ++ [d']). rewrite app_assoc. repeat split.
      * rewrite length_app. simpl. lia.
      * apply Forall_app. split; [|constructor; auto].
        eapply Forall_impl; [exact Hn1|]. intros d ->. now left.
    + right. exists c. auto.
Qed.

Lemma backend_second_run pluginPath manifest w w1 id :
  valid_package pluginPath manifest (disk w) id ->
  run (Backend.main (Some pluginPath) manifest) w = (0%Z, w1) ->
  exists w2,
    run (Backend.main (Some pluginPath) manifest) w1 = (0%Z, w2)
    /\ (disk w2 = disk w1 <->
        forall c, is_file (Backend.pluginFilePath pluginPath) c (disk w1) ->
                  Backend.pluginContent c = c)
    /\ exists new, snaps w2 = snaps w1 ++ new
                   /\ (length new <= 2)%nat
                   /\ Forall (fun d => d = disk w1 \/ d = disk w2) new.
Proof.
  intros Hv Hr.
  destruct (backend_success _ _ _ _ _ Hv Hr) as (w0 & Hd0 & _ & Hc).
  assert (backend_clean pluginPath (disk w1)) as Hclean.
  { pose proof (backend_cleanup_cleans pluginPath id w0 I) as [Hq _].
    rewrite Hc in Hq. exact Hq. }
  assert (valid_package pluginPath manifest (disk w1) id) as Hv1.
  { eapply valid_package_kept; [exact Hv|].
    destruct Hv as (_ & [text Ht] & _).
    pose proof (backend_cleanup_keeps_manifest pluginPath id text w0) as Hk.
    cbv zeta in Hk. unfold Backend.packageJsonPath in Hk.
    rewrite Hd0 in Hk. destruct (Hk Ht) as [Hq _]. rewrite Hc in Hq.
    unfold always in Hq. cbn in Hq. congruence. }
  destruct (backend_main_valid _ _ _ _ Hv1) as (w3 & Hd3 & Hs3 & Hm).
  rewrite <- Hd3 in Hclean.
  destruct (backend_cleanup_on_clean pluginPath id w3 Hclean)
    as (w2 & Hc2 & Hnew & Hcase).
  exists w2. split.
  { unfold run. rewrite Hm. now apply try_block_done. }
  rewrite <- Hd3, <- Hs3. split; [|exact Hnew].
  destruct Hcase as [(Ha & Hd)|(c & Hf & Hw)].
  - split; [|auto]. intros _ c Hc'. unfold absent, is_file in *. congruence.
  - split.
    + intros He c' Hc'. unfold is_file in *.
      assert (c' = c) as -> by congruence.
      pose proof (write_at _ _ _ _ Hw) as Hat. rewrite He, Hf in Hat.
      congruence.
    + intros Hst. specialize (Hst c Hf). rewrite Hst in Hw.
      rewrite write_same in Hw;
          [now inversion Hw|fixed_name|apply app_cons_nonempty|exact Hf].
Qed.

(** ** The renamed unit after a successful frontend run *)

Section RenamedUnit.

Variables (root : path) (name : jsstring).

Let cn := name ++ lit "Page".

Hypothesis one_segment : ~ In (ch "/") cn.

Let E := Frontend.exampleComponentDir root.
Let N := Frontend.componentsDir root ++ [cn].

Lemma new_dir_segment : Frontend.newComponentDir root cn = N.
Proof.
  unfold Frontend.newComponentDir. apply join_segment; [exact one_segment|].
  subst cn. rewrite length_app.
  change (length (lit "Page")) with 4%nat. lia.
Qed.

Lemma new_component_file_segment :
  Frontend.newComponentFilePath N cn = N ++ [cn ++ lit ".tsx"].
Proof.
  unfold Frontend.newComponentFilePath. apply join_segment.
  - intros H. apply in_app_iff in H as [H|H]; [now apply one_segment|].
    revert H. apply no_slash_lit. reflexivity.
  - rewrite length_app. change (length (lit ".tsx")) with 4%nat. lia.
Qed.

Lemma new_test_file_segment :
  Frontend.newTestFilePath N cn = N ++ [cn ++ lit ".test.tsx"].
Proof.
  unfold Frontend.newTestFilePath. apply join_segment.
  - intros H. apply in_app_iff in H as [H|H]; [now apply one_segment|].
    revert H. apply no_slash_lit. reflexivity.
  - rewrite length_app. change (length (lit ".test.tsx")) with 9%nat. lia.
Qed.

(** The three files of the placeholder directory after the block. *)
Lemma rename_block_moves c t i :
  hoare (fun d => is_file (E ++ [lit "ExampleComponent.tsx"]) c d
                  /\ is_file (E ++ [lit "ExampleComponent.test.tsx"]) t d
                  /\ is_file (E ++ [lit "index.ts"]) i d)
    (Frontend.rename_component root cn)
    (on_done (fun _ d =>
       is_file (N ++ [cn ++ lit ".tsx"]) (Frontend.content cn c) d
       /\ is_file (N ++ [cn ++ lit ".test.tsx"]) (Frontend.testContent cn t) d
       /\ is_file (N ++ [lit "index.ts"]) (Frontend.indexContent cn i) d))
    anything.
Proof.
  pose proof (hoare_conj _ _ _ _ _ _ _
                (rename_block_keeps_component root name c)
                (hoare_conj _ _ _ _ _ _ _
                   (rename_block_keeps_test root name t)
                   (rename_block_rewrites_index root name i))) as H.
  fold cn in H. rewrite new_dir_segment in H.
  rewrite new_component_file_segment, new_test_file_segment in H.
  eapply hoare_conseq; [exact H|..].
  - intros d Hd. exact Hd.
  - intros r d Hq. destruct r; [|exact I..]. exact Hq.
  - intros d _. exact I.
Qed.

(** What follows the block leaves a file of the new directory alone. *)
Lemma after_rename_keeps f x :
  hoare (is_file (N ++ [f]) x)
    (Frontend.update_plugin_file root cn;;
     Frontend.remove_junk_files root;;
     Frontend.report cn)
    (always (is_file (N ++ [f]) x)) anything.
Proof.
  assert (N ++ [f] <> Frontend.pluginFilePath root) as H1.
  { subst N. unfold_paths. intros H. apply (f_equal (@length _)) in H.
    rewrite !length_app in H. cbn in H. lia. }
  assert (N ++ [f] <> Frontend.pluginTestPath root) as H2.
  { subst N. unfold_paths. intros H. apply (f_equal (@length _)) in H.
    rewrite !length_app in H. cbn in H. lia. }
  assert (~ Frontend.devDir root `prefix_of` N ++ [f]) as H3.
  { subst N. unfold_paths. rewrite <- !app_assoc. cbn [app].
    intros H. apply prefix_app_inv in H. destruct H as [k H].
    apply (f_equal head) in H. vm_compute in H. discriminate. }
  apply hoare_bind_always; [now apply frontend_plugin_step_keeps_file|intros _].
  apply hoare_bind_always; [|intros _; apply frontend_report_keeps].
  unfold Frontend.remove_junk_files.
  apply hoare_bind_always; [apply log_keeps|intros _].
  apply hoare_bind_always; [now apply remove_tree_keeps_file|intros _].
  now apply remove_file_keeps_file.
Qed.

Lemma cleanup_renames c t i :
  hoare (fun d => is_file (E ++ [lit "ExampleComponent.tsx"]) c d
                  /\ is_file (E ++ [lit "ExampleComponent.test.tsx"]) t d
                  /\ is_file (E ++ [lit "index.ts"]) i d)
    (Frontend.cleanup root cn)
    (on_done (fun _ d =>
       is_file (N ++ [cn ++ lit ".tsx"]) (Frontend.content cn c) d
       /\ is_file (N ++ [cn ++ lit ".test.tsx"]) (Frontend.testContent cn t) d
       /\ is_file (N ++ [lit "index.ts"]) (Frontend.indexContent cn i) d))
    anything.
Proof.
  set (P := fun d => is_file (E ++ [lit "ExampleComponent.tsx"]) c d
                  /\ is_file (E ++ [lit "ExampleComponent.test.tsx"]) t d
                  /\ is_file (E ++ [lit "index.ts"]) i d).
  assert (forall k x, hoare (is_file (E ++ [k]) x)
            (Frontend.remove_fetch_component root)
            (always (is_file (E ++ [k]) x)) anything) as Hfetch.
  { intros k x. unfold Frontend.remove_fetch_component.
    apply hoare_bind_always; [apply log_keeps|intros _].
    apply remove_tree_keeps_file. subst E. unfold_paths.
    rewrite <- !app_assoc. cbn [app]. intros H.
    apply prefix_app_inv in H. destruct H as [j H].
    apply (f_equal (fun l => l !! 2%nat)) in H. vm_compute in H. discriminate. }
  unfold Frontend.cleanup.
  eapply hoare_bind_done with (Q1 := fun _ => P).
  { apply hoare_always_done with (S := anything).
    apply (hoare_always_conj _ _ _ anything anything); [apply Hfetch|].
    apply (hoare_always_conj _ _ _ anything anything); apply Hfetch. }
  intros _. eapply hoare_bind_done with (Q1 := fun _ => P);
    [now apply hoare_log|intros _].
  eapply hoare_bind_done; [apply rename_block_moves|intros ?; cbv beta].
  apply hoare_always_done with (S := anything).
  apply (hoare_always_conj _ _ _ anything anything); [apply after_rename_keeps|].
  apply (hoare_always_conj _ _ _ anything anything); apply after_rename_keeps.
Qed.

End RenamedUnit.

(** ** The scripts on the sample packages *)

Lemma sample_frontend_valid id0 id :
  valid_package Sample.root (Sample.manifest (String id0 id)) Sample.frontend
    (Some (JStr (lit (String id0 id)))).
Proof.
  split; [vm_compute; reflexivity|].
  split; [eexists; vm_compute; reflexivity|].
  split; [eexists; split; [reflexivity|reflexivity]|].
  split; reflexivity.
Qed.

Lemma sample_backend_valid id0 id :
  valid_package Sample.root (Sample.manifest (String id0 id)) Sample.backend
    (Some (JStr (lit (String id0 id)))).
Proof.
  split; [vm_compute; reflexivity|].
  split; [eexists; vm_compute; reflexivity|].
  split; [eexists; split; [reflexivity|reflexivity]|].
  split; reflexivity.
Qed.

(** C1 does not hold of the frontend script.  On the scaffolded package
    with the plugin id example-component, which is a valid package, both
    runs succeed, and the second one rewrites the member that the first
    one wrote in plugin.ts: the tree after two runs is not the tree after
    one. *)
Theorem second_run_changes_plugin_file :
  let script := Sample.frontend_script "example-component" in
  let once := run script (boot Sample.frontend) in
  let twice := run script (snd once) in
  valid_package Sample.root (Sample.manifest "example-component") Sample.frontend
    (Some (JStr (lit "example-component")))
  /\ fst once = 0%Z
  /\ fst twice = 0%Z
  /\ node_at (Frontend.pluginFilePath Sample.root) (disk (snd once))
     = Some (Sample.text
         "export const DemoPage = demoPlugin.provide(createRoutableExtension({
  component: () => import('./components/ExampleComponentPage').then(m => m.ExampleComponentPage),
}));
")
  /\ node_at (Frontend.pluginFilePath Sample.root) (disk (snd twice))
     = Some (Sample.text
         "export const DemoPage = demoPlugin.provide(createRoutableExtension({
  component: () => import('./components/ExampleComponentPage').then(m => m.ExampleComponentPagePage),
}));
")
  /\ disk (snd twice) <> disk (snd once).
Proof.
  intros script once twice.
  assert (node_at (Frontend.pluginFilePath Sample.root) (disk (snd once))
          <> node_at (Frontend.pluginFilePath Sample.root) (disk (snd twice))) as Hne.
  { vm_compute. discriminate. }
  split; [apply sample_frontend_valid|].
  repeat (split; [vm_compute; reflexivity|]).
  intros H. apply Hne. now rewrite H.
Qed.

(** A package without manifest, and the scaffolded package with a manifest
    that has no plugin id: exit code 1, nothing written. *)
Lemma invalid_package_untouched_witness :
  let front := Frontend.main Sample.ascii_only (Some Sample.root) in
  let back := Backend.main (Some Sample.root) in
  (fst (run (front (Sample.manifest "demo")) (boot Sample.no_manifest)) = 1%Z
   /\ disk (snd (run (front (Sample.manifest "demo")) (boot Sample.no_manifest)))
      = Sample.no_manifest
   /\ fst (run (back (Sample.manifest "demo")) (boot Sample.no_manifest)) = 1%Z
   /\ snaps (snd (run (back (Sample.manifest "demo")) (boot Sample.no_manifest))) = [])
  /\ (fst (run (front Sample.manifest_without_id) (boot Sample.frontend)) = 1%Z
      /\ snaps (snd (run (front Sample.manifest_without_id) (boot Sample.frontend))) = []
      /\ fst (run (back Sample.manifest_without_id) (boot Sample.backend)) = 1%Z
      /\ disk (snd (run (back Sample.manifest_without_id) (boot Sample.backend)))
         = Sample.backend).
Proof.
  intros front back. split.
  - destruct (invalid_package_untouched Sample.ascii_only Sample.root
                (Sample.manifest "demo") (boot Sample.no_manifest))
      as ((H1 & H2 & _) & (H3 & _ & H4)).
    + vm_compute. reflexivity.
    + left. vm_compute. reflexivity.
    + split; [exact H1|]. split; [exact H2|]. split; [exact H3|exact H4].
  - destruct (invalid_package_untouched Sample.ascii_only Sample.root
                Sample.manifest_without_id (boot Sample.frontend))
      as ((H1 & _ & H2) & _).
    + vm_compute. reflexivity.
    + right. eexists _, _. split; [reflexivity|]. split; reflexivity.
    + destruct (invalid_package_untouched Sample.ascii_only Sample.root
                  Sample.manifest_without_id (boot Sample.backend))
        as (_ & (H3 & H4 & _)).
      * vm_compute. reflexivity.
      * right. eexists _, _. split; [reflexivity|]. split; reflexivity.
      * split; [exact H1|]. split; [exact H2|]. split; [exact H3|exact H4].
Defined.

(** After a successful run the placeholder name is still in the package:
    with the plugin id example-component in the renamed index.ts, and
    with any plugin id in a file that the script does not rewrite. *)
Lemma placeholder_left_after_success :
  let once := run (Sample.frontend_script "example-component") (boot Sample.frontend) in
  let noted := run (Sample.frontend_script "my-service") (boot Sample.frontend_noted) in
  (fst once = 0%Z
   /\ node_at (Sample.root ++ [lit "src"; lit "components";
                               lit "ExampleComponentPage"; lit "index.ts"])
        (disk (snd once))
      = Some (Sample.text "export { ExampleComponentPage } from './ExampleComponentPagePage';
")
   /\ occurs (lit "ExampleComponent")
        (lit "export { ExampleComponentPage } from './ExampleComponentPagePage';
") = true)
  /\ (fst noted = 0%Z
      /\ node_at (Sample.root ++ [lit "src"; lit "index.ts"]) (disk (snd noted))
         = Some (Sample.text "// DemoPage renders the ExampleComponent")
      /\ occurs (lit "ExampleComponent")
           (lit "// DemoPage renders the ExampleComponent") = true).
Proof. vm_compute. repeat split; reflexivity. Qed.

(** The removal steps on a cleaned package, on the scaffolded backend
    package, and on the frontend package with a directory in the place of
    the plugin test. *)
Lemma removal_steps_outcomes_witness :
  Backend.remove_dev Sample.root (boot Sample.cleaned) = (Done tt, boot Sample.cleaned)
  /\ (exists d',
        Backend.remove_services Sample.root (boot Sample.backend)
        = (Done tt,
           Sys d' [d']
             [(Stdout, [Nl; Txt "📦 Removing example services..."]);
              (Stdout, [Txt "  - Removing services/ (TodoListService with 150+ lines)"])])
        /\ absent (Backend.servicesDir Sample.root
                   ++ [lit "TodoListService"; lit "index.ts"]) d')
  /\ (exists d',
        Backend.remove_dev Sample.root (boot Sample.backend)
        = (Done tt, Sys d' [d'] [(Stdout, [Txt "  - Removing dev/"])])
        /\ absent (Backend.devDir Sample.root ++ [lit "index.ts"]) d')
  /\ fst (Frontend.remove_junk_files Sample.root (boot Sample.frontend_test_dir))
     = Throw SystemError.
Proof.
  destruct (removal_steps_outcomes Sample.root (boot Sample.cleaned))
    as (_ & _ & _ & _ & H5 & _).
  destruct (removal_steps_outcomes Sample.root (boot Sample.backend))
    as (_ & _ & (_ & H3) & _ & (_ & H6)).
  destruct (removal_steps_outcomes Sample.root (boot Sample.frontend_test_dir))
    as (_ & (w1 & _ & _ & _ & _ & _ & H2) & _).
  split; [apply H5; vm_compute; reflexivity|].
  split.
  { destruct (H3 (Sample.folder
                    [("TodoListService"%string,
                      Sample.folder
                        [("index.ts"%string,
                          Sample.text "export { todoListServiceRef } from './createTodoListService';")])]))
      as (d' & Hr & Hgone & _); [vm_compute; reflexivity|].
    exists d'. split; [exact Hr|apply Hgone]. }
  split.
  { destruct (H6 (Sample.folder [("index.ts"%string, Sample.text "backend.start();")]))
      as (d' & Hr & Hgone & _); [vm_compute; reflexivity|].
    exists d'. split; [exact Hr|apply Hgone]. }
  rewrite H2; [reflexivity|].
  exists ∅. vm_compute. reflexivity.
Defined.

(** A directory in the place of the plugin test is a present target that
    the file block does not remove: the step throws, the run ends with
    exit code 1, and the target is still there. *)
Lemma present_target_not_removed :
  let w := boot Sample.frontend_test_dir in
  let r := run (Sample.frontend_script "my-service") w in
  existsSync (Frontend.pluginTestPath Sample.root) (disk w) = true
  /\ fst (Frontend.remove_junk_files Sample.root w) = Throw SystemError
  /\ fst r = 1%Z
  /\ existsSync (Frontend.pluginTestPath Sample.root) (disk (snd r)) = true.
Proof. vm_compute. repeat split; reflexivity. Qed.

(** The rename block on the scaffolded package: every disk written either
    still has the old file or already has the new one. *)
Lemma write_before_delete_witness :
  let cn := lit "MyService" ++ lit "Page" in
  let N := Frontend.newComponentDir Sample.root cn in
  exists new,
    snaps (snd (Frontend.rename_component Sample.root cn (boot Sample.frontend)))
    = [] ++ new
    /\ Forall (fun d => absent (Frontend.componentFilePath N) d ->
                        is_file (Frontend.newComponentFilePath N cn)
                          (Frontend.content cn (lit Sample.component_text)) d) new.
Proof.
  intros cn N.
  apply (proj1 (write_before_delete Sample.root (lit "MyService")
                  (boot Sample.frontend))).
  vm_compute. reflexivity.
Defined.

(** The rename block on a cleaned package, and on a package whose
    placeholder directory has no component file; the step of index.ts
    after the rename on that package. *)
Lemma rename_block_guards_witness :
  let cn := lit "MyServicePage" in
  let E := Frontend.exampleComponentDir Sample.root in
  let N := Frontend.newComponentDir Sample.root cn in
  let w' := snd (mutate (renameSync E N) (boot Sample.frontend_no_component_file)) in
  Frontend.rename_component Sample.root cn (boot Sample.cleaned)
  = (Done tt, boot Sample.cleaned)
  /\ Frontend.rename_component Sample.root cn (boot Sample.frontend_no_component_file)
     = (console_log [Txt "  - Renaming ExampleComponent/ → "; Val cn; Txt "/"];;
        mutate (renameSync E N);;
        console_log [Txt "  - Updating component file..."];;
        Frontend.update_test_file N cn;;
        Frontend.update_index_file N cn) (boot Sample.frontend_no_component_file)
  /\ exists d1,
       Frontend.update_index_file N cn w'
       = (Done tt, Sys d1 (snaps w' ++ [d1])
                     (out w' ++ [(Stdout, [Txt "    ✅ index.ts updated"])]))
       /\ is_file (Frontend.indexPath N)
            (lit "export { MyServicePage } from './MyServicePage';
") d1.
Proof.
  intros cn E N w'. split; [|split].
  - apply (rename_block_guards Sample.root cn (boot Sample.cleaned)).
    vm_compute. reflexivity.
  - apply (rename_block_guards Sample.root cn (boot Sample.frontend_no_component_file)).
    + vm_compute. reflexivity.
    + vm_compute. reflexivity.
  - destruct (rename_block_guards Sample.root cn (boot Sample.cleaned))
      as (_ & _ & _ & _ & _ & _ & H).
    destruct (H w' (lit Sample.index_text) eq_refl eq_refl) as (d1 & _ & Hr & Hf);
      [vm_compute; reflexivity|].
    exists d1. split; [exact Hr|]. exact Hf.
Defined.

(** The scaffolded backend package. *)
Lemma router_overwritten_witness :
  node_at (Backend.routerPath Sample.root)
    (disk (snd (run (Sample.backend_script "demo") (boot Sample.backend))))
  = Some (File Backend.simpleRouter).
Proof.
  apply (proj2 (router_overwritten Sample.root (Sample.manifest "demo")
                  (boot Sample.backend) (lit "demo") (lit Sample.router_text))).
  - apply sample_backend_valid.
  - vm_compute. reflexivity.
Defined.

(** ** More on the component name *)

Section PascalCaseAlgebra.

Variable unicode_upper : code_unit -> jsstring.

Lemma pascal_scan_app at_start a b :
  pascal_scan unicode_upper at_start (a ++ ch "-" :: b)
  = pascal_scan unicode_upper at_start a ++ pascal_scan unicode_upper true b.
Proof.
  revert at_start. induction a as [|c a IH]; intros at_start.
  - cbn [app pascal_scan]. now rewrite N.eqb_refl.
  - cbn [app pascal_scan]. destruct (c =? ch "-"); [apply IH|].
    rewrite IH. now rewrite app_assoc.
Qed.

(** X1: a separator between two texts: the name of the whole is the name of
    the first part followed by the name of the second. *)
Theorem pascal_case_of_joined a b :
  toPascalCase unicode_upper (a ++ ch "-" :: b)
  = toPascalCase unicode_upper a ++ toPascalCase unicode_upper b.
Proof. rewrite !toPascalCase_scan. apply pascal_scan_app. Qed.

Lemma toUpperCase1_ascii c x :
  c < 128 -> In x (toUpperCase1 unicode_upper c) ->
  x < 128 /\ is_ascii_lower x = false /\ (x = c \/ (x = c - 32 /\ 97 <= c)).
Proof.
  unfold toUpperCase1, is_ascii_lower. intros Hc Hx.
  destruct ((97 <=? c) && (c <=? 122)) eqn:E.
  - apply andb_true_iff in E as [E1 E2].
    apply N.leb_le in E1, E2. destruct Hx as [<-|[]].
    repeat split; [lia| |right; split; [reflexivity|lia]].
    apply andb_false_iff. left. apply N.leb_gt. lia.
  - apply N.ltb_lt in Hc. rewrite Hc in Hx. destruct Hx as [<-|[]].
    apply N.ltb_lt in Hc. repeat split; [lia|exact E|now left].
Qed.

Lemma pascal_scan_no_separator at_start s :
  (forall c, 128 <= c -> ~ In (ch "-") (unicode_upper c)) ->
  ~ In (ch "-") (pascal_scan unicode_upper at_start s).
Proof.
  intros Hu. revert at_start. induction s as [|c s IH]; intros at_start; [intros []|].
  cbn [pascal_scan]. destruct (c =? ch "-") eqn:E; [apply IH|].
  apply N.eqb_neq in E. intros H. apply in_app_iff in H as [H|H]; [|now apply IH in H].
  destruct at_start; [|destruct H as [H|[]]; congruence].
  destruct (N.lt_ge_cases c 128) as [Hc|Hc].
  - destruct (toUpperCase1_ascii c _ Hc H) as (_ & _ & [Hx|[Hx Hl]]);
      [congruence|]. change (ch "-") with 45 in Hx. lia.
  - unfold toUpperCase1, is_ascii_lower in H.
    assert ((c <=? 122) = false) as E1 by (apply N.leb_gt; lia).
    assert ((c <? 128) = false) as E2 by (apply N.ltb_ge; lia).
    rewrite E1, E2, andb_false_r in H. now apply Hu in H.
Qed.

(** X2: the name has no separator left, as long as the case tables of the
    runtime give none. *)
Theorem pascal_case_without_separator s :
  (forall c, 128 <= c -> ~ In (ch "-") (unicode_upper c)) ->
  ~ In (ch "-") (toPascalCase unicode_upper s).
Proof. intros Hu. rewrite toPascalCase_scan. now apply pascal_scan_no_separator. Qed.

Lemma pascal_scan_fixed at_start t :
  ~ In (ch "-") t ->
  (at_start = true ->
   match t with [] => True | c :: _ => toUpperCase1 unicode_upper c = [c] end) ->
  pascal_scan unicode_upper at_start t = t.
Proof.
  revert at_start. induction t as [|c t IH]; intros at_start Hsep Hhead; [reflexivity|].
  cbn [pascal_scan]. destruct (c =? ch "-") eqn:E.
  - apply N.eqb_eq in E. exfalso. apply Hsep. now left.
  - rewrite (IH false); [|intros H; apply Hsep; now right|discriminate].
    destruct at_start; [|reflexivity]. now rewrite Hhead.
Qed.

Lemma pascal_scan_ascii_head s :
  Forall (fun c => c < 128) s ->
  match pascal_scan unicode_upper true s with
  | [] => True
  | c :: _ => toUpperCase1 unicode_upper c = [c]
  end.
Proof.
  induction 1 as [|c s Hc Hs IH]; [exact I|].
  cbn [pascal_scan]. destruct (c =? ch "-"); [exact IH|].
  pose proof (toUpperCase1_ascii c) as Hx.
  destruct (toUpperCase1 unicode_upper c) as [|x xs] eqn:E.
  - unfold toUpperCase1 in E. apply N.ltb_lt in Hc. rewrite Hc in E.
    destruct (is_ascii_lower c); discriminate.
  - cbn [app]. destruct (Hx x Hc (or_introl eq_refl)) as (Hx1 & Hx2 & _).
    unfold toUpperCase1. rewrite Hx2.
    apply N.ltb_lt in Hx1. now rewrite Hx1.
Qed.

Lemma pascal_scan_ascii_no_separator at_start s :
  Forall (fun c => c < 128) s ->
  ~ In (ch "-") (pascal_scan unicode_upper at_start s).
Proof.
  intros Hs. revert at_start. induction Hs as [|c s Hc Hs IH]; intros at_start; [intros []|].
  cbn [pascal_scan]. destruct (c =? ch "-") eqn:E; [apply IH|].
  apply N.eqb_neq in E. intros H. apply in_app_iff in H as [H|H]; [|now apply IH in H].
  destruct at_start; [|destruct H as [H|[]]; congruence].
  destruct (toUpperCase1_ascii c _ Hc H) as (_ & _ & [Hx|[Hx Hl]]);
    [congruence|]. change (ch "-") with 45 in Hx. lia.
Qed.

(** X3: a name made of an ASCII text is its own name: to derive the name
    twice is to derive it once. *)
Theorem pascal_case_idempotent s :
  Forall (fun c => c < 128) s ->
  toPascalCase unicode_upper (toPascalCase unicode_upper s)
  = toPascalCase unicode_upper s.
Proof.
  intros Hs. rewrite !toPascalCase_scan. apply pascal_scan_fixed.
  - now apply pascal_scan_ascii_no_separator.
  - intros _. now apply pascal_scan_ascii_head.
Qed.

(** X4: whatever the plugin id, the directory and the two files that the
    rename block creates are new names: not the placeholder directory and
    not the files that the block deletes. *)
Theorem renamed_paths_are_new pluginPath pluginId :
  let cn := Frontend.componentName unicode_upper pluginId in
  let N := Frontend.newComponentDir pluginPath cn in
  N <> Frontend.exampleComponentDir pluginPath
  /\ Frontend.newComponentFilePath N cn <> Frontend.componentFilePath N
  /\ Frontend.newTestFilePath N cn <> Frontend.testFilePath N.
Proof.
  intros cn N. subst cn N. unfold Frontend.componentName.
  split; [|split]; intros H; symmetry in H; revert H.
  - apply example_not_new_dir.
  - apply old_file_not_new_file.
  - apply old_test_not_new_test.
Qed.

End PascalCaseAlgebra.

Lemma pascal_case_without_separator_witness :
  ~ In (ch "-") (toPascalCase Sample.ascii_only (lit "-my--service-")).
Proof.
  apply (pascal_case_without_separator Sample.ascii_only (lit "-my--service-")).
  intros c Hc [H|[]]. change (ch "-") with 45 in H. lia.
Defined.

Lemma pascal_case_idempotent_witness :
  toPascalCase Sample.ascii_only (toPascalCase Sample.ascii_only (lit "data-ingest"))
  = toPascalCase Sample.ascii_only (lit "data-ingest").
Proof.
  apply (pascal_case_idempotent Sample.ascii_only (lit "data-ingest")).
  repeat constructor.
Defined.

Lemma split_one_segment s : ~ In (ch "/") s -> split (ch "/") s = [s].
Proof.
  induction s as [|c s IH]; intros H; [reflexivity|].
  cbn [split]. destruct (c =? ch "/") eqn:E.
  - apply N.eqb_eq in E. subst c. exfalso. apply H. now left.
  - rewrite IH; [reflexivity|]. intros Hin. apply H. now right.
Qed.

(** X18: the new directory is not confined to src/components: for a plugin
    id that starts with a step to the parent directory, and has no
    separator and no other slash, the placeholder directory is renamed to
    an entry of src. *)
Theorem parent_step_leaves_components unicode_upper pluginPath t :
  ~ In (ch "-") t -> ~ In (ch "/") t ->
  Frontend.newComponentDir pluginPath
    (Frontend.componentName unicode_upper (lit "../" ++ t))
  = pluginPath ++ [lit "src"; t ++ lit "Page"].
Proof.
  intros Hsep Hslash.
  assert (Frontend.componentName unicode_upper (lit "../" ++ t)
          = lit "../" ++ t ++ lit "Page") as ->.
  { unfold Frontend.componentName. rewrite toPascalCase_scan.
    change (lit "../" ++ t) with (46 :: 46 :: 47 :: t).
    cbn [pascal_scan]. change (46 =? ch "-") with false.
    change (47 =? ch "-") with false. cbv iota.
    rewrite (pascal_scan_fixed unicode_upper false t Hsep) by discriminate.
    reflexivity. }
  unfold Frontend.newComponentDir, join.
  change (lit "../" ++ t ++ lit "Page") with (46 :: 46 :: 47 :: (t ++ lit "Page")).
  assert (split (ch "/") (46 :: 46 :: 47 :: (t ++ lit "Page"))
          = [lit ".."; t ++ lit "Page"]) as ->.
  { cbn [split]. change (46 =? ch "/") with false. change (47 =? ch "/") with true.
    cbv iota. rewrite split_one_segment; [reflexivity|].
    intros H. apply in_app_iff in H as [H|H]; [now apply Hslash|].
    revert H. apply no_slash_lit. reflexivity. }
  cbn [fold_left]. unfold step at 2.
  rewrite !bool_decide_eq_false_2 by discriminate.
  rewrite bool_decide_eq_true_2 by reflexivity. cbn [orb].
  unfold Frontend.componentsDir.
  change [lit "src"; lit "components"] with ([lit "src"] ++ [lit "components"]).
  rewrite app_assoc, removelast_last, step_name.
  - now rewrite <- app_assoc.
  - rewrite length_app. change (length (lit "Page")) with 4%nat. lia.
Qed.

Lemma parent_step_leaves_components_witness :
  Frontend.newComponentDir Sample.root
    (Frontend.componentName Sample.ascii_only (lit "../" ++ lit "other"))
  = Sample.root ++ [lit "src"; lit "other" ++ lit "Page"].
Proof.
  apply (parent_step_leaves_components Sample.ascii_only Sample.root (lit "other")).
  - apply (proj1 (bool_decide_eq_false _)). vm_compute. reflexivity.
  - apply no_slash_lit. vm_compute. reflexivity.
Defined.

(** ** Invocations that the scripts reject *)

Lemma gate_run {A} (v : M A) (k : A -> M unit) w :
  (forall a, fst (v w) <> Done a) ->
  (forall c, fst (v w) = Exit c -> c = 1%Z) ->
  fst (run (v ≫= k) w) = 1%Z
  /\ disk (snd (run (v ≫= k) w)) = disk (snd (v w))
  /\ snaps (snd (run (v ≫= k) w)) = snaps (snd (v w)).
Proof.
  intros Hnd Hc. unfold run. run_monad.
  destruct (v w) as [[a|e|c] w1]; cbn in *.
  - now destruct (Hnd a).
  - auto.
  - rewrite (Hc c eq_refl). auto.
Qed.

Lemma frontend_validate_exit unicode_upper argv2 manifest w c :
  fst (Frontend.validate unicode_upper argv2 manifest w) = Exit c -> c = 1%Z.
Proof.
  unfold Frontend.validate. destruct argv2 as [pluginPath|]; run_monad;
    [|now inversion 1].
  destruct (existsSync pluginPath (disk w)); cbn; [|now inversion 1].
  destruct (existsSync _ (disk w)); cbn; [|now inversion 1].
  destruct (readFileSync _ (disk w)); cbn; [|discriminate].
  destruct manifest as [pj|]; cbn; [|discriminate].
  destruct (pluginId pj) as [id|]; cbn; [|discriminate].
  destruct (truthy id); cbn; [|now inversion 1].
  destruct id as [[| | |id| |]|]; cbn; discriminate.
Qed.

Lemma backend_validate_exit argv2 manifest w c :
  fst (Backend.validate argv2 manifest w) = Exit c -> c = 1%Z.
Proof.
  unfold Backend.validate. destruct argv2 as [pluginPath|]; run_monad;
    [|now inversion 1].
  destruct (existsSync pluginPath (disk w)); cbn; [|now inversion 1].
  destruct (existsSync _ (disk w)); cbn; [|now inversion 1].
  destruct (readFileSync _ (disk w)); cbn; [|discriminate].
  destruct manifest as [pj|]; cbn; [|discriminate].
  destruct (pluginId pj) as [id|]; cbn; [|discriminate].
  destruct (truthy id); cbn; [|now inversion 1].
  destruct (printable_value id); cbn; discriminate.
Qed.

(** X5: every invocation that is not one on a valid package (with a text as
    plugin id, for the frontend script) ends with exit code 1 before the
    first write: no argument, no such directory, no manifest, a manifest
    that is a directory or does not parse, no plugin id, a plugin id that
    is no text (frontend script) or that cannot be printed (backend
    script). *)
Theorem rejected_invocation_untouched unicode_upper argv2 manifest w :
  ((forall pluginPath id,
      argv2 = Some pluginPath ->
      ~ valid_package pluginPath manifest (disk w) (Some (JStr id))) ->
   fst (run (Frontend.main unicode_upper argv2 manifest) w) = 1%Z
   /\ disk (snd (run (Frontend.main unicode_upper argv2 manifest) w)) = disk w
   /\ snaps (snd (run (Frontend.main unicode_upper argv2 manifest) w)) = snaps w)
  /\ ((forall pluginPath id,
         argv2 = Some pluginPath ->
         ~ valid_package pluginPath manifest (disk w) id) ->
      fst (run (Backend.main argv2 manifest) w) = 1%Z
      /\ disk (snd (run (Backend.main argv2 manifest) w)) = disk w
      /\ snaps (snd (run (Backend.main argv2 manifest) w)) = snaps w).
Proof.
  split; intros Hno.
  - destruct (frontend_validate_quiet unicode_upper argv2 manifest w) as [Hs Hd].
    unfold Frontend.main. rewrite <- Hs, <- Hd.
    apply gate_run; [|apply frontend_validate_exit].
    intros a Ha. apply frontend_validate_done in Ha as (p & id & Hp & _ & Hv).
    exact (Hno p id Hp Hv).
  - destruct (backend_validate_quiet argv2 manifest w) as [Hs Hd].
    unfold Backend.main. rewrite <- Hs, <- Hd.
    apply gate_run; [|apply backend_validate_exit].
    intros a Ha. apply backend_validate_done in Ha as (p & id & Hp & _ & Hv).
    exact (Hno p id Hp Hv).
Qed.

(** X6: the last line that a rejected invocation prints names the reason, the
    same in both scripts: the directory that is not there, the missing
    manifest, the missing plugin id; when the manifest cannot be read as a
    file or does not parse, or is the value null, the exception is not
    caught and its stack is the last line. *)
Theorem rejection_messages unicode_upper main pluginPath manifest w :
  main = Frontend.main unicode_upper \/ main = Backend.main ->
  let last_line := last (out (snd (run (main (Some pluginPath) manifest) w))) in
  (existsSync pluginPath (disk w) = false ->
   last_line
   = Some (Stderr, [Txt "❌ Plugin directory not found: "; ValPath pluginPath]))
  /\ (existsSync pluginPath (disk w) = true ->
      existsSync (pluginPath ++ [lit "package.json"]) (disk w) = false ->
      last_line
      = Some (Stderr, [Txt "❌ No package.json found - not a valid plugin directory"]))
  /\ (existsSync pluginPath (disk w) = true ->
      (exists m, node_at (pluginPath ++ [lit "package.json"]) (disk w) = Some (Dir m))
      \/ (exists c, node_at (pluginPath ++ [lit "package.json"]) (disk w) = Some (File c))
         /\ (manifest = None
             \/ exists packageJson, manifest = Some packageJson
                                    /\ pluginId packageJson = None) ->
      last_line = Some (Stderr, [ErrStack]))
  /\ (existsSync pluginPath (disk w) = true ->
      (exists c, node_at (pluginPath ++ [lit "package.json"]) (disk w) = Some (File c)) ->
      (exists packageJson id, manifest = Some packageJson
                              /\ pluginId packageJson = Some id
                              /\ truthy id = false) ->
      last_line
      = Some (Stderr, [Txt "❌ No pluginId found in package.json - not a valid Backstage plugin"])).
Proof.
  intros Hmain last_line. subst last_line.
  repeat split.
  - intros H1. destruct Hmain as [-> | ->];
      unfold run, Frontend.main, Backend.main, Frontend.validate, Backend.validate;
      run_monad; rewrite H1; cbn; apply last_snoc.
  - intros H1 H2. destruct Hmain as [-> | ->];
      unfold run, Frontend.main, Backend.main, Frontend.validate, Backend.validate,
        Frontend.packageJsonPath, Backend.packageJsonPath;
      run_monad; rewrite H1; cbn; rewrite H2; cbn; apply last_snoc.
  - intros H1 H.
    assert (existsSync (pluginPath ++ [lit "package.json"]) (disk w) = true) as H2.
    { apply existsSync_true. destruct H as [[m H]|[[c H] _]]; eauto. }
    destruct Hmain as [-> | ->];
      unfold run, Frontend.main, Backend.main, Frontend.validate, Backend.validate,
        Frontend.packageJsonPath, Backend.packageJsonPath;
      run_monad; rewrite H1; cbn; rewrite H2; cbn; unfold readFileSync;
      (destruct H as [[m ->]|[[c ->] [-> |(pj & -> & ->)]]]; cbn; apply last_snoc).
  - intros H1 [c H3] (pj & id & -> & Hid & Hf).
    assert (existsSync (pluginPath ++ [lit "package.json"]) (disk w) = true) as H2.
    { apply existsSync_true. eauto. }
    destruct Hmain as [-> | ->];
      unfold run, Frontend.main, Backend.main, Frontend.validate, Backend.validate,
        Frontend.packageJsonPath, Backend.packageJsonPath;
      run_monad; rewrite H1; cbn; rewrite H2; cbn; unfold readFileSync;
      rewrite H3; cbn; rewrite Hid; cbn; rewrite Hf; cbn; apply last_snoc.
Qed.

(** ** Exit codes and output streams *)

Lemma prints_bind {A B} P (m : M A) (k : A -> M B) :
  prints P m -> (forall a, prints P (k a)) -> prints P (m ≫= k).
Proof.
  intros Hm Hk w. destruct (Hm w) as (new1 & H1 & F1).
  unfold mbind, M_bind, bind. destruct (m w) as [[a|e|c] w1]; cbn [snd] in *.
  - destruct (Hk a w1) as (new2 & H2 & F2). exists (new1 ++ new2).
    rewrite H2, H1, app_assoc. split; [reflexivity|]. now apply Forall_app.
  - eauto.
  - eauto.
Qed.

Lemma prints_quiet {A} P (m : M A) :
  (forall w, out (snd (m w)) = out w) -> prints P m.
Proof. intros H w. exists []. rewrite H, app_nil_r. auto. Qed.

Lemma prints_log P l : P (Stdout, l) -> prints P (console_log l).
Proof. intros H w. exists [(Stdout, l)]. split; [reflexivity|]. auto. Qed.

Ltac prints_step :=
  lazymatch goal with
  | |- prints _ (mbind _ _) => apply prints_bind; [|intros ?]
  | |- prints _ (console_log _) => apply prints_log; reflexivity
  | |- prints _ (if ?b then _ else _) => destruct b
  | |- prints _ (observe _) => apply prints_quiet; reflexivity
  | |- prints _ (mret _) => apply prints_quiet; reflexivity
  | |- prints _ (attempt ?f) =>
      apply prints_quiet; intros w; unfold attempt; destruct (f (disk w)); reflexivity
  | |- prints _ (mutate ?f) =>
      apply prints_quiet; intros w; unfold mutate; destruct (f (disk w)); reflexivity
  end.

(** The [try] blocks print on stdout only. *)
Lemma cleanup_prints_stdout root :
  (forall cn, prints on_stdout (Frontend.cleanup root cn))
  /\ (forall id, prints on_stdout (Backend.cleanup root id)).
Proof. split; intros; unfold_steps; repeat prints_step. Qed.

(** What the part before the [try] prints: on stdout when it gets through,
    an error as the last line when it calls [process.exit]. *)
Lemma frontend_validate_prints unicode_upper argv2 manifest w :
  exists new,
    out (snd (Frontend.validate unicode_upper argv2 manifest w)) = out w ++ new
    /\ (forall v, fst (Frontend.validate unicode_upper argv2 manifest w) = Done v ->
                  Forall on_stdout new)
    /\ (forall c, fst (Frontend.validate unicode_upper argv2 manifest w) = Exit c ->
                  exists l, last new = Some l /\ on_stderr l).
Proof.
  unfold Frontend.validate. destruct argv2 as [pluginPath|]; run_monad.
  2:{ eexists. rewrite <- app_assoc. split; [reflexivity|].
      split; [discriminate|]. intros _ _. eexists. split; reflexivity. }
  destruct (existsSync pluginPath (disk w)); cbn.
  2:{ eexists. rewrite <- !app_assoc. split; [reflexivity|].
      split; [discriminate|]. intros _ _. eexists. split; reflexivity. }
  destruct (existsSync _ (disk w)); cbn.
  2:{ eexists. rewrite <- !app_assoc. split; [reflexivity|].
      split; [discriminate|]. intros _ _. eexists. split; reflexivity. }
  destruct (readFileSync _ (disk w)); cbn.
  2:{ eexists. rewrite <- !app_assoc. split; [reflexivity|]. split; discriminate. }
  destruct manifest as [pj|]; cbn.
  2:{ eexists. rewrite <- !app_assoc. split; [reflexivity|]. split; discriminate. }
  destruct (pluginId pj) as [id|]; cbn.
  2:{ eexists. rewrite <- !app_assoc. split; [reflexivity|]. split; discriminate. }
  destruct (truthy id); cbn.
  2:{ eexists. rewrite <- !app_assoc. split; [reflexivity|].
      split; [discriminate|]. intros _ _. eexists. split; reflexivity. }
  destruct id as [[| | |id| |]|]; cbn;
    (eexists; rewrite <- !app_assoc; split; [reflexivity|]; split; [|discriminate]);
    try discriminate.
  intros _ _. repeat constructor.
Qed.

Lemma backend_validate_prints argv2 manifest w :
  exists new,
    out (snd (Backend.validate argv2 manifest w)) = out w ++ new
    /\ (forall v, fst (Backend.validate argv2 manifest w) = Done v ->
                  Forall on_stdout new)
    /\ (forall c, fst (Backend.validate argv2 manifest w) = Exit c ->
                  exists l, last new = Some l /\ on_stderr l).
Proof.
  unfold Backend.validate. destruct argv2 as [pluginPath|]; run_monad.
  2:{ eexists. rewrite <- app_assoc. split; [reflexivity|].
      split; [discriminate|]. intros _ _. eexists. split; reflexivity. }
  destruct (existsSync pluginPath (disk w)); cbn.
  2:{ eexists. rewrite <- !app_assoc. split; [reflexivity|].
      split; [discriminate|]. intros _ _. eexists. split; reflexivity. }
  destruct (existsSync _ (disk w)); cbn.
  2:{ eexists. rewrite <- !app_assoc. split; [reflexivity|].
      split; [discriminate|]. intros _ _. eexists. split; reflexivity. }
  destruct (readFileSync _ (disk w)); cbn.
  2:{ eexists. rewrite <- !app_assoc. split; [reflexivity|]. split; discriminate. }
  destruct manifest as [pj|]; cbn.
  2:{ eexists. rewrite <- !app_assoc. split; [reflexivity|]. split; discriminate. }
  destruct (pluginId pj) as [id|]; cbn.
  2:{ eexists. rewrite <- !app_assoc. split; [reflexivity|]. split; discriminate. }
  destruct (truthy id); cbn.
  2:{ eexists. rewrite <- !app_assoc. split; [reflexivity|].
      split; [discriminate|]. intros _ _. eexists. split; reflexivity. }
  destruct (printable_value id); cbn.
  2:{ eexists. rewrite <- !app_assoc. split; [reflexivity|]. split; discriminate. }
  eexists. rewrite <- !app_assoc. split; [reflexivity|]. split; [|discriminate].
  intros _ _. repeat constructor.
Qed.

(** A script of the shape of the two: checks, then a [try] block whose
    handler prints on stderr and exits with code 1. *)
Lemma guarded_script_output {A} (checks : M A) (body : A -> M unit)
    (handler : M unit) w e1 e2 :
  (exists new,
     out (snd (checks w)) = out w ++ new
     /\ (forall v, fst (checks w) = Done v -> Forall on_stdout new)
     /\ (forall c, fst (checks w) = Exit c -> exists l, last new = Some l /\ on_stderr l)) ->
  (forall c, fst (checks w) = Exit c -> c = 1%Z) ->
  (forall a, prints on_stdout (body a)) ->
  (forall a, hoare anything (body a) no_exit anything) ->
  (forall w', handler w'
              = (Exit 1%Z, Sys (disk w') (snaps w')
                             (out w' ++ [(Stderr, e1); (Stderr, e2)]))) ->
  let r := run (checks ≫= fun v => try_catch (body v) (fun _ => handler)) w in
  (fst r = 0%Z \/ fst r = 1%Z)
  /\ exists new,
       out (snd r) = out w ++ new
       /\ (fst r = 0%Z -> Forall on_stdout new)
       /\ (fst r = 1%Z -> exists l, last new = Some l /\ on_stderr l).
Proof.
  intros (new1 & H1 & Hd1 & He1) Hc Hb Hn Hh r. subst r.
  unfold run, mbind, M_bind, bind, try_catch.
  destruct (checks w) as [[a|e|c] w0]; cbn [fst snd] in *.
  - destruct (Hb a w0) as (new2 & H2 & F2). destruct (Hn a w0 I) as [Hx _].
    destruct (body a w0) as [[[]|e|c] w1]; cbn [fst snd] in *.
    + split; [now left|]. exists (new1 ++ new2).
      rewrite H2, H1, app_assoc. split; [reflexivity|].
      split; [|discriminate]. intros _. apply Forall_app. split; eauto.
    + rewrite Hh. cbn [fst snd out]. split; [now right|].
      exists (new1 ++ new2 ++ [(Stderr, e1); (Stderr, e2)]).
      rewrite H2, H1, <- !app_assoc. split; [reflexivity|].
      split; [discriminate|]. intros _. exists (Stderr, e2).
      split; [|reflexivity].
      change [(Stderr, e1); (Stderr, e2)] with ([(Stderr, e1)] ++ [(Stderr, e2)]).
      rewrite !app_assoc. apply last_snoc.
    + contradiction.
  - split; [now right|]. exists (new1 ++ [(Stderr, [ErrStack])]).
    rewrite H1, <- app_assoc. split; [reflexivity|].
    split; [discriminate|]. intros _. eexists. split; [apply last_snoc|reflexivity].
  - rewrite (Hc c eq_refl). split; [now right|]. exists new1.
    split; [exact H1|]. split; [discriminate|]. intros _. now apply (He1 c).
Qed.

(** X7: both scripts end with exit code 0 or 1, whatever they are called on.
    With exit code 0 every line they printed went to stdout; with exit
    code 1 the last line they printed went to stderr. *)
Theorem exit_code_and_streams unicode_upper main argv2 manifest w :
  main = Frontend.main unicode_upper \/ main = Backend.main ->
  let r := run (main argv2 manifest) w in
  (fst r = 0%Z \/ fst r = 1%Z)
  /\ exists new,
       out (snd r) = out w ++ new
       /\ (fst r = 0%Z -> Forall on_stdout new)
       /\ (fst r = 1%Z -> exists l, last new = Some l /\ on_stderr l).
Proof.
  intros [-> | ->].
  - unfold Frontend.main. eapply guarded_script_output.
    + apply frontend_validate_prints.
    + apply frontend_validate_exit.
    + intros [p cn]. apply cleanup_prints_stdout.
    + intros [p cn]. apply cleanup_no_exit.
    + intros w'. unfold Frontend.failed. run_monad. rewrite <- app_assoc.
      reflexivity.
  - unfold Backend.main. eapply guarded_script_output.
    + apply backend_validate_prints.
    + apply backend_validate_exit.
    + intros [p id]. apply cleanup_prints_stdout.
    + intros [p id]. apply cleanup_no_exit.
    + intros w'. unfold Backend.failed. run_monad. rewrite <- app_assoc.
      reflexivity.
Qed.

(** ** What the scripts leave alone *)

(** An invariant of the [try] block of every package is an invariant of
    the script. *)
Lemma backend_main_invariant (J : node -> Prop) argv2 manifest :
  (forall p id, argv2 = Some p -> hoare J (Backend.cleanup p id) (always J) J) ->
  hoare J (Backend.main argv2 manifest) (always J) J.
Proof.
  intros Hc. unfold Backend.main.
  eapply hoare_bind with
    (Q1 := fun r d => J d /\ forall v, r = Done v -> argv2 = Some (fst v)).
  - apply quiet_step; [apply backend_validate_quiet|].
    intros w Hw. split; [assumption|]. intros v Hv.
    apply backend_validate_done in Hv as (p & id & Hp & -> & _). exact Hp.
  - intros [p id]. cbn [fst snd].
    apply hoare_pre. intros d0 [Hd0 Hv]. specialize (Hv _ eq_refl). cbn in Hv.
    eapply hoare_conseq with (P := J) (Q := always J) (S := J); auto.
    + apply hoare_try_always; [now apply Hc|]. intros _. apply failed_keeps.
    + now intros d ->.
  - intros e d [Hd _]. exact Hd.
  - intros c d [Hd _]. exact Hd.
Qed.

Lemma frontend_main_invariant unicode_upper (J : node -> Prop) argv2 manifest :
  (forall p id packageJson,
     argv2 = Some p -> manifest = Some packageJson ->
     pluginId packageJson = Some (Some (JStr id)) ->
     hoare J (Frontend.cleanup p (Frontend.componentName unicode_upper id))
       (always J) J) ->
  hoare J (Frontend.main unicode_upper argv2 manifest) (always J) J.
Proof.
  intros Hc. unfold Frontend.main.
  eapply hoare_bind with
    (Q1 := fun r d =>
       J d /\ forall v, r = Done v ->
                exists id packageJson,
                  argv2 = Some (fst v) /\ manifest = Some packageJson
                  /\ pluginId packageJson = Some (Some (JStr id))
                  /\ snd v = Frontend.componentName unicode_upper id).
  - apply quiet_step; [apply frontend_validate_quiet|].
    intros w Hw. split; [assumption|]. intros v Hv.
    apply frontend_validate_done in Hv
      as (p & id & Hp & -> & _ & _ & (pj & Hm & Hid) & _).
    exists id, pj. auto.
  - intros [p cn]. cbn [fst snd].
    apply hoare_pre. intros d0 [Hd0 Hv].
    destruct (Hv _ eq_refl) as (id & pj & Hp & Hm & Hid & Hcn). cbn in Hp, Hcn.
    subst cn.
    eapply hoare_conseq with (P := J) (Q := always J) (S := J); auto.
    + apply hoare_try_always; [now apply (Hc p id pj)|]. intros _. apply failed_keeps.
    + now intros d ->.
  - intros e d [Hd _]. exact Hd.
  - intros c d [Hd _]. exact Hd.
Qed.

(** A block behind [if (fs.existsSync (p))] keeps a path absent when the
    block does so for every path but [p]. *)
Lemma guarded_block_keeps_absent q p (block : M unit) :
  (q <> p -> hoare (absent q) block (always (absent q)) (absent q)) ->
  hoare (absent q)
    (b ← observe (existsSync p); if b : bool then block else mret tt)
    (always (absent q)) (absent q).
Proof.
  intros Hb.
  eapply hoare_bind with
    (Q1 := fun r d => absent q d /\ forall b, r = Done b -> existsSync p d = b).
  - apply hoare_observe. intros d Hd. split; [assumption|]. now inversion 1.
  - intros b. destruct b.
    + destruct (decide (q = p)) as [->|Hne].
      * intros w [Ha Hb']. specialize (Hb' _ eq_refl).
        apply existsSync_true in Hb' as [n Hn]. unfold absent in Ha. congruence.
      * eapply hoare_conseq; [apply (Hb Hne)|..]; auto. now intros d [Hd _].
    + apply hoare_ret. now intros d [Hd _].
  - now intros e d [Hd _].
  - now intros c d [Hd _].
Qed.

Lemma backend_cleanup_creates_nothing root id q :
  hoare (absent q) (Backend.cleanup root id) (always (absent q)) (absent q).
Proof.
  unfold Backend.cleanup, Backend.remove_services, Backend.simplify_router,
    Backend.update_plugin_file, Backend.remove_tests, Backend.remove_dev,
    Backend.report, remove_tree, remove_file.
  repeat lazymatch goal with
  | |- hoare _ (mbind _ (observe (existsSync _))) _ _ =>
      apply guarded_block_keeps_absent; intros ?
  | |- _ => keep_step
  end.
  all: unfold absent in *;
    first [ eapply rm_absent; eassumption
          | eapply unlink_absent; eassumption
          | eapply write_absent; eassumption ].
Qed.

(** X8: the backend script creates nothing: a path that leads nowhere before
    the run leads nowhere on every disk the run writes and at its end,
    however it is called and however it ends. *)
Theorem backend_creates_nothing argv2 manifest w q :
  absent q (disk w) ->
  let w' := snd (run (Backend.main argv2 manifest) w) in
  absent q (disk w')
  /\ exists new, snaps w' = snaps w ++ new /\ Forall (absent q) new.
Proof.
  intros Hq w'. subst w'.
  destruct (run_disk (Backend.main argv2 manifest) w) as [-> ->].
  apply (backend_main_invariant (absent q) argv2 manifest); [|exact Hq].
  intros p id _. apply backend_cleanup_creates_nothing.
Qed.

Lemma backend_cleanup_frame root id q x :
  ~ Backend.servicesDir root `prefix_of` q ->
  ~ Backend.devDir root `prefix_of` q ->
  q <> Backend.routerPath root ->
  q <> Backend.pluginFilePath root ->
  q <> Backend.pluginTestPath root ->
  q <> Backend.routerTestPath root ->
  hoare (is_file q x) (Backend.cleanup root id) (always (is_file q x)) (is_file q x).
Proof.
  intros. unfold_steps. repeat keep_step. all: frame_files.
Qed.

(** X9: the files of the backend script: a file that is not below
    src/services or dev and is none of src/router.ts, src/plugin.ts,
    src/plugin.test.ts and src/router.test.ts is the same file on every
    disk the run writes and at its end. *)
Theorem backend_leaves_other_files pluginPath manifest w q x :
  is_file q x (disk w) ->
  ~ Backend.servicesDir pluginPath `prefix_of` q ->
  ~ Backend.devDir pluginPath `prefix_of` q ->
  q <> Backend.routerPath pluginPath ->
  q <> Backend.pluginFilePath pluginPath ->
  q <> Backend.pluginTestPath pluginPath ->
  q <> Backend.routerTestPath pluginPath ->
  let w' := snd (run (Backend.main (Some pluginPath) manifest) w) in
  is_file q x (disk w')
  /\ exists new, snaps w' = snaps w ++ new /\ Forall (is_file q x) new.
Proof.
  intros Hq H1 H2 H3 H4 H5 H6 w'. subst w'.
  destruct (run_disk (Backend.main (Some pluginPath) manifest) w) as [-> ->].
  apply (backend_main_invariant (is_file q x) (Some pluginPath) manifest); [|exact Hq].
  intros p id Hp. inversion Hp; subst p. now apply backend_cleanup_frame.
Qed.

Section FrontendFrame.

Variables (root : path) (name : jsstring).

Let cn := name ++ lit "Page".

Hypothesis one_segment : ~ In (ch "/") cn.

Let N := Frontend.componentsDir root ++ [cn].

Lemma frontend_cleanup_frame q x :
  ~ Frontend.exampleFetchDir root `prefix_of` q ->
  ~ Frontend.exampleComponentDir root `prefix_of` q ->
  ~ N `prefix_of` q ->
  ~ Frontend.devDir root `prefix_of` q ->
  q <> Frontend.pluginFilePath root ->
  q <> Frontend.pluginTestPath root ->
  hoare (is_file q x) (Frontend.cleanup root cn) (always (is_file q x)) (is_file q x).
Proof.
  intros H1 H2 H3 H4 H5 H6.
  assert (forall k, q <> N ++ k) as HN.
  { intros k ->. apply H3. now apply prefix_app_r. }
  pose proof (HN []) as HN0. rewrite app_nil_r in HN0.
  pose proof (HN [cn ++ lit ".tsx"]) as HN1.
  pose proof (HN [cn ++ lit ".test.tsx"]) as HN2.
  pose proof (HN [lit "ExampleComponent.tsx"]) as HN3.
  pose proof (HN [lit "ExampleComponent.test.tsx"]) as HN4.
  pose proof (HN [lit "index.ts"]) as HN5.
  pose proof (new_dir_segment root name one_segment) as E1.
  pose proof (new_component_file_segment root name one_segment) as E2.
  pose proof (new_test_file_segment root name one_segment) as E3.
  subst N cn.
  unfold Frontend.cleanup, Frontend.rename_component.
  rewrite E1.
  unfold Frontend.update_component_file, Frontend.update_test_file,
    Frontend.update_index_file.
  rewrite E2, E3.
  unfold Frontend.componentFilePath, Frontend.testFilePath, Frontend.indexPath.
  unfold Frontend.remove_fetch_component, Frontend.update_plugin_file,
    Frontend.remove_junk_files, Frontend.report, remove_tree, remove_file.
  repeat keep_step.
  all: first [ frame_files
             | unfold is_file in *; eapply rename_file; [eassumption| | |eassumption];
               assumption ].
Qed.

End FrontendFrame.

(** X10: the files of the frontend script, for a component name that is one
    path segment: a file that is not below the directories
    ExampleFetchComponent, ExampleComponent and the one named after the
    component in src/components, not below dev, and neither src/plugin.ts
    nor src/plugin.test.ts, is the same file on every disk the run writes
    and at its end. *)
Theorem frontend_leaves_other_files unicode_upper pluginPath packageJson id w q x :
  let cn := Frontend.componentName unicode_upper id in
  pluginId packageJson = Some (Some (JStr id)) ->
  ~ In (ch "/") cn ->
  is_file q x (disk w) ->
  ~ Frontend.exampleFetchDir pluginPath `prefix_of` q ->
  ~ Frontend.exampleComponentDir pluginPath `prefix_of` q ->
  ~ (Frontend.componentsDir pluginPath ++ [cn]) `prefix_of` q ->
  ~ Frontend.devDir pluginPath `prefix_of` q ->
  q <> Frontend.pluginFilePath pluginPath ->
  q <> Frontend.pluginTestPath pluginPath ->
  let w' := snd (run (Frontend.main unicode_upper (Some pluginPath)
                        (Some packageJson)) w) in
  is_file q x (disk w')
  /\ exists new, snaps w' = snaps w ++ new /\ Forall (is_file q x) new.
Proof.
  intros cn Hid Hseg Hq H1 H2 H3 H4 H5 H6 w'. subst w'.
  destruct (run_disk (Frontend.main unicode_upper (Some pluginPath)
                        (Some packageJson)) w) as [-> ->].
  apply (frontend_main_invariant unicode_upper (is_file q x) (Some pluginPath)
           (Some packageJson)); [|exact Hq].
  intros p id' pj Hp Hm Hid'. inversion Hp; subst p. inversion Hm; subst pj.
  assert (id' = id) as -> by congruence.
  now apply (frontend_cleanup_frame pluginPath (toPascalCase unicode_upper id) Hseg).
Qed.

(** ** When a run succeeds *)

(** Exit code 0 is the exit code of a run on a valid package. *)
Lemma frontend_exit_zero unicode_upper argv2 manifest w w1 :
  run (Frontend.main unicode_upper argv2 manifest) w = (0%Z, w1) ->
  exists pluginPath id,
    argv2 = Some pluginPath
    /\ valid_package pluginPath manifest (disk w) (Some (JStr id)).
Proof.
  intros Hr. unfold Frontend.main, run, mbind, M_bind, bind in Hr.
  destruct (Frontend.validate unicode_upper argv2 manifest w) as [[v|e|c] w0] eqn:Hv.
  - pose proof (frontend_validate_done unicode_upper argv2 manifest w v) as H.
    rewrite Hv in H. destruct (H eq_refl) as (p & id & Hp & _ & Hval). eauto.
  - inversion Hr.
  - pose proof (frontend_validate_exit unicode_upper argv2 manifest w c) as H.
    rewrite Hv in H. rewrite (H eq_refl) in Hr. inversion Hr.
Qed.

Lemma backend_exit_zero argv2 manifest w w1 :
  run (Backend.main argv2 manifest) w = (0%Z, w1) ->
  exists pluginPath id,
    argv2 = Some pluginPath /\ valid_package pluginPath manifest (disk w) id.
Proof.
  intros Hr. unfold Backend.main, run, mbind, M_bind, bind in Hr.
  destruct (Backend.validate argv2 manifest w) as [[v|e|c] w0] eqn:Hv.
  - pose proof (backend_validate_done argv2 manifest w v) as H.
    rewrite Hv in H. destruct (H eq_refl) as (p & id & Hp & _ & Hval). eauto.
  - inversion Hr.
  - pose proof (backend_validate_exit argv2 manifest w c) as H.
    rewrite Hv in H. rewrite (H eq_refl) in Hr. inversion Hr.
Qed.

(** X11: after a run with exit code 0 nothing of the scaffold is left: the
    frontend script leaves no ExampleFetchComponent, no ExampleComponent,
    no dev and no plugin.test.ts; the backend script leaves no services,
    no dev, neither of the two tests, and router.ts, if there is one, with
    the text of the script. *)
Theorem exit_zero_means_clean unicode_upper pluginPath manifest w w1 :
  (run (Frontend.main unicode_upper (Some pluginPath) manifest) w = (0%Z, w1) ->
   frontend_clean pluginPath (disk w1))
  /\ (run (Backend.main (Some pluginPath) manifest) w = (0%Z, w1) ->
      backend_clean pluginPath (disk w1)).
Proof.
  split; intros Hr.
  - destruct (frontend_exit_zero _ _ _ _ _ Hr) as (p & id & Hp & Hv).
    inversion Hp; subst p.
    destruct (frontend_success unicode_upper _ _ _ _ _ Hv Hr) as (w0 & _ & _ & Hc).
    pose proof (frontend_cleanup_cleans pluginPath
                  (toPascalCase unicode_upper id) w0 I) as [Hq _].
    unfold Frontend.componentName in Hc. rewrite Hc in Hq. exact Hq.
  - destruct (backend_exit_zero _ _ _ _ Hr) as (p & id & Hp & Hv).
    inversion Hp; subst p.
    destruct (backend_success _ _ _ _ _ Hv Hr) as (w0 & _ & _ & Hc).
    pose proof (backend_cleanup_cleans pluginPath id w0 I) as [Hq _].
    rewrite Hc in Hq. exact Hq.
Qed.

(** *** The backend script fails on directories only *)

(** A step that does not get to a path leaves the node there. *)
Ltac apart_proof :=
  unfold_steps; repeat keep_step;
  try exact I;
  lazymatch goal with
  | Hf : rmSync _ _ = Some _ |- _ =>
      rewrite (rm_apart _ _ _ _ Hf); [assumption|not_prefix|not_prefix]
  | Hf : writeFileSync _ _ _ = Some _ |- _ =>
      rewrite (write_apart _ _ _ _ _ Hf); [assumption|not_prefix|not_prefix]
  | Hf : unlinkSync _ _ = Some _ |- _ =>
      rewrite (unlink_apart _ _ _ _ Hf); [assumption|not_prefix|not_prefix]
  end.

Section BackendDirectories.

Variables (root : path) (id : value).

Let never : res unit -> node -> Prop := on_done (fun _ _ => False).

Lemma write_on_directory_throws p c m (rest : M unit) :
  hoare (fun d => node_at p d = Some (Dir m))
    (b ← observe (existsSync p);
     if b : bool then mutate (writeFileSync p c);; rest else mret tt)
    never anything.
Proof.
  eapply hoare_bind_done; [apply hoare_surely_done, hoare_observe_sp|].
  intros b. destruct b.
  - eapply hoare_bind_done with (Q1 := fun _ _ => False).
    + apply hoare_mutate; [|now intros].
      intros d d' [Hd _] Hf. apply write_inv in Hf as [_ Hf]. now destruct (Hf m).
    + intros _ w [].
  - apply hoare_ret. intros d [Hd Hb]. apply existsSync_false in Hb. congruence.
Qed.

Lemma read_on_directory_throws p m (rest : jsstring -> M unit) :
  hoare (fun d => node_at p d = Some (Dir m))
    (b ← observe (existsSync p);
     if b : bool then c ← attempt (readFileSync p); rest c else mret tt)
    never anything.
Proof.
  eapply hoare_bind_done; [apply hoare_surely_done, hoare_observe_sp|].
  intros b. destruct b.
  - eapply hoare_bind_done with (Q1 := fun _ _ => False).
    + apply hoare_attempt; [|now intros].
      intros d c [Hd _] Hf. unfold readFileSync in Hf. rewrite Hd in Hf. discriminate.
    + intros _ w [].
  - apply hoare_ret. intros d [Hd Hb]. apply existsSync_false in Hb. congruence.
Qed.

Lemma unlink_on_directory_throws p label m :
  hoare (fun d => node_at p d = Some (Dir m)) (remove_file p label) never anything.
Proof.
  unfold remove_file.
  eapply hoare_bind_done; [apply hoare_surely_done, hoare_observe_sp|].
  intros b. destruct b.
  - eapply hoare_bind_done; [apply hoare_surely_done, hoare_log_sp|].
    intros ?; cbv beta. apply hoare_mutate; [|now intros].
    intros d d' [Hd _] Hf. apply unlink_inv in Hf as [_ [c Hf]]. congruence.
  - apply hoare_ret. intros d [Hd Hb]. apply existsSync_false in Hb. congruence.
Qed.

Lemma never_bind {A} P (m : M A) (k : A -> M unit) :
  hoare P m (on_done (fun _ _ => False)) anything -> hoare P (m ≫= k) never anything.
Proof.
  intros H. eapply hoare_bind_done; [exact H|]. intros a w [].
Qed.

Lemma router_directory_fails m :
  hoare (fun d => node_at (Backend.routerPath root) d = Some (Dir m))
    (Backend.cleanup root id) never anything.
Proof.
  unfold Backend.cleanup.
  eapply hoare_bind_done with
    (Q1 := fun _ d => node_at (Backend.routerPath root) d = Some (Dir m)).
  { apply hoare_always_done with (S := anything). apart_proof. }
  intros _. apply never_bind. unfold Backend.simplify_router.
  eapply hoare_bind_done with
    (Q1 := fun _ d => node_at (Backend.routerPath root) d = Some (Dir m));
    [now apply hoare_log|intros _].
  apply write_on_directory_throws.
Qed.

Lemma plugin_directory_fails m :
  hoare (fun d => node_at (Backend.pluginFilePath root) d = Some (Dir m))
    (Backend.cleanup root id) never anything.
Proof.
  set (J := fun d => node_at (Backend.pluginFilePath root) d = Some (Dir m)).
  unfold Backend.cleanup.
  eapply hoare_bind_done with (Q1 := fun _ => J).
  { apply hoare_always_done with (S := anything). subst J. apart_proof. }
  intros _. eapply hoare_bind_done with (Q1 := fun _ => J).
  { apply hoare_always_done with (S := anything). subst J. apart_proof. }
  intros _. apply never_bind. unfold Backend.update_plugin_file.
  eapply hoare_bind_done with (Q1 := fun _ => J); [now apply hoare_log|intros _].
  apply read_on_directory_throws.
Qed.

Lemma plugin_test_directory_fails m :
  hoare (fun d => node_at (Backend.pluginTestPath root) d = Some (Dir m))
    (Backend.cleanup root id) never anything.
Proof.
  set (J := fun d => node_at (Backend.pluginTestPath root) d = Some (Dir m)).
  unfold Backend.cleanup.
  eapply hoare_bind_done with (Q1 := fun _ => J).
  { apply hoare_always_done with (S := anything). subst J. apart_proof. }
  intros _. eapply hoare_bind_done with (Q1 := fun _ => J).
  { apply hoare_always_done with (S := anything). subst J. apart_proof. }
  intros _. eapply hoare_bind_done with (Q1 := fun _ => J).
  { apply hoare_always_done with (S := anything). subst J. apart_proof. }
  intros _. apply never_bind. unfold Backend.remove_tests.
  eapply hoare_bind_done with (Q1 := fun _ => J); [now apply hoare_log|intros _].
  apply never_bind. apply unlink_on_directory_throws.
Qed.

Lemma router_test_directory_fails m :
  hoare (fun d => node_at (Backend.routerTestPath root) d = Some (Dir m))
    (Backend.cleanup root id) never anything.
Proof.
  set (J := fun d => node_at (Backend.routerTestPath root) d = Some (Dir m)).
  unfold Backend.cleanup.
  eapply hoare_bind_done with (Q1 := fun _ => J).
  { apply hoare_always_done with (S := anything). subst J. apart_proof. }
  intros _. eapply hoare_bind_done with (Q1 := fun _ => J).
  { apply hoare_always_done with (S := anything). subst J. apart_proof. }
  intros _. eapply hoare_bind_done with (Q1 := fun _ => J).
  { apply hoare_always_done with (S := anything). subst J. apart_proof. }
  intros _. apply never_bind. unfold Backend.remove_tests.
  eapply hoare_bind_done with (Q1 := fun _ => J); [now apply hoare_log|intros _].
  eapply hoare_bind_done with (Q1 := fun _ => J).
  { apply hoare_always_done with (S := anything). subst J. apart_proof. }
  intros _. apply unlink_on_directory_throws.
Qed.

End BackendDirectories.

(** A step that ends normally and keeps an invariant. *)
Lemma hoare_surely_keep {A} (J P : node -> Prop) (m : M A) S1 S2 :
  hoare J m (always J) S1 ->
  hoare P m (surely (fun _ _ => True)) S2 ->
  hoare (fun d => J d /\ P d) m (surely (fun _ => J)) anything.
Proof.
  intros H1 H2. eapply hoare_conseq; [apply (hoare_conj _ _ _ _ _ _ _ H1 H2)|..]; auto.
  - intros r d [HJ Hs]. destruct r; [exact HJ|contradiction..].
  - intros d _. exact I.
Qed.

Lemma remove_tree_finishes p label :
  p <> [] -> hoare anything (remove_tree p label) (surely (fun _ _ => True)) anything.
Proof.
  intros Hp. unfold remove_tree.
  eapply hoare_bind_surely; [apply hoare_observe_sp|].
  intros b. destruct b; [|apply hoare_ret; intros; exact I].
  eapply hoare_bind_surely; [apply hoare_log_sp|]. intros ?; cbv beta.
  apply hoare_mutate; [intros; split; exact I|].
  intros d _ Hf. destruct (rm_total p d Hp) as [d' Hd']. congruence.
Qed.

Lemma remove_file_finishes p label :
  p <> [] ->
  hoare (fun d => absent p d \/ exists c, is_file p c d) (remove_file p label)
    (surely (fun _ _ => True)) anything.
Proof.
  intros Hp. unfold remove_file.
  eapply hoare_bind_surely; [apply hoare_observe_sp|].
  intros b. destruct b; [|apply hoare_ret; intros; exact I].
  eapply hoare_bind_surely; [apply hoare_log_sp|]. intros ?; cbv beta.
  apply hoare_mutate; [intros; split; exact I|].
  intros d [[Ha|[c Hc]] Hb] Hf.
  - apply existsSync_true in Hb as [n Hn]. unfold absent in Ha. congruence.
  - destruct (unlink_total p c d Hp Hc) as [d' Hd']. congruence.
Qed.

Lemma router_step_finishes root :
  hoare (fun d => absent (Backend.routerPath root) d
                  \/ exists c, is_file (Backend.routerPath root) c d)
    (Backend.simplify_router root) (surely (fun _ _ => True)) anything.
Proof.
  unfold Backend.simplify_router.
  eapply hoare_bind_surely; [apply hoare_log_sp|]. intros ?; cbv beta.
  eapply hoare_bind_surely; [apply hoare_observe_sp|].
  intros b. destruct b; [|apply hoare_ret; intros; exact I].
  eapply hoare_bind_surely with (Q1 := fun _ _ => True); [|intros _; apply hoare_log; intros; cbn; auto].
  apply hoare_mutate; [intros; split; exact I|].
  intros d [[Ha|[c Hc]] Hb] Hf.
  - apply existsSync_true in Hb as [n Hn]. unfold absent in Ha. congruence.
  - destruct (write_total (Backend.routerPath root) Backend.simpleRouter c d)
      as [d' Hd']; [fixed_name|apply app_cons_nonempty|exact Hc|congruence].
Qed.

Lemma plugin_step_finishes root :
  hoare (fun d => absent (Backend.pluginFilePath root) d
                  \/ exists c, is_file (Backend.pluginFilePath root) c d)
    (Backend.update_plugin_file root) (surely (fun _ _ => True)) anything.
Proof.
  unfold Backend.update_plugin_file.
  eapply hoare_bind_surely; [apply hoare_log_sp|]. intros ?; cbv beta.
  eapply hoare_bind_surely; [apply hoare_observe_sp|].
  intros b. destruct b; [|apply hoare_ret; intros; exact I].
  eapply hoare_bind_surely with
    (Q1 := fun c d => is_file (Backend.pluginFilePath root) c d).
  - apply hoare_attempt.
    + intros d c [_ _] Hr. unfold readFileSync in Hr. cbn. unfold is_file.
      destruct (node_at _ d) as [[x|m]|]; inversion Hr; subst; reflexivity.
    + intros d [[Ha|[c Hc]] Hb] Hr.
      * apply existsSync_true in Hb as [n Hn]. unfold absent in Ha. congruence.
      * unfold readFileSync, is_file in *. rewrite Hc in Hr. discriminate.
  - intros c.
    eapply hoare_bind_surely with (Q1 := fun _ _ => True); [|intros _; apply hoare_log; intros; cbn; auto].
    apply hoare_mutate; [intros; split; exact I|].
    intros d Hc Hf.
    destruct (write_total (Backend.pluginFilePath root) (Backend.pluginContent c) c d)
      as [d' Hd']; [fixed_name|apply app_cons_nonempty|exact Hc|congruence].
Qed.

Lemma backend_report_finishes id :
  hoare anything (Backend.report id) (surely (fun _ _ => True)) anything.
Proof.
  unfold Backend.report.
  repeat (eapply hoare_bind_surely with (Q1 := fun _ _ => True);
          [apply hoare_log; intros; cbn; auto|intros _]).
  apply hoare_log; intros; cbn; auto.
Qed.

Lemma backend_cleanup_finishes root id :
  let ok q := fun d => absent q d \/ exists c, is_file q c d in
  hoare (fun d => ok (Backend.routerPath root) d
                  /\ ok (Backend.pluginFilePath root) d
                  /\ ok (Backend.pluginTestPath root) d
                  /\ ok (Backend.routerTestPath root) d)
    (Backend.cleanup root id) (surely (fun _ _ => True)) anything.
Proof.
  intros ok.
  set (R := ok (Backend.routerPath root)).
  set (P := ok (Backend.pluginFilePath root)).
  set (PT := ok (Backend.pluginTestPath root)).
  set (RT := ok (Backend.routerTestPath root)).
  unfold Backend.cleanup.
  (* services *)
  eapply hoare_bind_surely with
    (Q1 := fun _ d => R d /\ P d /\ PT d /\ RT d).
  { eapply hoare_conseq;
      [apply (hoare_surely_keep (fun d => R d /\ P d /\ PT d /\ RT d) anything
                _ anything anything)|..].
    - subst R P PT RT ok; cbv beta. keeps.
    - unfold Backend.remove_services.
      eapply hoare_bind_surely with (Q1 := fun _ _ => True); [apply hoare_log; intros; cbn; auto|].
      intros _. apply remove_tree_finishes, app_cons_nonempty.
    - intros d H. split; [exact H|exact I].
    - auto.
    - auto. }
  (* router *)
  intros _. eapply hoare_bind_surely with (Q1 := fun _ d => P d /\ PT d /\ RT d).
  { eapply hoare_conseq;
      [apply (hoare_surely_keep (fun d => P d /\ PT d /\ RT d) R
                _ anything anything)|..].
    - subst R P PT RT ok; cbv beta. keeps.
    - apply router_step_finishes.
    - intros d (H1 & H2). split; assumption.
    - auto.
    - auto. }
  (* plugin *)
  intros _. eapply hoare_bind_surely with (Q1 := fun _ d => PT d /\ RT d).
  { eapply hoare_conseq;
      [apply (hoare_surely_keep (fun d => PT d /\ RT d) P _ anything anything)|..].
    - subst R P PT RT ok; cbv beta. keeps.
    - apply plugin_step_finishes.
    - intros d (H1 & H2). split; assumption.
    - auto.
    - auto. }
  (* tests *)
  intros _. eapply hoare_bind_surely with (Q1 := fun _ _ => True).
  { unfold Backend.remove_tests.
    eapply hoare_bind_surely with (Q1 := fun _ d => PT d /\ RT d);
      [apply hoare_log; intros; cbn; auto|intros _].
    eapply hoare_bind_surely with (Q1 := fun _ => RT).
    - eapply hoare_conseq;
        [apply (hoare_surely_keep RT PT _ anything anything)|..].
      + subst R P PT RT ok; cbv beta. keeps.
      + apply remove_file_finishes, app_cons_nonempty.
      + intros d (H1 & H2). split; assumption.
      + auto.
      + auto.
    - intros _. apply remove_file_finishes, app_cons_nonempty. }
  intros _. eapply hoare_bind_surely with (Q1 := fun _ _ => True).
  { unfold Backend.remove_dev. apply remove_tree_finishes, app_cons_nonempty. }
  intros _. apply backend_report_finishes.
Qed.

(** X12: on a valid package (with a text as plugin id) the backend script
    ends with exit code 0 exactly when none of src/router.ts,
    src/plugin.ts, src/plugin.test.ts and src/router.test.ts is a
    directory. *)
Theorem backend_fails_on_directories_only pluginPath manifest w id :
  valid_package pluginPath manifest (disk w) (Some (JStr id)) ->
  fst (run (Backend.main (Some pluginPath) manifest) w) = 0%Z
  <-> (forall q m,
         In q [Backend.routerPath pluginPath; Backend.pluginFilePath pluginPath;
               Backend.pluginTestPath pluginPath; Backend.routerTestPath pluginPath] ->
         node_at q (disk w) <> Some (Dir m)).
Proof.
  intros Hv. destruct (backend_main_valid _ _ _ _ Hv) as (w0 & Hd & _ & Hm).
  unfold run. rewrite Hm. rewrite <- Hd. clear Hm Hd Hv.
  split.
  - intros H0 q m Hq Hdir.
    assert (hoare (fun d => node_at q d = Some (Dir m))
              (Backend.cleanup pluginPath (Some (JStr id))) (on_done (fun _ _ => False)) anything)
      as Hfail.
    { destruct Hq as [<-|[<-|[<-|[<-|[]]]]].
      - apply router_directory_fails.
      - apply plugin_directory_fails.
      - apply plugin_test_directory_fails.
      - apply router_test_directory_fails. }
    destruct (Hfail w0 Hdir) as [Hq' _].
    destruct (proj2 (cleanup_no_exit pluginPath) (Some (JStr id)) w0 I) as [Hx _].
    unfold try_catch in H0.
    destruct (Backend.cleanup pluginPath (Some (JStr id)) w0) as [[[]|e|c] w1]; cbn in *.
    + exact Hq'.
    + discriminate.
    + exact Hx.
  - intros Hno.
    assert (forall q,
              In q [Backend.routerPath pluginPath; Backend.pluginFilePath pluginPath;
                    Backend.pluginTestPath pluginPath;
                    Backend.routerTestPath pluginPath] ->
              absent q (disk w0) \/ exists c, is_file q c (disk w0)) as Hok.
    { intros q Hq. specialize (Hno q). unfold absent, is_file.
      destruct (node_at q (disk w0)) as [[c|m]|]; eauto.
      now destruct (Hno m Hq). }
    destruct (backend_cleanup_finishes pluginPath (Some (JStr id)) w0) as [Hs _].
    { repeat split; apply Hok; cbn; auto. }
    unfold try_catch.
    destruct (Backend.cleanup pluginPath (Some (JStr id)) w0) as [[[]|e|c] w1]; cbn in *;
      [reflexivity|contradiction..].
Qed.

(** ** A failure after the first step *)

Lemma bind_throw {A B} (m : M A) (k : A -> M B) w e w1 :
  m w = (Throw e, w1) -> (m ≫= k) w = (Throw e, w1).
Proof. intros H. unfold mbind, M_bind, bind. now rewrite H. Qed.

(** The first step of the frontend script always ends normally, and
    leaves the disk that [rmSync] gives. *)
Lemma fetch_step_run root w :
  exists w1,
    Frontend.remove_fetch_component root w = (Done tt, w1)
    /\ rmSync (Frontend.exampleFetchDir root) (disk w) = Some (disk w1).
Proof.
  unfold Frontend.remove_fetch_component, remove_tree. run_monad.
  destruct (existsSync (Frontend.exampleFetchDir root) (disk w)) eqn:Hb.
  - destruct (rm_total (Frontend.exampleFetchDir root) (disk w)) as [d' Hd'];
      [apply app_cons_nonempty|].
    unfold mutate. cbn [disk]. rewrite Hd'. eexists. split; reflexivity.
  - eexists. split; [reflexivity|]. cbn [disk].
    apply rm_missing. now apply existsSync_false.
Qed.

Section TakenName.

Variables (root : path) (name : jsstring).

Let cn := name ++ lit "Page".

Hypothesis one_segment : ~ In (ch "/") cn.

Let E := Frontend.exampleComponentDir root.
Let N := Frontend.componentsDir root ++ [cn].
Let F := Frontend.exampleFetchDir root.

Lemma fetch_apart_from k : ~ F `prefix_of` Frontend.componentsDir root ++ [k] ->
  ~ Frontend.componentsDir root ++ [k] `prefix_of` F ->
  forall d d', rmSync F d = Some d' ->
  node_at (Frontend.componentsDir root ++ [k]) d'
  = node_at (Frontend.componentsDir root ++ [k]) d.
Proof. intros H1 H2 d d' Hr. eapply rm_apart; eassumption. Qed.

Lemma siblings_apart (k1 k2 : jsstring) :
  k1 <> k2 ->
  ~ Frontend.componentsDir root ++ [k1] `prefix_of` Frontend.componentsDir root ++ [k2].
Proof.
  intros Hne Hp. apply prefix_app_inv in Hp. destruct Hp as [j Hj].
  cbn in Hj. inversion Hj. congruence.
Qed.

Lemma component_name_not_fetch : cn <> lit "ExampleFetchComponent".
Proof. subst cn. apply ends_differ_b. vm_compute. reflexivity. Qed.

Lemma component_name_not_placeholder : cn <> lit "ExampleComponent".
Proof. subst cn. apply ends_differ_b. vm_compute. reflexivity. Qed.

Lemma rename_on_taken_name_throws d mE n :
  node_at E d = Some (Dir mE) ->
  node_at N d = Some n ->
  (forall m, n = Dir m -> is_empty_dir m = false) ->
  renameSync E N d = None.
Proof.
  intros HE HN Hn. unfold renameSync.
  destruct (creatable N); [|reflexivity]. cbn [negb]. rewrite HE.
  rewrite bool_decide_eq_false_2.
  2:{ subst E N. unfold Frontend.exampleComponentDir. intros H.
      apply app_inv_head in H. inversion H as [H'].
      symmetry in H'. now apply component_name_not_placeholder in H'. }
  rewrite bool_decide_eq_false_2.
  2:{ subst E N. apply siblings_apart. intros H. symmetry in H.
      now apply component_name_not_placeholder in H. }
  rewrite HN. destruct n as [c|m]; [reflexivity|].
  now rewrite (Hn m eq_refl).
Qed.

Lemma cleanup_on_taken_name w mE n :
  node_at E (disk w) = Some (Dir mE) ->
  node_at N (disk w) = Some n ->
  (forall m, n = Dir m -> is_empty_dir m = false) ->
  exists w1,
    Frontend.cleanup root cn w = (Throw SystemError, w1)
    /\ rmSync F (disk w) = Some (disk w1)
    /\ exists d, snaps w1 = snaps w ++ d.
Proof.
  intros HE HN Hn.
  destruct (fetch_step_run root w) as (w1 & Hstep & Hrm). fold F in Hrm.
  assert (node_at E (disk w1) = Some (Dir mE)) as HE1.
  { subst E F. unfold Frontend.exampleComponentDir, Frontend.exampleFetchDir in *.
    rewrite (rm_apart _ _ _ _ Hrm); [exact HE|apply siblings_apart..]; discriminate. }
  assert (node_at N (disk w1) = Some n) as HN1.
  { subst N F. unfold Frontend.exampleFetchDir in *.
    rewrite (rm_apart _ _ _ _ Hrm); [exact HN|apply siblings_apart..].
    - intros H. symmetry in H. now apply component_name_not_fetch in H.
    - apply component_name_not_fetch. }
  pose proof (rename_on_taken_name_throws _ _ _ HE1 HN1 Hn) as Hren.
  assert (exists d, snaps w1 = snaps w ++ d) as Hsn.
  { revert Hstep. unfold Frontend.remove_fetch_component, remove_tree. run_monad.
    destruct (existsSync _ (disk w)); cbn.
    - unfold mutate. cbn [disk]. destruct (rmSync _ (disk w)); intros H; inversion H.
      cbn. eauto.
    - intros H. inversion H. cbn. exists []. now rewrite app_nil_r. }
  unfold Frontend.cleanup. rewrite (bind_run _ _ _ _ _ Hstep).
  rewrite (bind_run _ _ _ _ _ (log_run _ _)).
  eexists. split; [|split].
  - apply bind_throw. unfold Frontend.rename_component.
    pose proof (new_dir_segment root name one_segment) as E1. fold cn in E1.
    rewrite E1. fold E N.
    unfold mbind at 1. unfold M_bind, bind, observe. cbn [disk].
    assert (existsSync E (disk w1) = true) as -> by (apply existsSync_true; eauto).
    rewrite (bind_run _ _ _ _ _ (log_run _ _)).
    apply bind_throw. unfold mutate. cbn [disk]. rewrite Hren. reflexivity.
  - cbn [disk]. exact Hrm.
  - cbn [snaps]. exact Hsn.
Qed.

End TakenName.

(** X13: when the directory named after the component is already there, as a
    file or as a directory that is not empty, the frontend script fails at
    the rename: it ends with exit code 1, and the disk it leaves is the
    disk without ExampleFetchComponent, which the first step has removed
    by then.  Nothing is put back. *)
Theorem taken_name_fails_after_removal unicode_upper pluginPath manifest w id mE n :
  let cn := Frontend.componentName unicode_upper id in
  valid_package pluginPath manifest (disk w) (Some (JStr id)) ->
  ~ In (ch "/") cn ->
  node_at (Frontend.exampleComponentDir pluginPath) (disk w) = Some (Dir mE) ->
  node_at (Frontend.componentsDir pluginPath ++ [cn]) (disk w) = Some n ->
  (forall m, n = Dir m -> is_empty_dir m = false) ->
  let r := run (Frontend.main unicode_upper (Some pluginPath) manifest) w in
  fst r = 1%Z
  /\ rmSync (Frontend.exampleFetchDir pluginPath) (disk w) = Some (disk (snd r)).
Proof.
  intros cn Hv Hseg HE HN Hn r. subst r.
  destruct (frontend_main_valid unicode_upper _ _ _ _ Hv) as (w0 & Hd & _ & Hm).
  unfold run. rewrite Hm. rewrite <- Hd in HE, HN |- *.
  destruct (cleanup_on_taken_name pluginPath (toPascalCase unicode_upper id)
              Hseg w0 mE n HE HN Hn) as (w1 & Hc & Hrm & _).
  unfold try_catch. unfold Frontend.componentName. rewrite Hc.
  unfold Frontend.failed. run_monad. split; [reflexivity|exact Hrm].
Qed.

(** ** When the frontend script succeeds *)









Lemma hoare_false {A} (m : M A) Q S : hoare (fun _ => False) m Q S.
Proof. intros w []. Qed.

Lemma guard_true p c d : is_file p c d -> existsSync p d = false -> False.
Proof.
  unfold is_file. intros H Hb. apply existsSync_false in Hb. congruence.
Qed.


Lemma read_file p c d : is_file p c d -> readFileSync p d = Some c.
Proof. unfold is_file, readFileSync. now intros ->. Qed.

Section FileSteps.

Variables (X : path) (name : jsstring).

Let cn := name ++ lit "Page".

Hypothesis one_segment : ~ In (ch "/") cn.
Hypothesis file_name_ok : name_ok (cn ++ lit ".tsx") = true.
Hypothesis test_name_ok : name_ok (cn ++ lit ".test.tsx") = true.






End FileSteps.



Section FrontendScaffold.

Variables (root : path) (name : jsstring).

Let cn := name ++ lit "Page".

Hypothesis one_segment : ~ In (ch "/") cn.
Hypothesis dir_name_ok : name_ok cn = true.
Hypothesis file_name_ok : name_ok (cn ++ lit ".tsx") = true.
Hypothesis test_name_ok : name_ok (cn ++ lit ".test.tsx") = true.

Let E := Frontend.exampleComponentDir root.
Let N := Frontend.componentsDir root ++ [cn].









End FrontendScaffold.


(** ** Text that the rules pass over *)

Lemma star_split p k : forall i r,
  star p k i = Some r -> exists a b, i = a ++ b /\ k b = Some r.
Proof.
  induction i as [|x i IH]; intros r H; cbn [star] in H.
  - now exists [], [].
  - destruct (p x).
    + destruct (star p k i) as [r'|] eqn:Hs.
      * inversion H; subst r'. destruct (IH r eq_refl) as (a & b & -> & Hk).
        now exists (x :: a), b.
      * now exists [], (x :: i).
    + now exists [], (x :: i).
Qed.

(** A match of a pattern contains each literal of the pattern. *)
Lemma exec_has_literal re s : forall t rest,
  In (Lit s) re -> exec re t = Some rest -> occurs s t = true.
Proof.
  induction re as [|atom re IH]; intros t rest Hin H; [destruct Hin|].
  assert (forall t1, (exists a, t = a ++ t1) -> exec re t1 = Some rest ->
                     In (Lit s) re -> occurs s t = true) as Hrest.
  { intros t1 [a ->] H1 Hin'. apply occurs_app_r. now apply (IH t1 rest). }
  destruct atom as [l|p|p|c]; cbn [exec] in H.
  - destruct (strip l t) as [t1|] eqn:Hl; [|discriminate].
    apply strip_Some in Hl. subst t.
    destruct Hin as [Heq|Hin].
    + inversion Heq; subst l. apply (occurs_here s [] t1).
    + apply (Hrest t1); eauto.
  - destruct Hin as [Heq|Hin]; [discriminate|].
    destruct t as [|x t1]; [discriminate|]. destruct (p x); [|discriminate].
    apply (Hrest t1); [now exists [x]|assumption..].
  - destruct Hin as [Heq|Hin]; [discriminate|].
    destruct (star_split _ _ _ _ H) as (a & b & -> & Hk).
    apply (Hrest b); eauto.
  - destruct Hin as [Heq|Hin]; [discriminate|].
    destruct t as [|x t1]; [apply (Hrest []); [now exists []|assumption..]|].
    destruct (x =? c).
    + destruct (exec re t1) as [r|] eqn:H1.
      * inversion H; subst r. apply (Hrest t1); [now exists [x]|assumption..].
      * apply (Hrest (x :: t1)); [now exists []|assumption..].
    + apply (Hrest (x :: t1)); [now exists []|assumption..].
Qed.

Lemma occurs_inside p a b t :
  occurs (a ++ p ++ b) t = true -> occurs p t = true.
Proof.
  intros H. apply occurs_true in H as (x & y & ->).
  rewrite <- !app_assoc. rewrite (app_assoc x a). apply occurs_here.
Qed.

Lemma occurs_nil_false p : p <> [] -> occurs p [] = false.
Proof. destruct p; [contradiction|reflexivity]. Qed.

Lemma scan_without_match re r : forall s b,
  (forall i, exec re (drop i s) = None) -> scan re r b 0 s = s.
Proof.
  induction s as [|c s IH]; intros b H; cbn [scan].
  - pose proof (H 0%nat) as H0. rewrite drop_0 in H0. now rewrite H0.
  - pose proof (H 0%nat) as H0. rewrite drop_0 in H0. rewrite H0.
    f_equal. apply IH. intros i. apply (H (S i)).
Qed.

(** A rule leaves a text as it is when a part of one of its literals does
    not occur in the text. *)
Lemma replace_without_literal re r c p a b :
  In (Lit (a ++ p ++ b)) re -> occurs p c = false -> replace_all re r c = c.
Proof.
  intros Hin Hp. apply scan_without_match. intros i.
  destruct (exec re (drop i c)) as [rest|] eqn:He; [|reflexivity].
  apply (exec_has_literal _ _ _ _ Hin), occurs_inside in He.
  apply (occurs_app_r _ (take i c)) in He. rewrite take_drop in He. congruence.
Qed.

(** X15: a text without the placeholder name is a text that the rules of the
    frontend script do not change, and one without the name of the
    example service and without a call of the router with its options is
    one that the rules of the backend script do not change. *)
Theorem rules_leave_other_text cn c :
  (occurs (lit "ExampleComponent") c = false ->
   Frontend.testContent cn c = c
   /\ Frontend.indexContent cn c = c
   /\ Frontend.pluginContent cn c = c
   /\ (occurs (lit "ExampleFetchComponent") c = false -> Frontend.content cn c = c))
  /\ (occurs (lit "todoList") c = false ->
      occurs (lit "await createRouter({") c = false ->
      Backend.pluginContent c = c).
Proof.
  split.
  - intros H.
    assert (forall r, replace_all Frontend.re_from r c = c) as H1.
    { intros r. apply (replace_without_literal _ r c (lit "ExampleComponent") (lit "./") []);
        [unfold Frontend.re_from; cbn [In]; auto 10|assumption]. }
    assert (forall r, replace_all Frontend.re_placeholder r c = c) as H2.
    { intros r. apply (replace_without_literal _ r c (lit "ExampleComponent") [] []);
        [unfold Frontend.re_placeholder; cbn [In]; auto 10|assumption]. }
    assert (forall r, replace_all Frontend.re_lazy_import r c = c) as H3.
    { intros r. apply (replace_without_literal _ r c (lit "ExampleComponent") (lit "./components/") []);
        [unfold Frontend.re_lazy_import; cbn [In]; auto 10|assumption]. }
    assert (forall r, replace_all Frontend.re_member r c = c) as H4.
    { intros r. apply (replace_without_literal _ r c (lit "ExampleComponent") (lit "m.") []);
        [unfold Frontend.re_member; cbn [In]; auto 10|assumption]. }
    assert (forall r, replace_all Frontend.re_export r c = c) as H5.
    { intros r. apply (replace_without_literal _ r c (lit "ExampleComponent") (lit "export const ") []);
        [unfold Frontend.re_export; cbn [In]; auto 10|assumption]. }
    unfold Frontend.testContent, Frontend.indexContent, Frontend.pluginContent,
      Frontend.content.
    rewrite !H1, !H2, H3, H4. repeat split.
    intros Hf.
    rewrite (replace_without_literal Frontend.re_fetch_import [] c
               (lit "ExampleFetchComponent") (lit "import { ") (lit " } from "));
      [|unfold Frontend.re_fetch_import; cbn [In]; auto 10|assumption].
    rewrite (replace_without_literal Frontend.re_fetch_jsx [] c
               (lit "ExampleFetchComponent") (lit "<") (lit " />"));
      [|unfold Frontend.re_fetch_jsx; cbn [In]; auto 10|assumption].
    apply H5.
  - intros Ht Hr. unfold Backend.pluginContent.
    rewrite (replace_without_literal Backend.re_service_import [] c
               (lit "todoList") (lit "import { ") (lit "ServiceRef } from "));
      [|unfold Backend.re_service_import; cbn [In]; auto 10|assumption].
    rewrite (replace_without_literal Backend.re_service_dep [] c
               (lit "todoList") [] (lit ": todoListServiceRef"));
      [|unfold Backend.re_service_dep; cbn [In]; auto 10|assumption].
    rewrite (replace_without_literal Backend.re_service_param [] c
               (lit "todoList") [] []);
      [|unfold Backend.re_service_param; cbn [In]; auto 10|assumption].
    apply (replace_without_literal _ _ c (lit "await createRouter({") [] []);
      [unfold Backend.re_create_router; cbn [In]; auto 10|assumption].
Qed.

(** ** plugin.ts after a run, and the first removal *)

Lemma frontend_plugin_step_writes root cn c :
  hoare (is_file (Frontend.pluginFilePath root) c)
    (Frontend.update_plugin_file root cn)
    (on_done (fun _ => is_file (Frontend.pluginFilePath root)
                         (Frontend.pluginContent cn c)))
    anything.
Proof.
  unfold Frontend.update_plugin_file.
  eapply hoare_bind_done; [apply hoare_surely_done, hoare_log_sp|].
  intros ?; cbv beta.
  eapply hoare_bind_done; [apply hoare_surely_done, hoare_observe_sp|].
  intros b. destruct b.
  - eapply hoare_bind_done; [apply hoare_attempt_sp|]. intros c'; cbv beta.
    eapply hoare_bind_done with
      (Q1 := fun _ => is_file (Frontend.pluginFilePath root)
                        (Frontend.pluginContent cn c)).
    + apply hoare_mutate; [|now intros].
      intros d d' [[Hd _] Hr] Hf. split; [|exact I].
      rewrite (read_file _ _ _ Hd) in Hr. inversion Hr; subst c'.
      eapply write_at, Hf.
    + intros ?. apply hoare_log. intros d H. exact H.
  - apply hoare_ret. intros d [Hd Hb]. now apply guard_true in Hd.
Qed.

Lemma backend_plugin_step_writes root c :
  hoare (is_file (Backend.pluginFilePath root) c)
    (Backend.update_plugin_file root)
    (on_done (fun _ => is_file (Backend.pluginFilePath root)
                         (Backend.pluginContent c)))
    anything.
Proof.
  unfold Backend.update_plugin_file.
  eapply hoare_bind_done; [apply hoare_surely_done, hoare_log_sp|].
  intros ?; cbv beta.
  eapply hoare_bind_done; [apply hoare_surely_done, hoare_observe_sp|].
  intros b. destruct b.
  - eapply hoare_bind_done; [apply hoare_attempt_sp|]. intros c'; cbv beta.
    eapply hoare_bind_done with
      (Q1 := fun _ => is_file (Backend.pluginFilePath root) (Backend.pluginContent c)).
    + apply hoare_mutate; [|now intros].
      intros d d' [[Hd _] Hr] Hf. split; [|exact I].
      rewrite (read_file _ _ _ Hd) in Hr. inversion Hr; subst c'.
      eapply write_at, Hf.
    + intros ?. apply hoare_log. intros d H. exact H.
  - apply hoare_ret. intros d [Hd Hb]. now apply guard_true in Hd.
Qed.

Lemma backend_cleanup_patches_plugin root id c :
  hoare (is_file (Backend.pluginFilePath root) c) (Backend.cleanup root id)
    (on_done (fun _ => is_file (Backend.pluginFilePath root)
                         (Backend.pluginContent c)))
    anything.
Proof.
  unfold Backend.cleanup.
  eapply hoare_bind_done with
    (Q1 := fun _ => is_file (Backend.pluginFilePath root) c).
  { apply hoare_always_done with (S := anything). frame_proof. }
  intros _. eapply hoare_bind_done with
    (Q1 := fun _ => is_file (Backend.pluginFilePath root) c).
  { apply hoare_always_done with (S := anything). frame_proof. }
  intros _. eapply hoare_bind_done; [apply backend_plugin_step_writes|].
  intros ?; cbv beta. apply hoare_always_done with (S := anything).
  apply hoare_bind_always; [frame_proof|intros _].
  apply hoare_bind_always; [frame_proof|intros _].
  apply backend_report_keeps.
Qed.

Section FrontendPlugin.

Variables (root : path) (name : jsstring).

Let cn := name ++ lit "Page".

Hypothesis one_segment : ~ In (ch "/") cn.

Let E := Frontend.exampleComponentDir root.
Let N := Frontend.componentsDir root ++ [cn].

Lemma rename_block_keeps_file q x :
  ~ E `prefix_of` q -> ~ N `prefix_of` q ->
  hoare (is_file q x) (Frontend.rename_component root cn)
    (always (is_file q x)) anything.
Proof.
  intros H1 H2.
  assert (forall k, q <> N ++ k) as HN.
  { intros k ->. apply H2. now apply prefix_app_r. }
  pose proof (HN []) as HN0. rewrite app_nil_r in HN0.
  pose proof (HN [cn ++ lit ".tsx"]) as HN1.
  pose proof (HN [cn ++ lit ".test.tsx"]) as HN2.
  pose proof (HN [lit "ExampleComponent.tsx"]) as HN3.
  pose proof (HN [lit "ExampleComponent.test.tsx"]) as HN4.
  pose proof (HN [lit "index.ts"]) as HN5.
  pose proof (new_dir_segment root name one_segment) as E1.
  pose proof (new_component_file_segment root name one_segment) as E2.
  pose proof (new_test_file_segment root name one_segment) as E3.
  fold cn in E1, E2, E3.
  unfold Frontend.rename_component; rewrite E1;
    unfold Frontend.update_component_file, Frontend.update_test_file,
      Frontend.update_index_file; rewrite E2, E3;
    unfold Frontend.componentFilePath, Frontend.testFilePath, Frontend.indexPath;
    fold E N; repeat keep_step; try exact I.
  all: first [ frame_files
             | unfold is_file in *;
               eapply rename_file; [eassumption| | |eassumption]; assumption ].
Qed.

Lemma frontend_cleanup_patches_plugin c :
  hoare (is_file (Frontend.pluginFilePath root) c) (Frontend.cleanup root cn)
    (on_done (fun _ => is_file (Frontend.pluginFilePath root)
                         (Frontend.pluginContent cn c)))
    anything.
Proof.
  unfold Frontend.cleanup.
  eapply hoare_bind_done with
    (Q1 := fun _ => is_file (Frontend.pluginFilePath root) c).
  { apply hoare_always_done with (S := anything). frame_proof. }
  intros _. eapply hoare_bind_done with
    (Q1 := fun _ => is_file (Frontend.pluginFilePath root) c);
    [now apply hoare_log|intros _].
  eapply hoare_bind_done with
    (Q1 := fun _ => is_file (Frontend.pluginFilePath root) c).
  { apply hoare_always_done with (S := anything).
    apply rename_block_keeps_file; subst E N cn; not_prefix. }
  intros _. eapply hoare_bind_done; [apply frontend_plugin_step_writes|].
  intros ?; cbv beta. apply hoare_always_done with (S := anything).
  apply hoare_bind_always; [frame_proof|intros _].
  apply frontend_report_keeps.
Qed.

End FrontendPlugin.

(** X16: after a run with exit code 0, a file src/plugin.ts holds the text it
    held before with the rules of the script applied, for a text (and,
    in the frontend script, a component name) without a surrogate code
    unit that has no partner, which is what UTF-8 can hold (for the
    frontend script: when the component name is one path segment). *)
Theorem plugin_file_patched unicode_upper pluginPath manifest w w1 c :
  well_formed c = true ->
  (forall id,
     valid_package pluginPath manifest (disk w) (Some (JStr id)) ->
     ~ In (ch "/") (Frontend.componentName unicode_upper id) ->
     well_formed (Frontend.componentName unicode_upper id) = true ->
     is_file (Frontend.pluginFilePath pluginPath) c (disk w) ->
     run (Frontend.main unicode_upper (Some pluginPath) manifest) w = (0%Z, w1) ->
     is_file (Frontend.pluginFilePath pluginPath)
       (Frontend.pluginContent (Frontend.componentName unicode_upper id) c) (disk w1))
  /\ (forall id,
        valid_package pluginPath manifest (disk w) id ->
        is_file (Backend.pluginFilePath pluginPath) c (disk w) ->
        run (Backend.main (Some pluginPath) manifest) w = (0%Z, w1) ->
        is_file (Backend.pluginFilePath pluginPath) (Backend.pluginContent c) (disk w1)).
Proof.
  intros _. split.
  - intros id Hv Hseg _ Hc Hr.
    destruct (frontend_success unicode_upper _ _ _ _ _ Hv Hr) as (w0 & Hd & _ & Hrun).
    pose proof (frontend_cleanup_patches_plugin pluginPath
                  (toPascalCase unicode_upper id) Hseg c w0) as [Hq _].
    { now rewrite Hd. }
    unfold Frontend.componentName in *. rewrite Hrun in Hq. exact Hq.
  - intros id Hv Hc Hr.
    destruct (backend_success _ _ _ _ _ Hv Hr) as (w0 & Hd & _ & Hrun).
    pose proof (backend_cleanup_patches_plugin pluginPath id c w0) as [Hq _].
    { now rewrite Hd. }
    rewrite Hrun in Hq. exact Hq.
Qed.

Lemma remove_tree_surely_absent p label :
  p <> [] ->
  hoare anything (remove_tree p label) (surely (fun _ => absent p)) anything.
Proof.
  intros Hp. unfold remove_tree.
  eapply hoare_bind_surely; [apply hoare_observe_sp|].
  intros b. destruct b.
  - eapply hoare_bind_surely; [apply hoare_log_sp|]. intros ?; cbv beta.
    apply hoare_mutate.
    + intros d d' _ Hf. split; [|exact I]. eapply rm_at, Hf.
    + intros d _ Hf. destruct (rm_total p d Hp) as [d' Hd']. congruence.
  - apply hoare_ret. intros d [_ Hb]. now apply existsSync_false in Hb.
Qed.

Lemma frontend_cleanup_removes_first root name :
  hoare anything (Frontend.cleanup root (name ++ lit "Page"))
    (always (absent (Frontend.exampleFetchDir root))) anything.
Proof.
  unfold Frontend.cleanup.
  eapply hoare_bind with
    (Q1 := surely (fun _ => absent (Frontend.exampleFetchDir root)));
    [|intros ?|contradiction..].
  { unfold Frontend.remove_fetch_component.
    eapply hoare_bind_surely with (Q1 := fun _ _ => True);
      [apply hoare_log; intros; exact I|intros _].
    apply remove_tree_surely_absent, app_cons_nonempty. }
  cbn [surely].
  apply hoare_bind_always; [apply log_keeps|intros _].
  apply hoare_bind_always; [apply rename_block_keeps_fetch_absent|intros _].
  apply hoare_bind_always;
    [apply frontend_plugin_step_keeps_absent; last_differ|intros _].
  apply hoare_bind_always; [frame_proof|intros _].
  apply frontend_report_keeps.
Qed.

Lemma backend_cleanup_removes_first root id :
  hoare anything (Backend.cleanup root id)
    (always (absent (Backend.servicesDir root))) anything.
Proof.
  unfold Backend.cleanup.
  eapply hoare_bind with
    (Q1 := surely (fun _ => absent (Backend.servicesDir root)));
    [|intros ?|contradiction..].
  { unfold Backend.remove_services.
    eapply hoare_bind_surely with (Q1 := fun _ _ => True);
      [apply hoare_log; intros; exact I|intros _].
    apply remove_tree_surely_absent, app_cons_nonempty. }
  cbn [surely].
  apply hoare_bind_always; [frame_proof|intros _].
  apply hoare_bind_always; [frame_proof|intros _].
  apply hoare_bind_always; [frame_proof|intros _].
  apply hoare_bind_always; [frame_proof|intros _].
  apply backend_report_keeps.
Qed.

(** X17: the first removal is done by the end of every run on a valid package
    (with a text as plugin id), also of a run that fails later: the
    frontend script leaves no ExampleFetchComponent, the backend script no
    services directory. *)
Theorem first_removal_survives_failure unicode_upper pluginPath manifest w :
  (forall id,
     valid_package pluginPath manifest (disk w) (Some (JStr id)) ->
     absent (Frontend.exampleFetchDir pluginPath)
       (disk (snd (run (Frontend.main unicode_upper (Some pluginPath) manifest) w))))
  /\ (forall id,
        valid_package pluginPath manifest (disk w) (Some (JStr id)) ->
        absent (Backend.servicesDir pluginPath)
          (disk (snd (run (Backend.main (Some pluginPath) manifest) w)))).
Proof.
  split; intros id Hv.
  - destruct (run_disk (Frontend.main unicode_upper (Some pluginPath) manifest) w)
      as [-> _].
    destruct (frontend_main_valid unicode_upper _ _ _ _ Hv) as (w0 & _ & _ & ->).
    assert (hoare anything
              (try_catch (Frontend.cleanup pluginPath
                            (Frontend.componentName unicode_upper id))
                 (fun _ => Frontend.failed))
              (always (absent (Frontend.exampleFetchDir pluginPath))) anything) as H.
    { eapply hoare_try; [apply frontend_cleanup_removes_first| |auto..].
      intros e. apply failed_keeps. }
    now apply (H w0).
  - destruct (run_disk (Backend.main (Some pluginPath) manifest) w) as [-> _].
    destruct (backend_main_valid _ _ _ _ Hv) as (w0 & _ & _ & ->).
    assert (hoare anything
              (try_catch (Backend.cleanup pluginPath (Some (JStr id)))
                 (fun _ => Backend.failed))
              (always (absent (Backend.servicesDir pluginPath))) anything) as H.
    { eapply hoare_try; [apply backend_cleanup_removes_first| |auto..].
      intros e. apply failed_keeps. }
    now apply (H w0).
Qed.

(** ** More runs on the sample packages *)

Ltac closed_path_side :=
  let H := fresh in
  intros H; apply (bool_decide_eq_true_2 _) in H; vm_compute in H; discriminate H.

Lemma sample_any_valid (d : node) id0 id :
  existsSync Sample.root d = true ->
  (exists text, node_at (Sample.root ++ [lit "package.json"]) d = Some (File text)) ->
  valid_package Sample.root (Sample.manifest (String id0 id)) d
    (Some (JStr (lit (String id0 id)))).
Proof.
  intros H1 H2. split; [exact H1|]. split; [exact H2|].
  split; [eexists; split; reflexivity|split; reflexivity].
Qed.

Lemma rejected_invocation_untouched_witness :
  (fst (run (Frontend.main Sample.ascii_only None (Sample.manifest "demo"))
          (boot Sample.frontend)) = 1%Z
   /\ disk (snd (run (Frontend.main Sample.ascii_only None (Sample.manifest "demo"))
                   (boot Sample.frontend))) = Sample.frontend)
  /\ (fst (run (Backend.main (Some Sample.root) None) (boot Sample.backend)) = 1%Z
      /\ snaps (snd (run (Backend.main (Some Sample.root) None) (boot Sample.backend)))
         = []).
Proof.
  split.
  - destruct (proj1 (rejected_invocation_untouched Sample.ascii_only None
                       (Sample.manifest "demo") (boot Sample.frontend)))
      as (H1 & H2 & _).
    + intros p id H. discriminate H.
    + split; [exact H1|exact H2].
  - destruct (proj2 (rejected_invocation_untouched Sample.ascii_only
                       (Some Sample.root) None (boot Sample.backend)))
      as (H1 & _ & H2).
    + intros p id _ (_ & _ & (pj & H & _) & _). discriminate H.
    + split; [exact H1|exact H2].
Defined.

Lemma rejection_messages_witness :
  last (out (snd (run (Backend.main (Some Sample.root) (Sample.manifest "demo"))
                    (boot Sample.no_manifest))))
  = Some (Stderr, [Txt "❌ No package.json found - not a valid plugin directory"]).
Proof.
  apply (rejection_messages Sample.ascii_only Backend.main Sample.root
           (Sample.manifest "demo") (boot Sample.no_manifest)).
  - right. reflexivity.
  - vm_compute. reflexivity.
  - vm_compute. reflexivity.
Defined.

Lemma exit_code_and_streams_witness :
  let r := run (Sample.frontend_script "my-service") (boot Sample.frontend) in
  (fst r = 0%Z \/ fst r = 1%Z)
  /\ exists new,
       out (snd r) = [] ++ new
       /\ (fst r = 0%Z -> Forall on_stdout new)
       /\ (fst r = 1%Z -> exists l, last new = Some l /\ on_stderr l).
Proof.
  apply (exit_code_and_streams Sample.ascii_only (Frontend.main Sample.ascii_only)
           (Some Sample.root) (Sample.manifest "my-service") (boot Sample.frontend)).
  left. reflexivity.
Defined.

Lemma backend_creates_nothing_witness :
  absent (Backend.routerPath Sample.root)
    (disk (snd (run (Sample.backend_script "demo") (boot Sample.cleaned)))).
Proof.
  apply (backend_creates_nothing (Some Sample.root) (Sample.manifest "demo")
           (boot Sample.cleaned) (Backend.routerPath Sample.root)).
  vm_compute. reflexivity.
Defined.

Lemma backend_leaves_other_files_witness :
  is_file (Sample.root ++ [lit "src"; lit "index.ts"])
    (lit "export { demoPlugin as default } from './plugin';")
    (disk (snd (run (Sample.backend_script "demo") (boot Sample.backend)))).
Proof.
  apply (backend_leaves_other_files Sample.root (Sample.manifest "demo")
           (boot Sample.backend) (Sample.root ++ [lit "src"; lit "index.ts"])
           (lit "export { demoPlugin as default } from './plugin';")).
  - vm_compute. reflexivity.
  - closed_path_side.
  - closed_path_side.
  - closed_path_side.
  - closed_path_side.
  - closed_path_side.
  - closed_path_side.
Defined.

Lemma frontend_leaves_other_files_witness :
  is_file (Sample.root ++ [lit "src"; lit "index.ts"])
    (lit "export { demoPlugin, DemoPage } from './plugin';")
    (disk (snd (run (Sample.frontend_script "my-service") (boot Sample.frontend)))).
Proof.
  apply (frontend_leaves_other_files Sample.ascii_only Sample.root
           (JObj [(lit "name", JStr (lit "demo"));
                  (lit "backstage", JObj [(lit "role", JStr (lit "plugin"));
                                          (lit "pluginId", JStr (lit "my-service"))])])
           (lit "my-service") (boot Sample.frontend)
           (Sample.root ++ [lit "src"; lit "index.ts"])
           (lit "export { demoPlugin, DemoPage } from './plugin';")).
  - reflexivity.
  - change (Frontend.componentName Sample.ascii_only (lit "my-service"))
      with (lit "MyServicePage").
    apply no_slash_lit. vm_compute. reflexivity.
  - vm_compute. reflexivity.
  - closed_path_side.
  - closed_path_side.
  - closed_path_side.
  - closed_path_side.
  - closed_path_side.
  - closed_path_side.
Defined.

Lemma exit_zero_means_clean_witness :
  frontend_clean Sample.root
    (disk (snd (run (Sample.frontend_script "my-service") (boot Sample.frontend))))
  /\ backend_clean Sample.root
       (disk (snd (run (Sample.backend_script "demo") (boot Sample.backend)))).
Proof.
  split.
  - apply (proj1 (exit_zero_means_clean Sample.ascii_only Sample.root
                    (Sample.manifest "my-service") (boot Sample.frontend)
                    (snd (run (Sample.frontend_script "my-service")
                            (boot Sample.frontend))))).
    vm_compute. reflexivity.
  - apply (proj2 (exit_zero_means_clean Sample.ascii_only Sample.root
                    (Sample.manifest "demo") (boot Sample.backend)
                    (snd (run (Sample.backend_script "demo") (boot Sample.backend))))).
    vm_compute. reflexivity.
Defined.

Lemma backend_fails_on_directories_only_witness :
  fst (run (Sample.backend_script "demo") (boot Sample.backend_router_dir)) = 0%Z
  <-> (forall q m,
         In q [Backend.routerPath Sample.root; Backend.pluginFilePath Sample.root;
               Backend.pluginTestPath Sample.root; Backend.routerTestPath Sample.root] ->
         node_at q Sample.backend_router_dir <> Some (Dir m)).
Proof.
  apply (backend_fails_on_directories_only Sample.root (Sample.manifest "demo")
           (boot Sample.backend_router_dir) (lit "demo")).
  apply sample_any_valid; [vm_compute; reflexivity|eexists; vm_compute; reflexivity].
Defined.

Lemma taken_name_fails_after_removal_witness :
  let r := run (Sample.frontend_script "my-service") (boot Sample.frontend_taken) in
  fst r = 1%Z
  /\ rmSync (Frontend.exampleFetchDir Sample.root) Sample.frontend_taken
     = Some (disk (snd r)).
Proof.
  eapply (taken_name_fails_after_removal Sample.ascii_only Sample.root
            (Sample.manifest "my-service") (boot Sample.frontend_taken)
            (lit "my-service")).
  - apply sample_any_valid; [vm_compute; reflexivity|eexists; vm_compute; reflexivity].
  - change (Frontend.componentName Sample.ascii_only (lit "my-service"))
      with (lit "MyServicePage").
    apply no_slash_lit. vm_compute. reflexivity.
  - vm_compute. reflexivity.
  - vm_compute. reflexivity.
  - intros m H. inversion H. vm_compute. reflexivity.
Defined.


Lemma rules_leave_other_text_witness :
  Frontend.testContent (lit "MyServicePage") (lit "export const answer = 42;")
  = lit "export const answer = 42;"
  /\ Frontend.content (lit "MyServicePage") (lit "export const answer = 42;")
     = lit "export const answer = 42;"
  /\ Backend.pluginContent (lit "export const answer = 42;")
     = lit "export const answer = 42;".
Proof.
  destruct (rules_leave_other_text (lit "MyServicePage")
              (lit "export const answer = 42;")) as [Hf Hb].
  destruct Hf as (H1 & _ & _ & H4); [vm_compute; reflexivity|].
  split; [exact H1|]. split.
  - apply H4. vm_compute. reflexivity.
  - apply Hb; vm_compute; reflexivity.
Defined.

Lemma plugin_file_patched_witness :
  is_file (Frontend.pluginFilePath Sample.root)
    (Frontend.pluginContent (Frontend.componentName Sample.ascii_only (lit "my-service"))
       (lit Sample.plugin_text))
    (disk (snd (run (Sample.frontend_script "my-service") (boot Sample.frontend))))
  /\ is_file (Backend.pluginFilePath Sample.root)
       (Backend.pluginContent (lit Sample.backend_plugin_text))
       (disk (snd (run (Sample.backend_script "demo") (boot Sample.backend)))).
Proof.
  split.
  - apply (proj1 (plugin_file_patched Sample.ascii_only Sample.root
                    (Sample.manifest "my-service") (boot Sample.frontend)
                    (snd (run (Sample.frontend_script "my-service")
                            (boot Sample.frontend)))
                    (lit Sample.plugin_text) eq_refl) (lit "my-service")).
    + apply sample_frontend_valid.
    + change (Frontend.componentName Sample.ascii_only (lit "my-service"))
        with (lit "MyServicePage").
      apply no_slash_lit. vm_compute. reflexivity.
    + vm_compute. reflexivity.
    + vm_compute. reflexivity.
    + vm_compute. reflexivity.
  - apply (proj2 (plugin_file_patched Sample.ascii_only Sample.root
                    (Sample.manifest "demo") (boot Sample.backend)
                    (snd (run (Sample.backend_script "demo") (boot Sample.backend)))
                    (lit Sample.backend_plugin_text) eq_refl)
             (Some (JStr (lit "demo")))).
    + apply sample_backend_valid.
    + vm_compute. reflexivity.
    + vm_compute. reflexivity.
Defined.

Lemma first_removal_survives_failure_witness :
  (fst (run (Sample.frontend_script "my-service") (boot Sample.frontend_taken)) = 1%Z
   /\ absent (Frontend.exampleFetchDir Sample.root)
        (disk (snd (run (Sample.frontend_script "my-service")
                      (boot Sample.frontend_taken)))))
  /\ absent (Backend.servicesDir Sample.root)
       (disk (snd (run (Sample.backend_script "demo") (boot Sample.backend)))).
Proof.
  split; [split; [vm_compute; reflexivity|]|].
  - apply (proj1 (first_removal_survives_failure Sample.ascii_only Sample.root
                    (Sample.manifest "my-service") (boot Sample.frontend_taken))
             (lit "my-service")).
    apply sample_any_valid; [vm_compute; reflexivity|eexists; vm_compute; reflexivity].
  - apply (proj2 (first_removal_survives_failure Sample.ascii_only Sample.root
                    (Sample.manifest "demo") (boot Sample.backend))
             (lit "demo")).
    apply sample_backend_valid.
Defined.

(** ** The package after a successful frontend run *)

Lemma no_dollar_export cn :
  no_dollar cn = true -> no_dollar (lit "export const " ++ cn) = true.
Proof. intros H. now rewrite no_dollar_app, H. Qed.

(** The export rule replaces the first export of the placeholder, whatever
    stands before and after it, and goes on behind it. *)
Lemma export_rule_first cn a b :
  no_dollar cn = true ->
  occurs (lit "export const ExampleComponent")
    (a ++ removelast (lit "export const ExampleComponent")) = false ->
  replace_all Frontend.re_export (lit "export const " ++ cn)
    (a ++ lit "export const ExampleComponent" ++ b)
  = a ++ (lit "export const " ++ cn)
      ++ replace_all Frontend.re_export (lit "export const " ++ cn) b.
Proof.
  intros Hd Ho. unfold Frontend.re_export.
  apply replace_lit_first; [discriminate|now apply no_dollar_export|exact Ho].
Qed.

(** C3, as the code has it.  After a successful frontend run on a valid
    package whose placeholder directory holds the component file, the
    test file and index.ts, for a component name that is one path
    segment, has no dollar sign, shares no text with the placeholder name
    and, like the texts of the files, has no surrogate code unit without
    its partner: the placeholder directory is gone and the three files lie
    in the directory named after the component; the test file and
    index.ts hold their texts with the two rules of the script applied
    and do not contain ExampleComponent; the component file holds its
    text without the fetch import and markup and with the export of the
    placeholder replaced by the export of the component name, at its first
    occurrence and in the same way behind it (and as it is when there is
    none); plugin.ts, when it is a file, holds its text with its two
    rules applied; and every file outside the places the script works on
    is as before. *)
Theorem renamed_unit_consistent unicode_upper pluginPath manifest w w1 id c t i :
  let cn := Frontend.componentName unicode_upper id in
  let E := Frontend.exampleComponentDir pluginPath in
  let N := Frontend.componentsDir pluginPath ++ [cn] in
  let old_export := lit "export const ExampleComponent" in
  let new_export := lit "export const " ++ cn in
  let c' := replace_all Frontend.re_fetch_jsx []
              (replace_all Frontend.re_fetch_import [] c) in
  valid_package pluginPath manifest (disk w) (Some (JStr id)) ->
  ~ In (ch "/") cn ->
  no_dollar cn = true ->
  clash_free (lit "ExampleComponent") cn = true ->
  well_formed cn = true ->
  well_formed c = true -> well_formed t = true -> well_formed i = true ->
  is_file (E ++ [lit "ExampleComponent.tsx"]) c (disk w) ->
  is_file (E ++ [lit "ExampleComponent.test.tsx"]) t (disk w) ->
  is_file (E ++ [lit "index.ts"]) i (disk w) ->
  run (Frontend.main unicode_upper (Some pluginPath) manifest) w = (0%Z, w1) ->
  absent E (disk w1)
  /\ is_file (N ++ [cn ++ lit ".tsx"]) (Frontend.content cn c) (disk w1)
  /\ is_file (N ++ [cn ++ lit ".test.tsx"]) (Frontend.testContent cn t) (disk w1)
  /\ is_file (N ++ [lit "index.ts"]) (Frontend.indexContent cn i) (disk w1)
  /\ occurs (lit "ExampleComponent") (Frontend.testContent cn t) = false
  /\ occurs (lit "ExampleComponent") (Frontend.indexContent cn i) = false
  /\ (forall a b,
        c' = a ++ old_export ++ b ->
        occurs old_export (a ++ removelast old_export) = false ->
        Frontend.content cn c
        = a ++ new_export ++ replace_all Frontend.re_export new_export b)
  /\ (occurs old_export c' = false -> Frontend.content cn c = c')
  /\ (forall p,
        well_formed p = true ->
        is_file (Frontend.pluginFilePath pluginPath) p (disk w) ->
        is_file (Frontend.pluginFilePath pluginPath)
          (Frontend.pluginContent cn p) (disk w1))
  /\ (forall q x,
        is_file q x (disk w) ->
        ~ Frontend.exampleFetchDir pluginPath `prefix_of` q ->
        ~ E `prefix_of` q ->
        ~ N `prefix_of` q ->
        ~ Frontend.devDir pluginPath `prefix_of` q ->
        q <> Frontend.pluginFilePath pluginPath ->
        q <> Frontend.pluginTestPath pluginPath ->
        is_file q x (disk w1)).
Proof.
  intros cn E N old_export new_export c' Hv Hseg Hd Hcl _ _ _ _ Hc Ht Hi Hr.
  destruct (frontend_success unicode_upper _ _ _ _ _ Hv Hr) as (w0 & Hd0 & _ & Hrun).
  fold cn in Hrun.
  assert (absent E (disk w1)) as Ha.
  { pose proof (frontend_cleanup_cleans pluginPath
                  (toPascalCase unicode_upper id) w0 I) as [Hq _].
    change (toPascalCase unicode_upper id ++ lit "Page") with cn in Hq.
    rewrite Hrun in Hq. apply Hq. }
  pose proof (cleanup_renames pluginPath (toPascalCase unicode_upper id)
                Hseg c t i w0) as [Hq _].
  { rewrite Hd0. auto. }
  change (toPascalCase unicode_upper id ++ lit "Page") with cn in Hq.
  rewrite Hrun in Hq. cbn [fst snd on_done] in Hq.
  destruct Hq as (H1 & H2 & H3).
  destruct (rename_rules_clean cn t Hd Hcl) as [Ht1 _].
  destruct (rename_rules_clean cn i Hd Hcl) as [_ Hi2].
  repeat (split; [assumption|]).
  split; [|split; [|split]].
  - intros a b Hc' Ho. unfold Frontend.content. fold c'. rewrite Hc'.
    now apply export_rule_first.
  - intros Ho. unfold Frontend.content. fold c'.
    apply (replace_without_literal _ _ _ old_export [] []); [|exact Ho].
    left. now rewrite app_nil_r.
  - intros p _ Hp.
    pose proof (frontend_cleanup_patches_plugin pluginPath
                  (toPascalCase unicode_upper id) Hseg p w0) as [Hq _].
    { now rewrite Hd0. }
    change (toPascalCase unicode_upper id ++ lit "Page") with cn in Hq.
    rewrite Hrun in Hq. exact Hq.
  - intros q x Hq F1 F2 F3 F4 F5 F6.
    pose proof (frontend_cleanup_frame pluginPath (toPascalCase unicode_upper id)
                  Hseg q x F1 F2 F3 F4 F5 F6 w0) as [Hk _].
    { now rewrite Hd0. }
    change (toPascalCase unicode_upper id ++ lit "Page") with cn in Hk.
    rewrite Hrun in Hk. exact Hk.
Qed.

(** The scaffolded package with the plugin id my-service. *)
Lemma renamed_unit_consistent_witness :
  let cn := Frontend.componentName Sample.ascii_only (lit "my-service") in
  let w1 := snd (run (Sample.frontend_script "my-service") (boot Sample.frontend)) in
  let N := Frontend.componentsDir Sample.root ++ [cn] in
  cn = lit "MyServicePage"
  /\ absent (Frontend.exampleComponentDir Sample.root) (disk w1)
  /\ is_file (N ++ [cn ++ lit ".tsx"])
       (Frontend.content cn (lit Sample.component_text)) (disk w1)
  /\ is_file (N ++ [cn ++ lit ".test.tsx"])
       (Frontend.testContent cn (lit Sample.test_text)) (disk w1)
  /\ is_file (N ++ [lit "index.ts"])
       (Frontend.indexContent cn (lit Sample.index_text)) (disk w1)
  /\ occurs (lit "ExampleComponent")
       (Frontend.testContent cn (lit Sample.test_text)) = false
  /\ occurs (lit "ExampleComponent")
       (Frontend.indexContent cn (lit Sample.index_text)) = false
  /\ Frontend.content cn (lit Sample.component_text)
     = lit "export const MyServicePage = () => (
  <Grid container></Grid>
);
"
  /\ is_file (Sample.root ++ [lit "src"; lit "index.ts"])
       (lit "export { demoPlugin, DemoPage } from './plugin';") (disk w1).
Proof.
  intros cn w1 N.
  assert (cn = lit "MyServicePage") as Hcn by (vm_compute; reflexivity).
  split; [exact Hcn|].
  destruct (renamed_unit_consistent Sample.ascii_only Sample.root
              (Sample.manifest "my-service") (boot Sample.frontend) w1
              (lit "my-service") (lit Sample.component_text)
              (lit Sample.test_text) (lit Sample.index_text))
    as (H1 & H2 & H3 & H4 & H5 & H6 & H7 & _ & _ & H10).
  - apply sample_frontend_valid.
  - fold cn. rewrite Hcn. apply no_slash_lit. vm_compute. reflexivity.
  - vm_compute. reflexivity.
  - vm_compute. reflexivity.
  - vm_compute. reflexivity.
  - vm_compute. reflexivity.
  - vm_compute. reflexivity.
  - vm_compute. reflexivity.
  - vm_compute. reflexivity.
  - vm_compute. reflexivity.
  - vm_compute. reflexivity.
  - vm_compute. reflexivity.
  - split; [exact H1|]. split; [exact H2|]. split; [exact H3|].
    split; [exact H4|]. split; [exact H5|]. split; [exact H6|].
    split.
    + refine (eq_trans (H7 [] (lit " = () => (
  <Grid container></Grid>
);
") _ _) _); vm_compute; reflexivity.
    + apply H10; [vm_compute; reflexivity|closed_path_side..].
Defined.
